(** * Container termination in the daemon: stop, kill and remove

    A shallow embedding of [daemon/kill.go], [daemon/stop.go] and the two
    removal files of the daemon (the one that probes processes through
    [golang.org/x/sys/windows] and the one that probes them with
    [os.Process.Signal]).

    The Go code is sequential code over a shared object store (containers are
    reached through pointers held both by the registry and by local
    variables), calling into collaborators whose answers the daemon does not
    control (the runtime task, the layer and lease services, the filesystem,
    the metadata store).  It is embedded as state passing over a [World]
    with an explicit heap; every collaborator answer is drawn from an
    environment [Env], indexed by a call counter, and every observable step is
    appended to a trace. *)

From Stdlib Require Import ZArith Ascii String List Bool Lia.
From stdpp Require Import base gmap sets list strings pretty.

Open Scope string_scope.
Open Scope Z_scope.

(** ** Errors

    Go error values, with the wrapping structure that [errors.As] and
    [errdefs.Is...] look through. *)

Inductive ErrKind : Type := KNotFound | KConflict | KInvalidParameter | KSystem | KUnknown.

Inductive error : Type :=
  | errNoSuchProcess (pid : Z) (signal : Z)       (* kill.go: type errNoSuchProcess *)
  | errNotRunning (id : string)                   (* errNotRunning(container.ID) *)
  | DeadlineExceeded                              (* context.DeadlineExceeded *)
  | Canceled                                      (* context.Canceled *)
  | errExternal (k : ErrKind) (msg : string)      (* an error made by a collaborator *)
  | errNew (msg : string)                         (* errors.New, fmt.Errorf without %w *)
  | errSprintV (msg : string) (e : error)         (* fmt.Errorf("... %v", err): text only *)
  | errWrapf (e : error) (msg : string)           (* errors.Wrapf(err, msg) *)
  | errdefsAs (k : ErrKind) (e : error).          (* errdefs.Conflict(err), errdefs.System(err), ... *)

(** [errors.As(err, &errNoSuchProcess{})]: walk the [Unwrap] chain.
    [fmt.Errorf] with [%v] keeps only the text, so the chain stops there. *)
Fixpoint As_errNoSuchProcess (e : error) : bool :=
  match e with
  | errNoSuchProcess _ _ => true
  | errWrapf e' _ => As_errNoSuchProcess e'
  | errdefsAs _ e' => As_errNoSuchProcess e'
  | _ => false
  end.

(** [errdefs.IsNotFound(err)]: the outermost classification decides. *)
Fixpoint IsNotFound (e : error) : bool :=
  match e with
  | errNoSuchProcess _ _ => true                  (* func (errNoSuchProcess) NotFound() {} *)
  | errNotRunning _ => false                      (* a conflict *)
  | errExternal KNotFound _ => true
  | errExternal _ _ => false
  | errWrapf e' _ => IsNotFound e'
  | errdefsAs KNotFound _ => true
  | errdefsAs _ _ => false
  | _ => false
  end.

Definition IsNotFound_opt (err : option error) : bool :=
  match err with Some e => IsNotFound e | None => false end.

(** ** Data *)

Definition SIGKILL : Z := 9.

(** [time.Duration] is an [int64] count of nanoseconds. *)
Definition wrap64 (x : Z) : Z := (x + 2^63) mod 2^64 - 2^63.
Definition Second : Z := 1000000000.
Definition seconds (n : Z) : Z := wrap64 (n * Second).

(** [container.Container], restricted to what the three files read or write.
    [nil] errors and handles are [None]. The immutable [ID] is the key under
    which the object lives in the heap, and is not repeated in the record. *)
Record Container : Type := mkContainer {
  Pid : Z;
  Running : bool;
  Paused : bool;
  Restarting : bool;
  Dead : bool;
  RemovalInProgress : bool;
  Removed : bool;
  HasBeenManuallyStopped : bool;
  exitOnNext : bool;
  RWLayer : option string;
  ProcessLabel : string;
  Root : string;
  Config_StopSignal : string;         (* container.Config.StopSignal *)
  stopSignal : Z;                     (* what container.StopSignal() answers *)
  stopTimeout : Z;                    (* what container.StopTimeout() answers *)
  removalError : option error;
  locked : bool
}.

Definition set_Dead (b : bool) (c : Container) : Container :=
  mkContainer (Pid c) (Running c) (Paused c) (Restarting c) b (RemovalInProgress c)
    (Removed c) (HasBeenManuallyStopped c) (exitOnNext c) (RWLayer c) (ProcessLabel c) (Root c)
    (Config_StopSignal c) (stopSignal c) (stopTimeout c) (removalError c) (locked c).
Definition set_RemovalInProgress (b : bool) (c : Container) : Container :=
  mkContainer (Pid c) (Running c) (Paused c) (Restarting c) (Dead c) b
    (Removed c) (HasBeenManuallyStopped c) (exitOnNext c) (RWLayer c) (ProcessLabel c) (Root c)
    (Config_StopSignal c) (stopSignal c) (stopTimeout c) (removalError c) (locked c).
Definition set_HasBeenManuallyStopped (b : bool) (c : Container) : Container :=
  mkContainer (Pid c) (Running c) (Paused c) (Restarting c) (Dead c) (RemovalInProgress c)
    (Removed c) b (exitOnNext c) (RWLayer c) (ProcessLabel c) (Root c)
    (Config_StopSignal c) (stopSignal c) (stopTimeout c) (removalError c) (locked c).
Definition set_exitOnNext (b : bool) (c : Container) : Container :=
  mkContainer (Pid c) (Running c) (Paused c) (Restarting c) (Dead c) (RemovalInProgress c)
    (Removed c) (HasBeenManuallyStopped c) b (RWLayer c) (ProcessLabel c) (Root c)
    (Config_StopSignal c) (stopSignal c) (stopTimeout c) (removalError c) (locked c).
Definition set_RWLayer (l : option string) (c : Container) : Container :=
  mkContainer (Pid c) (Running c) (Paused c) (Restarting c) (Dead c) (RemovalInProgress c)
    (Removed c) (HasBeenManuallyStopped c) (exitOnNext c) l (ProcessLabel c) (Root c)
    (Config_StopSignal c) (stopSignal c) (stopTimeout c) (removalError c) (locked c).
Definition set_removalError (e : option error) (c : Container) : Container :=
  mkContainer (Pid c) (Running c) (Paused c) (Restarting c) (Dead c) (RemovalInProgress c)
    (Removed c) (HasBeenManuallyStopped c) (exitOnNext c) (RWLayer c) (ProcessLabel c) (Root c)
    (Config_StopSignal c) (stopSignal c) (stopTimeout c) e (locked c).
Definition set_locked (b : bool) (c : Container) : Container :=
  mkContainer (Pid c) (Running c) (Paused c) (Restarting c) (Dead c) (RemovalInProgress c)
    (Removed c) (HasBeenManuallyStopped c) (exitOnNext c) (RWLayer c) (ProcessLabel c) (Root c)
    (Config_StopSignal c) (stopSignal c) (stopTimeout c) (removalError c) b.

(** Modelled from the spec: the not-running transition ("the state-change
    event a container emits when its process exits"); [Pid] goes back to [0],
    "never started or already exited". The state package is not among the
    sources. *)
Definition setStopped (c : Container) : Container :=
  mkContainer 0 false false false (Dead c) (RemovalInProgress c)
    (Removed c) (HasBeenManuallyStopped c) (exitOnNext c) (RWLayer c) (ProcessLabel c) (Root c)
    (Config_StopSignal c) (stopSignal c) (stopTimeout c) (removalError c) (locked c).

(** Modelled from the spec: "Mark the container Removed, clear its
    removal-error field" ([container.SetRemoved]). *)
Definition setRemoved (c : Container) : Container :=
  mkContainer (Pid c) (Running c) (Paused c) (Restarting c) (Dead c) (RemovalInProgress c)
    true (HasBeenManuallyStopped c) (exitOnNext c) (RWLayer c) (ProcessLabel c) (Root c)
    (Config_StopSignal c) (stopSignal c) (stopTimeout c) None (locked c).

(** [container.StateString()] on a running container (the only use here). *)
Definition StateString (c : Container) : string :=
  if Running c then
    if Paused c then "paused" else if Restarting c then "restarting" else "running"
  else if RemovalInProgress c then "removing"
  else if Dead c then "dead" else "exited".

Record ContainerRmConfig : Type := mkRmConfig {
  ForceRemove : bool;
  RemoveVolume : bool;
  RemoveLink : bool
}.

Record StopOptions : Type := mkStopOptions {
  opt_Signal : string;
  opt_Timeout : option Z
}.

(** [context.Context]: when (if ever) it is done, and why. Times are absolute
    nanoseconds. *)
Record Context : Type := mkContext {
  ctx_deadline : option Z;
  ctx_cancel : option Z
}.

Definition Background : Context := mkContext None None.

Definition WithTimeout (parent : Context) (now d : Z) : Context :=
  mkContext
    (match ctx_deadline parent with
     | Some p => Some (Z.min p (now + d))
     | None => Some (now + d)
     end)
    (ctx_cancel parent).

(** [context.WithCancel]: the cancel function is only ever deferred here, so
    the child is done exactly when the parent is. *)
Definition WithCancel (parent : Context) : Context := parent.

Definition ctx_done (ctx : Context) : option (Z * error) :=
  match ctx_deadline ctx, ctx_cancel ctx with
  | Some d, Some k => if d <=? k then Some (d, DeadlineExceeded) else Some (k, Canceled)
  | Some d, None => Some (d, DeadlineExceeded)
  | None, Some k => Some (k, Canceled)
  | None, None => None
  end.

(** ** Collaborators, events, the world *)

(** The fallible collaborator operations (spec, external interfaces). *)
Inductive Op : Type :=
  | GetRunningTask | TaskKill (sig : Z) | TaskResume | killProcessDirectly
  | CheckpointTo | ReleaseLayer | LeaseDelete | EnsureRemoveAll
  | removeMountPoints | updateNetwork.

(** The two goroutines the code starts: the wait for the exit event that
    otherwise drives [handleContainerExit] (kill.go), and the asynchronous
    [LogContainerEvent(container, "destroy")]. *)
Inductive Goroutine : Type := GoWaitExit | GoLogDestroy.

Inductive Event : Type :=
  | EvEnter (fn : string) (id : string)            (* a daemon function is entered *)
  | EvLock (id : string)
  | EvUnlock (id : string)
  | EvSetDead (id : string)                        (* container.Dead = true *)
  | EvExt (op : Op) (id : string) (res : option error)
  | EvWait (id : string) (ctx : Context) (res : option error)
  | EvBlocked (id : string)                        (* a wait that never ends *)
  | EvGo (g : Goroutine) (id : string)             (* go func() { ... }() *)
  | EvStopCollection (id : string)
  | EvReleaseLabel (label : string)
  | EvLogContainerEvent (id : string) (action : string)
  | EvUpdateSince (action : string)                (* containerActions metric *)
  | EvStateCtrDel (id : string)
  | EvRecordsContainerId (id : string)
  | EvSignal (pid : Z) (sig : Z).                  (* an OS-level signal delivery *)

#[global] Instance Op_eq_dec : EqDecision Op.
Proof. solve_decision. Defined.

(** An entry of the OS process table: a live process (may the daemon signal
    it or open it?), or one that has exited while its pid is still held. *)
Inductive Proc : Type := Live (permitted : bool) | Exited.

Record Env : Type := mkEnv {
  goos_windows : bool;                             (* runtime.GOOS == "windows" *)
  UsesSnapshotter : bool;
  IsShuttingDown : bool;
  ParseSignal : string -> error + Z;               (* signal.ParseSignal *)
  outcome : Op -> nat -> option error;             (* answer to the n-th collaborator call *)
  exit_delay : nat -> option Z;                    (* at the n-th call: ns until the exit
                                                      event is processed, if ever *)
  EnumProcesses_fails : bool                       (* windows.EnumProcesses returns an error *)
}.

Record World : Type := mkWorld {
  now : Z;
  calls : nat;
  trace : list Event;
  heap : gmap string Container;                    (* container objects, by ID *)
  containers : gset string;                        (* daemon.containers: registered IDs *)
  containersReplica : gmap string Container;       (* persisted snapshots *)
  names : gmap string string;                      (* name reservations: name to ID *)
  linkIndex : list (string * string * string);     (* link name, parent ID, child ID *)
  procs : gmap Z Proc                              (* the OS process table *)
}.

Definition set_now (t : Z) (w : World) : World :=
  mkWorld t (calls w) (trace w) (heap w) (containers w) (containersReplica w) (names w)
    (linkIndex w) (procs w).
Definition tick (w : World) : World :=
  mkWorld (now w) (S (calls w)) (trace w) (heap w) (containers w) (containersReplica w)
    (names w) (linkIndex w) (procs w).
Definition emit (e : Event) (w : World) : World :=
  mkWorld (now w) (calls w) (trace w ++ [e]) (heap w) (containers w) (containersReplica w)
    (names w) (linkIndex w) (procs w).
Definition set_heap (h : gmap string Container) (w : World) : World :=
  mkWorld (now w) (calls w) (trace w) h (containers w) (containersReplica w) (names w)
    (linkIndex w) (procs w).
Definition set_containers (s : gset string) (w : World) : World :=
  mkWorld (now w) (calls w) (trace w) (heap w) s (containersReplica w) (names w)
    (linkIndex w) (procs w).
Definition set_containersReplica (r : gmap string Container) (w : World) : World :=
  mkWorld (now w) (calls w) (trace w) (heap w) (containers w) r (names w)
    (linkIndex w) (procs w).
Definition set_names (n : gmap string string) (w : World) : World :=
  mkWorld (now w) (calls w) (trace w) (heap w) (containers w) (containersReplica w) n
    (linkIndex w) (procs w).
Definition set_linkIndex (l : list (string * string * string)) (w : World) : World :=
  mkWorld (now w) (calls w) (trace w) (heap w) (containers w) (containersReplica w) (names w)
    l (procs w).
Definition set_procs (p : gmap Z Proc) (w : World) : World :=
  mkWorld (now w) (calls w) (trace w) (heap w) (containers w) (containersReplica w) (names w)
    (linkIndex w) p.

(** ** The monad of daemon code

    A call returns, blocks for ever (a wait with no deadline on a container
    that never exits, or a lock that is never released), or panics (nil
    dereference, index out of range). The world reached is kept in the first
    two cases. *)

Inductive Outcome (A : Type) : Type :=
  | Ret (a : A) (w : World)
  | Blocked (w : World)
  | Panic.
Arguments Ret {A} a w.
Arguments Blocked {A} w.
Arguments Panic {A}.

Definition M (A : Type) : Type := World -> Outcome A.

Definition ret {A} (a : A) : M A := fun w => Ret a w.

Definition bind {A B} (m : M A) (k : A -> M B) : M B := fun w =>
  match m w with
  | Ret a w' => k a w'
  | Blocked w' => Blocked w'
  | Panic => Panic
  end.

Declare Scope go_scope.
Delimit Scope go_scope with go.
Notation "'do' x <- m ; k" := (bind m (fun x => k))
  (at level 10, x name, m at level 100, k at level 200) : go_scope.
Notation "'run' m ; k" := (bind m (fun _ => k))
  (at level 10, m at level 100, k at level 200) : go_scope.
Open Scope go_scope.

(** The world an outcome carries, and its trace. *)
Definition final {A} (o : Outcome A) : option World :=
  match o with Ret _ w => Some w | Blocked w => Some w | Panic => None end.

Definition result {A} (o : Outcome A) : option A :=
  match o with Ret a _ => Some a | _ => None end.

(** ** Primitive steps *)

Section Daemon.

Context (env : Env).

Definition getC (id : string) : M Container := fun w =>
  match heap w !! id with
  | Some c => Ret c w
  | None => Panic
  end.

Definition modC (id : string) (f : Container -> Container) : M unit := fun w =>
  match heap w !! id with
  | Some c => Ret tt (set_heap (<[id := f c]> (heap w)) w)
  | None => Panic
  end.

Definition log (e : Event) : M unit := fun w => Ret tt (emit e w).

(** A call into a collaborator: the environment answers, the call and its
    answer are traced. *)
Definition call (op : Op) (id : string) : M (option error) := fun w =>
  let r := outcome env op (calls w) in
  Ret r (emit (EvExt op id r) (tick w)).

(** [container.Lock()]: a mutex that is already held is never released in a
    sequential run. *)
Definition Lock (id : string) : M unit := fun w =>
  match heap w !! id with
  | None => Panic
  | Some c =>
      if locked c then Blocked (emit (EvBlocked id) w)
      else Ret tt (emit (EvLock id) (set_heap (<[id := set_locked true c]> (heap w)) w))
  end.

Definition Unlock (id : string) : M unit :=
  run modC id (set_locked false);
  log (EvUnlock id).

(** [container.Dead = true]: the write to the object, traced as it happens. *)
Definition setDead (id : string) : M unit := fun w =>
  match heap w !! id with
  | Some c => Ret tt (emit (EvSetDead id) (set_heap (<[id := set_Dead true c]> (heap w)) w))
  | None => Panic
  end.

(** [container.CheckpointTo(daemon.containersReplica)]: on success the
    replica holds a snapshot of the container as it is now. *)
Definition checkpointTo (id : string) : M (option error) :=
  do c <- getC id;
  do err <- call CheckpointTo id;
  match err with
  | None =>
      run (fun w => Ret tt (set_containersReplica (<[id := c]> (containersReplica w)) w));
      ret None
  | Some e => ret (Some e)
  end.

(** Modelled from the spec: [<-container.Wait(ctx, WaitConditionNotRunning)],
    "a subscription to a per-container broadcast of state-transition events,
    bounded by a deadline": it answers at once for a container that is not
    running; otherwise whichever comes first of the exit event (the
    container becomes not-running, no error) and the context being done
    (its error). With neither, it never answers. *)
Definition Wait (ctx : Context) (id : string) : M (option error) := fun w =>
  match heap w !! id with
  | None => Panic
  | Some c =>
      if negb (Running c) then Ret None (emit (EvWait id ctx None) w)
      else
        let w1 := tick w in
        let exits (d : Z) : Outcome (option error) :=
          Ret None (emit (EvWait id ctx None)
                      (set_heap (<[id := setStopped c]> (heap w1))
                         (set_now (now w + Z.max 0 d) w1))) in
        let expires (t : Z) (e : error) : Outcome (option error) :=
          Ret (Some e) (emit (EvWait id ctx (Some e)) (set_now (Z.max (now w) t) w1)) in
        match ctx_done ctx, exit_delay env (calls w) with
        | Some (t, e), Some d => if now w + Z.max 0 d <? t then exits d else expires t e
        | Some (t, e), None => expires t e
        | None, Some d => exits d
        | None, None => Blocked (emit (EvBlocked id) w1)
        end
  end.

(** ** daemon/kill.go *)

Definition ExitOnNext (id : string) : M unit := modC id (set_exitOnNext true).

(** The body of [killWithSignal] between [container.Lock()] and the deferred
    [container.Unlock()]. *)
Definition killWithSignal_locked (id : string) (stopSignal : Z) : M (option error) :=
  do terr <- call GetRunningTask id;
  match terr with
  | Some e => ret (Some e)
  | None =>
      do c <- getC id;
      do armed <-
        (if negb (String.eqb (Config_StopSignal c) "") && negb (stopSignal =? SIGKILL) then
           match ParseSignal env (Config_StopSignal c) with
           | inl e => ret (inl e)
           | inr containerStopSignal =>
               if containerStopSignal =? stopSignal
               then run ExitOnNext id; ret (inr (Paused c))
               else ret (inr false)
           end
         else run ExitOnNext id; ret (inr (Paused c)));
      match armed with
      | inl e => ret (Some e)
      | inr unpause =>
          run (if negb (IsShuttingDown env)
               then run modC id (set_HasBeenManuallyStopped true);
                    do _ <- checkpointTo id; ret tt
               else ret tt);
          if Restarting c then ret None
          else
            do kerr <- call (TaskKill stopSignal) id;
            match kerr with
            | Some e =>
                if IsNotFound e then
                  (* unpause = false; the goroutine waits for the exit event
                     and otherwise drives handleContainerExit *)
                  run log (EvGo GoWaitExit id);
                  run log (EvLogContainerEvent id "kill");
                  ret None
                else ret (Some (errWrapf e ("Cannot kill container " ++ id)))
            | None =>
                run (if unpause then do _ <- call TaskResume id; ret tt else ret tt);
                run log (EvLogContainerEvent id "kill");
                ret None
            end
      end
  end.

Definition killWithSignal (id : string) (stopSignal : Z) : M (option error) :=
  run Lock id;
  do r <- killWithSignal_locked id stopSignal;
  run Unlock id;
  ret r.

(** [killPossiblyDeadProcess]: a not-found failure becomes [errNoSuchProcess]. *)
Definition killPossiblyDeadProcess (id : string) (sig : Z) : M (option error) :=
  do err <- killWithSignal id sig;
  if IsNotFound_opt err then
    do c <- getC id;
    ret (Some (errNoSuchProcess (Pid c) sig))
  else ret err.

Definition errNoExitEvent : error :=
  errNew "tried to kill container, but did not receive an exit event".

(** [Kill] forcefully terminates a container. *)
Definition Kill (id : string) : M (option error) :=
  run log (EvEnter "Kill" id);
  do c <- getC id;
  if negb (Running c) then ret (Some (errNotRunning id))
  else
    (* 1. Send SIGKILL *)
    do err <- killPossiblyDeadProcess id SIGKILL;
    if match err with Some e => As_errNoSuchProcess e | None => false end then ret None
    else
      do t0 <- (fun w => Ret (now w) w);
      let waitTimeout := if goos_windows env then 75 * Second else 10 * Second in
      do status <- Wait (WithTimeout Background t0 waitTimeout) id;
      match status with
      | None => ret None
      | Some _ =>
          do derr <- call killProcessDirectly id;
          match derr with
          | Some e => if As_errNoSuchProcess e then ret None else ret (Some e)
          | None =>
              do t1 <- (fun w => Ret (now w) w);
              do status2 <- Wait (WithTimeout Background t1 (2 * Second)) id;
              match status2 with
              | Some _ => ret (Some errNoExitEvent)
              | None => ret None
              end
          end
      end.

(** ** daemon/stop.go *)

Definition effectiveTimeout (c : Container) (options : StopOptions) : Z :=
  match opt_Timeout options with
  | Some t => t
  | None => stopTimeout c
  end.

(** [containerStop] sends a stop signal, waits, sends a kill signal. The
    caller's context is the blank parameter [_]: the body works on
    [context.Background()]. *)
Definition containerStop (_ : Context) (id : string) (options : StopOptions)
  : M (option error) :=
  let ctx := Background in
  do c <- getC id;
  if negb (Running c) then ret None
  else
    match (if negb (String.eqb (opt_Signal options) "")
           then ParseSignal env (opt_Signal options)
           else inr (stopSignal c)) with
    | inl e => ret (Some (errdefsAs KInvalidParameter e))
    | inr stopSig =>
        let stopTimeout := effectiveTimeout c options in
        let wait0 := if 0 <=? stopTimeout then seconds stopTimeout else 0 in
        do retErr <-
          ((* 1. Send a stop signal *)
           do err <- killPossiblyDeadProcess id stopSig;
           let wait := match err with Some _ => 2 * Second | None => wait0 end in
           do t0 <- (fun w => Ret (now w) w);
           let subCtx := if 0 <=? stopTimeout then WithTimeout ctx t0 wait
                         else WithCancel ctx in
           do status <- Wait subCtx id;
           match status with
           | None => ret None          (* container did exit *)
           | Some _ =>
               if stopTimeout <? 0 then ret err
               else
                 (* Stop either failed or container didn't exit, so fallback to kill. *)
                 do kerr <- Kill id;
                 match kerr with
                 | Some ke =>
                     do t1 <- (fun w => Ret (now w) w);
                     do status2 <- Wait (WithTimeout ctx t1 (2 * Second)) id;
                     match status2 with
                     | Some _ => ret (Some ke)
                     | None => ret None
                     end
                 | None => ret None
                 end
           end);
        (* deferred: if retErr == nil { daemon.LogContainerEvent(ctr, "stop") } *)
        run (match retErr with
             | None => log (EvLogContainerEvent id "stop")
             | Some _ => ret tt
             end);
        ret retErr
    end.

(** ** The registry and the indices *)

(** [daemon.containers.Get(id)]. *)
Definition containers_Get (w : World) (id : string) : option Container :=
  if bool_decide (id ∈ containers w) then heap w !! id else None.

Definition containerNotFound (name : string) : error :=
  errExternal KNotFound ("No such container: " ++ name).

(** Modelled from the spec: [daemon.GetContainer], "Resolve the name to a
    Container; NotFound if absent" (by identifier, then by reserved name). *)
Definition GetContainer (w : World) (name : string) : error + string :=
  match containers_Get w name with
  | Some _ => inr name
  | None =>
      match names w !! name with
      | Some id =>
          match containers_Get w id with
          | Some _ => inr id
          | None => inl (containerNotFound name)
          end
      | None => inl (containerNotFound name)
      end
  end.

Definition containers_Delete (id : string) : M unit := fun w =>
  Ret tt (set_containers (containers w ∖ {[id]}) w).

Definition containersReplica_Delete (id : string) : M unit := fun w =>
  Ret tt (set_containersReplica (delete id (containersReplica w)) w).

Definition releaseName (name : string) : M unit := fun w =>
  Ret tt (set_names (delete name (names w)) w).

(** [for _, name := range linkNames { daemon.releaseName(name) }] *)
Fixpoint releaseNames (linkNames : list string) : M unit :=
  match linkNames with
  | [] => ret tt
  | name :: rest => run releaseName name; releaseNames rest
  end.

Definition refers (id : string) (l : string * string * string) : bool :=
  bool_decide (l.1.2 = id) || bool_decide (l.2 = id).

(** Modelled from the spec: [linkIndex.delete] "remove all link-index
    entries referencing a container (as parent or child) and return the list
    of freed names". *)
Definition linkIndex_delete (id : string) : M (list string) := fun w =>
  Ret (map (fun l => l.1.1) (filter (fun l => refers id l = true) (linkIndex w)))
      (set_linkIndex (filter (fun l => refers id l = false) (linkIndex w)) w).

(** [linkIndex.unlink(name, child, parent)] *)
Definition linkIndex_unlink (name child parent : string) : M unit := fun w =>
  Ret tt (set_linkIndex
            (filter (fun l => l ≠ (name, parent, child)) (linkIndex w)) w).

Definition SetRemovalInProgress (id : string) : M bool :=
  do c <- getC id;
  if RemovalInProgress c then ret true
  else run modC id (set_RemovalInProgress true); ret false.

Definition ResetRemovalInProgress (id : string) : M unit :=
  modC id (set_RemovalInProgress false).

Definition SetRemovalError (id : string) (e : option error) : M unit :=
  modC id (set_removalError e).

(** ** Link removal ([rmLink], the same in both removal files) *)

Definition is_slash (a : ascii) : bool := Ascii.eqb a "/"%char.

(** [path.Split]: split after the final slash. *)
Fixpoint path_Split (s : string) : string * string :=
  match s with
  | EmptyString => (EmptyString, EmptyString)
  | String a rest =>
      match path_Split rest with
      | (EmptyString, _) =>
          if is_slash a then (String a EmptyString, rest) else (EmptyString, s)
      | (d, f) => (String a d, f)
      end
  end.

(** [strings.TrimSuffix(s, "/")] *)
Fixpoint TrimSuffix_slash (s : string) : string :=
  match s with
  | EmptyString => EmptyString
  | String a EmptyString => if is_slash a then EmptyString else s
  | String a rest => String a (TrimSuffix_slash rest)
  end.

Definition rmLink (id : string) (name : string) : M (option error) :=
  match name with
  | EmptyString => fun _ => Panic                    (* name[0] *)
  | String a _ =>
      let name := if negb (is_slash a) then "/" ++ name else name in
      let '(parent, n) := path_Split name in
      if String.eqb parent "/" then
        ret (Some (errNew "Conflict, cannot remove the default link name of the container"))
      else
        let parent := TrimSuffix_slash parent in
        do pe <- (fun w => Ret (names w !! parent) w);
        match pe with
        | None =>
            ret (Some (errNew ("Cannot get parent " ++ parent ++ " for link name " ++ name)))
        | Some pe =>
            run releaseName name;
            do parentContainer <- (fun w => Ret (GetContainer w pe) w);
            run (match parentContainer with
                 | inr pid =>
                     run linkIndex_unlink name id pid;
                     do _ <- call updateNetwork pid; ret tt
                 | inl _ => ret tt
                 end);
            ret None
        end
  end.

(** ** [cleanupContainer] (the same in both removal files) *)

Definition errCannotRemoveRunning (c : Container) (id : string) : error :=
  let state := StateString c in
  let procedure :=
    if String.eqb state "paused"
    then "Unpause and then stop the container before attempting removal or force remove"
    else "Stop the container before attempting removal or force remove" in
  errdefsAs KConflict
    (errNew ("You cannot remove a " ++ state ++ " container " ++ id ++ ". " ++ procedure)).

Definition errCouldNotKill (id : string) (e : error) : error :=
  errSprintV ("Could not kill running container " ++ id ++ ", cannot remove - ") e.

(** Steps after the filesystem root is gone: unlink, deregister, release. *)
Definition deregister (id : string) (config : ContainerRmConfig) : M unit :=
  do c <- getC id;
  do linkNames <- linkIndex_delete id;
  run log (EvReleaseLabel (ProcessLabel c));
  run containers_Delete id;
  run containersReplica_Delete id;
  do _ <- call removeMountPoints id;
  releaseNames linkNames.

(** [cleanupContainer] from "Mark container dead" to the unlock: the mark,
    under the container's lock, and the checkpoint that saves it. *)
Definition markDead (id : string) : M unit :=
  (* Mark container dead. We don't want anybody to be restarting it. *)
  run Lock id;
  run setDead id;
  (* Save container state to disk. *)
  do _ <- checkpointTo id;
  Unlock id.

(** The rest of [cleanupContainer]: the release of the layer (or lease), the
    removal of the root directory, the deregistration. *)
Definition releaseAndRemove (id : string) (config : ContainerRmConfig)
  : M (option error) :=
  (* When container creation fails and RWLayer has not been created yet, we
     do not call ReleaseRWLayer *)
  do c1 <- getC id;
  do rerr <-
    match RWLayer c1 with
    | Some _ =>
        do err <- call ReleaseLayer id;
        match err with
        | Some e =>
            let e' := errWrapf e ("container " ++ id) in
            run SetRemovalError id (Some e');
            ret (Some e')
        | None => run modC id (set_RWLayer None); ret None
        end
    | None =>
        if UsesSnapshotter env then
          do err <- call LeaseDelete id;
          match err with
          | Some e => run SetRemovalError id (Some e); ret (Some e)
          | None => ret None
          end
        else ret None
    end;
  match rerr with
  | Some e => ret (Some e)
  | None =>
      (* Hold the container lock while deleting the container root directory *)
      run Lock id;
      do err <- call EnsureRemoveAll id;
      run Unlock id;
      match err with
      | Some e =>
          let e' := errWrapf e ("unable to remove filesystem for " ++ id) in
          run SetRemovalError id (Some e');
          ret (Some e')
      | None =>
          run deregister id config;
          run modC id setRemoved;
          run log (EvStateCtrDel id);
          run log (EvLogContainerEvent id "destroy");
          ret None
      end
  end.

(** The second half of [cleanupContainer], from "Mark container dead" on. *)
Definition teardownContainer (id : string) (config : ContainerRmConfig) : M (option error) :=
  run markDead id;
  releaseAndRemove id config.

(** [cleanupContainer] unregisters a container from the daemon, stops stats
    collection and cleanly removes contents and metadata from the filesystem. *)
Definition cleanupContainer (id : string) (config : ContainerRmConfig) : M (option error) :=
  do c <- getC id;
  do kerr <-
    (if Running c then
       if negb (ForceRemove config) then ret (Some (errCannotRemoveRunning c id))
       else do err <- Kill id; ret (errCouldNotKill id <$> err)
     else ret None);
  match kerr with
  | Some e => ret (Some e)
  | None =>
      (* stop collection of stats for the container regardless *)
      run log (EvStopCollection id);
      do serr <- containerStop Background id (mkStopOptions "" (Some 3));
      match serr with
      | Some e => ret (Some e)
      | None => teardownContainer id config
      end
  end.

End Daemon.

(** ** The removal file that imports [golang.org/x/sys/windows] *)

Module Win.
Section Removal.

Context (env : Env).

(** [onlyCleanupContainer(container, config, force)]: both [return err]
    statements of the release step are commented out in the source. *)
Definition onlyCleanupContainer (id : string) (config : ContainerRmConfig) (force : bool)
  : M (option error) :=
  run log (EvStopCollection id);                 (* statsCollector.OnlyStopCollection *)
  run setDead id;                                (* container.Dead = true *)
  do _ <- checkpointTo env id;
  run (if negb force then
         do c1 <- getC id;
         match RWLayer c1 with
         | Some _ =>
             do err <- call env ReleaseLayer id;
             run (match err with
                  | Some e => SetRemovalError id (Some (errWrapf e ("container " ++ id)))
                  | None => ret tt
                  end);
             modC id (set_RWLayer None)
         | None =>
             if UsesSnapshotter env then
               do err <- call env LeaseDelete id;
               match err with
               | Some e => SetRemovalError id (Some e)
               | None => ret tt
               end
             else ret tt
         end
       else ret tt);
  do _ <- call env EnsureRemoveAll id;           (* a failure is only logged *)
  run deregister env id config;
  run SetRemovalError id None;                   (* container.OnlySetRemovalError(nil) *)
  run log (EvStateCtrDel id);
  run log (EvGo GoLogDestroy id);
  ret None.

Definition errRemovalInProgress (name : string) : error :=
  errdefsAs KConflict (errNew ("removal of container " ++ name ++ " is already in progress")).

(** [ContainerRm] once [daemon.GetContainer] has answered [ctr]. *)
Definition ContainerRm_resolved (id name : string) (config : ContainerRmConfig)
  : M (option error) :=
  do ctr <- getC id;
  if Pid ctr =? 0 then
    do _ <- onlyCleanupContainer id config true;
    run log (EvUpdateSince "delete");
    ret None
  else
    run log (EvRecordsContainerId id);
    (* Container state RemovalInProgress should be used to avoid races. *)
    do inProgress <- SetRemovalInProgress id;
    if inProgress then ret (Some (errRemovalInProgress name))
    else
      do r <-
        ((* check if container wasn't deregistered by previous rm since Get *)
         do c <- (fun w => Ret (containers_Get w id) w);
         match c with
         | None => ret None
         | Some _ =>
             if RemoveLink config then rmLink env id name
             else
               do err <- cleanupContainer env id config;
               run log (EvUpdateSince "delete");
               ret err
         end);
      run ResetRemovalInProgress id;             (* defer ctr.ResetRemovalInProgress() *)
      ret r.

Definition ContainerRm (name : string) (config : ContainerRmConfig) : M (option error) :=
  do ctr <- (fun w => Ret (GetContainer w name) w);
  match ctr with
  | inl err => ret (Some err)
  | inr id => ContainerRm_resolved id name config
  end.

Definition OnlyContainerRm (name : string) (config : ContainerRmConfig) (force : bool)
  : M (option error) :=
  do ctr <- (fun w => Ret (GetContainer w name) w);
  match ctr with
  | inl _ => ret None
  | inr id =>
      if force then
        do _ <- onlyCleanupContainer id config force;
        run log (EvUpdateSince "delete");
        ret None
      else
        do c <- getC id;
        if Pid c =? 0 then
          do _ <- onlyCleanupContainer id config true;
          run log (EvUpdateSince "delete");
          ret None
        else ret None
  end.

(** *** The probe: enumeration, then a zero-timeout wait on the handle *)

Definition int32 (x : Z) : Z := (x + 2^31) mod 2^32 - 2^31.
Definition uint32 (x : Z) : Z := x mod 2^32.

Definition os_pids (w : World) : list Z := (map_to_list (procs w)).*1.

(** The retry loop around [windows.EnumProcesses(ps, &read)]: [read] is a
    byte count, [len(ps)] an element count. [None]: out of fuel. *)
Fixpoint enumerate (fuel : nat) (psSize : Z) (pids : list Z) : option (list Z) :=
  match fuel with
  | O => None
  | S fuel' =>
      let read := 4 * Z.min (Z.of_nat (length pids)) psSize in
      if psSize =? read then enumerate fuel' (uint32 (psSize + 1024)) pids
      else Some (map int32 (take (Z.to_nat (read / 4)) pids))
  end.

Definition pidExists (pid : Z) (w : World) : option bool :=
  match (if negb (Z.rem pid 4 =? 0) then
           if EnumProcesses_fails env then Some [] else enumerate 2 1024 (os_pids w)
         else Some []) with
  | None => None
  | Some ret =>
      if (0 <? length ret)%nat then Some (existsb (Z.eqb (int32 pid)) ret)
      else
        (* windows.OpenProcess(SYNCHRONIZE, false, uint32(pid)) *)
        match procs w !! uint32 pid with
        | None => Some false                      (* ERROR_INVALID_PARAMETER *)
        | Some (Live false) => Some true          (* ERROR_ACCESS_DENIED *)
        | Some (Live true) => Some true           (* WAIT_TIMEOUT *)
        | Some Exited => Some false               (* the handle is signalled *)
        end
  end.

(** [pidList]: the same retry loop, collecting [int(pid)]. *)
Fixpoint pidList_loop (fuel : nat) (psSize : Z) (pids : list Z) : option (list Z) :=
  match fuel with
  | O => None
  | S fuel' =>
      let read := 4 * Z.min (Z.of_nat (length pids)) psSize in
      if psSize =? read then pidList_loop fuel' (uint32 (psSize + 1024)) pids
      else Some (take (Z.to_nat (read / 4)) pids)
  end.

Definition pidList (w : World) : option (list Z) :=
  if EnumProcesses_fails env then Some [] else pidList_loop 2 1024 (os_pids w).

Definition pidExist2 (pid : Z) (pids : list Z) : bool := existsb (Z.eqb pid) pids.

End Removal.
End Win.

(** ** The removal file that probes with [os.Process.Signal] *)

Module Posix.
Section Removal.

Context (env : Env).

(** [os.FindProcess]: always succeeds on Unix; opens the process on Windows. *)
Definition FindProcess (pid : Z) (w : World) : option error :=
  if goos_windows env then
    match procs w !! pid with
    | Some (Live true) | Some Exited => None
    | Some (Live false) => Some (errExternal KUnknown "Access is denied.")
    | None => Some (errExternal KUnknown "OpenProcess: The parameter is incorrect.")
    end
  else None.

(** [process.Signal(os.Kill)]: a live process that the daemon may signal is
    killed. *)
Definition Signal_Kill (pid : Z) : M (option error) := fun w =>
  match procs w !! pid with
  | Some (Live true) =>
      Ret None (emit (EvSignal pid SIGKILL) (set_procs (<[pid := Exited]> (procs w)) w))
  | Some (Live false) => Ret (Some (errExternal KUnknown "operation not permitted")) w
  | Some Exited =>
      if goos_windows env
      then Ret (Some (errExternal KUnknown "os: process already finished")) w
      else Ret None w
  | None => Ret (Some (errExternal KUnknown "os: process already finished")) w
  end.

Definition pidExists (pid : Z) : M bool :=
  do ferr <- (fun w => Ret (FindProcess pid w) w);
  match ferr with
  | Some _ => ret false
  | None =>
      do err <- Signal_Kill pid;
      match err with
      | Some _ => ret false
      | None => ret true
      end
  end.

Definition onlyCleanupContainer (id : string) (config : ContainerRmConfig)
  : M (option error) :=
  run setDead id;                                (* container.Dead = true *)
  do _ <- checkpointTo env id;
  do _ <- call env EnsureRemoveAll id;           (* a failure is only logged *)
  run deregister env id config;                  (* with containers.OnlyDelete *)
  run SetRemovalError id None;                   (* container.OnlySetRemovalError(nil) *)
  run log (EvStateCtrDel id);
  run log (EvLogContainerEvent id "destroy");
  ret None.

Definition ContainerRm_resolved (id name : string) (config : ContainerRmConfig)
  : M (option error) :=
  do ctr <- getC id;
  if Pid ctr =? 0 then onlyCleanupContainer id config
  else
    do dead <- (if 0 <? Pid ctr
                then do alive <- pidExists (Pid ctr); ret (negb alive)
                else ret false);
    if dead then onlyCleanupContainer id config
    else
      (* Container state RemovalInProgress should be used to avoid races. *)
      do inProgress <- SetRemovalInProgress id;
      if inProgress then ret (Some (Win.errRemovalInProgress name))
      else
        do r <-
          ((* check if container wasn't deregistered by previous rm since Get *)
           do c <- (fun w => Ret (containers_Get w id) w);
           match c with
           | None => ret None
           | Some _ =>
               if RemoveLink config then rmLink env id name
               else
                 do err <- cleanupContainer env id config;
                 run log (EvUpdateSince "delete");
                 ret err
           end);
        run ResetRemovalInProgress id;           (* defer ctr.ResetRemovalInProgress() *)
        ret r.

Definition ContainerRm (name : string) (config : ContainerRmConfig) : M (option error) :=
  do ctr <- (fun w => Ret (GetContainer w name) w);
  match ctr with
  | inl err => ret (Some err)
  | inr id => ContainerRm_resolved id name config
  end.

End Removal.
End Posix.

(** ** The entry points of kill.go and stop.go

    [ContainerKill] and [ContainerStop] call the package-level [pidExists];
    which of the two probes that is depends on the removal file the daemon is
    built with. [signal.ValidSignalForPlatform] and [runtime.GOOS] come with
    the platform. *)

Section Entry.

Context (env : Env).
Context (pidExists : Z -> M bool).
Context (ValidSignalForPlatform : Z -> bool) (GOOS : string).

Definition errUnsupportedSignal (sig : Z) : error :=
  errdefsAs KInvalidParameter
    (errNew ("the " ++ GOOS ++ " daemon does not support signal " ++ pretty sig)).

(** [ContainerKill] sends signal to the container. If no signal is given,
    then Kill with SIGKILL and wait for the container to exit. If a signal is
    given, then just send it to the container and return. *)
Definition ContainerKill (name stopSignal : string) : M (option error) :=
  match (if negb (String.eqb stopSignal "")
         then match ParseSignal env stopSignal with
              | inl err => inl (errdefsAs KInvalidParameter err)
              | inr sig =>
                  if negb (ValidSignalForPlatform sig) then inl (errUnsupportedSignal sig)
                  else inr sig
              end
         else inr SIGKILL) with
  | inl err => ret (Some err)
  | inr sig =>
      do container <- (fun w => Ret (GetContainer w name) w);
      match container with
      | inl err => ret (Some err)
      | inr id =>
          do c <- getC id;
          if negb (Running c) || (Pid c =? 0) then ret None
          else
            do alive <- pidExists (Pid c);
            if negb alive then ret None
            else if sig =? SIGKILL
                 then Kill env id        (* perform regular Kill (SIGKILL + wait()) *)
                 else killWithSignal env id sig
      end
  end.

(** [ContainerStop] looks for the given container and stops it. *)
Definition ContainerStop (ctx : Context) (name : string) (options : StopOptions)
  : M (option error) :=
  do ctr <- (fun w => Ret (GetContainer w name) w);
  match ctr with
  | inl err => ret (Some err)
  | inr id =>
      do c <- getC id;
      if negb (Running c) || (Pid c =? 0) then ret None
      else
        do alive <- pidExists (Pid c);
        if negb alive then ret None
        else
          do err <- containerStop env ctx id options;
          match err with
          | Some e =>
              ret (Some (errdefsAs KSystem (errWrapf e ("cannot stop container: " ++ name))))
          | None => ret None
          end
  end.

End Entry.

(** The probe of the [x/sys/windows] file as its callers see it: a call
    that answers and changes nothing. *)
Definition Win_pidExists (env : Env) (pid : Z) : M bool := fun w =>
  match Win.pidExists env pid w with
  | Some b => Ret b w
  | None => Blocked w                            (* the retry loop does not end *)
  end.

(** ** Observing outcomes *)

(** The world an outcome carries, or [d] when it carries none. *)
Definition world_of {A} (o : Outcome A) (d : World) : World :=
  match o with
  | Ret _ w => w
  | Blocked w => w
  | Panic => d
  end.

Definition is_Blocked {A} (o : Outcome A) : bool :=
  match o with
  | Blocked _ => true
  | _ => false
  end.

(** [container.IsRunning()] in the world an outcome carries. *)
Definition running_after {A} (o : Outcome A) (id : string) : option bool :=
  match final o with
  | Some w => Running <$> heap w !! id
  | None => None
  end.

Definition registered (w : World) (id : string) : bool := bool_decide (id ∈ containers w).

(** ** Concrete worlds, used to run the code *)

Module Sample.

Definition parse (s : string) : error + Z :=
  if String.eqb s "KILL" then inr 9
  else if String.eqb s "TERM" then inr 15
  else inl (errNew ("Invalid signal: " ++ s)).

(** Every collaborator succeeds; the exit event takes one second. *)
Definition env0 : Env :=
  mkEnv false false false parse (fun _ _ => None) (fun _ => Some Second) false.

(** Every collaborator succeeds; the exit event never comes. *)
Definition env_never : Env :=
  mkEnv false false false parse (fun _ _ => None) (fun _ => None) false.

(** The process is gone and its exit event was lost: the runtime's kill
    finds no process, the exit event never comes, and the direct kill finds
    no process either. *)
Definition env_gone : Env :=
  mkEnv false false false parse
    (fun op _ => match op with
                 | TaskKill _ => Some (errExternal KNotFound "no such process")
                 | killProcessDirectly => Some (errNoSuchProcess 4242 SIGKILL)
                 | _ => None
                 end)
    (fun _ => None) false.

Definition layer_busy : error := errExternal KSystem "layer is in use".

(** The layer service refuses to release. *)
Definition env_release_fails : Env :=
  mkEnv false false false parse
    (fun op _ => match op with
                 | ReleaseLayer => Some layer_busy
                 | _ => None
                 end)
    (fun _ => Some Second) false.

(** A running container. *)
Definition ctr0 : Container :=
  mkContainer 4242 true false false false false false false false (Some "rw-c1")
    "label" "/var/lib/docker/containers/c1" "" 15 10 None false.

Definition world0 : World :=
  mkWorld 0 0 [] {[ "c1" := ctr0 ]} {[ "c1" ]} {[ "c1" := ctr0 ]}
    {[ "/web" := "c1" ]} [] {[ 4242 := Live true ]}.

(** The same container, still recorded as running, its process gone from
    the process table. *)
Definition world_gone : World :=
  mkWorld 0 0 [] {[ "c1" := ctr0 ]} {[ "c1" ]} {[ "c1" := ctr0 ]}
    {[ "/web" := "c1" ]} [] ∅.

(** A container that was created and never started. *)
Definition ctr_created : Container :=
  mkContainer 0 false false false false false false false false (Some "rw-c1")
    "label" "/var/lib/docker/containers/c1" "" 15 10 None false.

Definition world_created : World :=
  mkWorld 0 0 [] {[ "c1" := ctr_created ]} {[ "c1" ]} {[ "c1" := ctr_created ]}
    {[ "/web" := "c1" ]} [] ∅.

(** A container under removal whose process is gone from the process table. *)
Definition ctr_removing : Container :=
  mkContainer 4242 true false false false true false false false (Some "rw-c1")
    "label" "/var/lib/docker/containers/c1" "" 15 10 None false.

Definition world_removing : World :=
  mkWorld 0 0 [] {[ "c1" := ctr_removing ]} {[ "c1" ]} {[ "c1" := ctr_removing ]}
    {[ "/web" := "c1" ]} [] ∅.

(** A container that a removal has just deregistered, still referenced. *)
Definition world_deregistered : World :=
  mkWorld 0 0 [] {[ "c1" := ctr0 ]} ∅ ∅ ∅ [] {[ 4242 := Live true ]}.

Definition force : ContainerRmConfig := mkRmConfig true false false.
Definition plain : ContainerRmConfig := mkRmConfig false false false.

(** A caller's context that is cancelled after five nanoseconds. *)
Definition cancelled_early : Context := mkContext None (Some 5).

Definition wait_for_ever : StopOptions := mkStopOptions "" (Some (-1)).
Definition three_seconds : StopOptions := mkStopOptions "" (Some 3).

End Sample.

(** The worlds some sample runs end in. *)
Module Ran.

Definition removed : World :=
  world_of (cleanupContainer Sample.env0 "c1" Sample.force Sample.world0) Sample.world0.

Definition rm_done : World :=
  world_of (Win.ContainerRm Sample.env0 "c1" Sample.force Sample.world0) Sample.world0.

Definition stopped_late : World :=
  world_of (containerStop Sample.env0 Sample.cancelled_early "c1" Sample.wait_for_ever
              Sample.world0) Sample.world0.

Definition release_refused : World :=
  world_of (cleanupContainer Sample.env_release_fails "c1" Sample.force Sample.world0)
    Sample.world0.

End Ran.

(** ** More of the code's constants and sample worlds *)

(** [waitTimeout] of [Kill]. *)
Definition waitTimeout (env : Env) : Z :=
  if goos_windows env then 75 * Second else 10 * Second.

(** What [rmLink] answers for a name directly under the root. *)
Definition errDefaultLinkName : error :=
  errNew "Conflict, cannot remove the default link name of the container".

Module More.

(** A platform that accepts every signal. *)
Definition any_signal (sig : Z) : bool := true.

(** A stop request with a signal name that does not parse. *)
Definition bogus : StopOptions := mkStopOptions "BOGUS" None.

(** The running container [c1], named [/web], linked as [/web/db] to the
    container [c2], which never started. *)
Definition world_linked : World :=
  mkWorld 0 0 [] {[ "c1" := Sample.ctr0; "c2" := Sample.ctr_created ]} {[ "c1"; "c2" ]} ∅
    {[ "/web" := "c1"; "/db" := "c2"; "/web/db" := "c2" ]} [("/web/db", "c1", "c2")]
    {[ 4242 := Live true ]}.

Definition unlinked : World :=
  world_of (rmLink Sample.env0 "c2" "/web/db" world_linked) world_linked.

(** The world a removal of the created container [c1] ends in when the layer
    service refuses. *)
Definition release_failed : World :=
  world_of (cleanupContainer Sample.env_release_fails "c1" Sample.plain Sample.world_created)
    Sample.world_created.

(** The container [c1] while it is restarting. *)
Definition ctr_restarting : Container :=
  mkContainer 4242 true false true false false false false false (Some "rw-c1")
    "label" "/var/lib/docker/containers/c1" "" 15 10 None false.

Definition world_restarting : World :=
  mkWorld 0 0 [] {[ "c1" := ctr_restarting ]} {[ "c1" ]} {[ "c1" := ctr_restarting ]}
    {[ "/web" := "c1" ]} [] {[ 4242 := Live true ]}.

Definition stopped : World :=
  world_of (containerStop Sample.env0 Background "c1" Sample.three_seconds Sample.world0)
    Sample.world0.

End More.


(** * Reasoning about runs *)

Close Scope string_scope.

(** ** Classes of events *)

(** What signal delivery ([killWithSignal]) can do. *)
Definition signalling (e : Event) : bool :=
  match e with
  | EvLock _ | EvUnlock _ | EvBlocked _ | EvGo GoWaitExit _ => true
  | EvExt (GetRunningTask | CheckpointTo | TaskKill _ | TaskResume) _ _ => true
  | EvLogContainerEvent _ a => String.eqb a "kill"
  | _ => false
  end.

(** What the body of [Kill] can do. *)
Definition killing (e : Event) : bool :=
  signalling e ||
  match e with
  | EvWait _ _ _ | EvExt killProcessDirectly _ _ => true
  | _ => false
  end.

(** What [containerStop] can do. *)
Definition stopping (e : Event) : bool :=
  killing e ||
  match e with
  | EvEnter _ _ => true
  | EvLogContainerEvent _ a => String.eqb a "stop"
  | _ => false
  end.

(** The irreversible releases: writable layer, lease, filesystem root. *)
Definition irreversible (e : Event) : bool :=
  match e with
  | EvExt (ReleaseLayer | LeaseDelete | EnsureRemoveAll) _ _ => true
  | _ => false
  end.

(** Every step of the teardown proper. *)
Definition is_teardown (e : Event) : bool :=
  irreversible e ||
  match e with
  | EvSetDead _ | EvStopCollection _ | EvReleaseLabel _ | EvStateCtrDel _
  | EvExt removeMountPoints _ _ | EvGo GoLogDestroy _ => true
  | EvLogContainerEvent _ a => String.eqb a "destroy"
  | _ => false
  end.

Definition is_Kill_entry (e : Event) : bool :=
  match e with
  | EvEnter fn _ => String.eqb fn "Kill"
  | _ => false
  end.

Fixpoint Kill_entries (evs : list Event) : nat :=
  match evs with
  | [] => 0
  | e :: rest => (if is_Kill_entry e then 1 else 0) + Kill_entries rest
  end%nat.

(** The answer of the first wait of a run, if it waits at all. *)
Fixpoint first_wait (evs : list Event) : option (option error) :=
  match evs with
  | [] => None
  | EvWait _ _ r :: _ => Some r
  | _ :: rest => first_wait rest
  end.

Definition is_expired_wait (e : Event) : bool :=
  match e with
  | EvWait _ _ (Some _) => true
  | _ => false
  end.

Fixpoint expired_waits (evs : list Event) : nat :=
  match evs with
  | [] => 0
  | e :: rest => (if is_expired_wait e then 1 else 0) + expired_waits rest
  end%nat.

(** The one release the teardown performs, with its answer. *)
Definition released (env : Env) (c : Container) (id : string) (r : option error)
  : list Event :=
  match RWLayer c with
  | Some _ => [EvExt ReleaseLayer id r]
  | None => if UsesSnapshotter env then [EvExt LeaseDelete id r] else []
  end.

Definition release_error (c : Container) (id : string) (e : error) : error :=
  match RWLayer c with
  | Some _ => errWrapf e ("container " ++ id)
  | None => e
  end.

(** The world after [container.CheckpointTo]. *)
Definition checkpointed (env : Env) (id : string) (c : Container) (w : World) : World :=
  let r := outcome env CheckpointTo (calls w) in
  let w1 := emit (EvExt CheckpointTo id r) (tick w) in
  match r with
  | None => set_containersReplica (<[id := c]> (containersReplica w1)) w1
  | Some _ => w1
  end.

(** What the preamble of [cleanupContainer] can do: kill, stop the stats
    collection, stop. *)
Definition preparing (e : Event) : bool :=
  stopping e ||
  match e with
  | EvStopCollection _ => true
  | _ => false
  end.

(** The releases of storage among the events of a run, in order. *)
Fixpoint releases (evs : list Event) : list Event :=
  match evs with
  | [] => []
  | EvExt ReleaseLayer id r :: rest => EvExt ReleaseLayer id r :: releases rest
  | EvExt LeaseDelete id r :: rest => EvExt LeaseDelete id r :: releases rest
  | _ :: rest => releases rest
  end.

(** ** Frames *)

(** What signalling, waiting and killing leave alone in a container. *)
Definition untouched (c c' : Container) : Prop :=
  RWLayer c' = RWLayer c /\ Dead c' = Dead c /\ Removed c' = Removed c /\
  removalError c' = removalError c /\ RemovalInProgress c' = RemovalInProgress c /\
  ProcessLabel c' = ProcessLabel c.

Record evolves (P : Event -> bool) (id : string) (w w' : World) : Prop := mkEvolves {
  ev_trace : exists evs, trace w' = trace w ++ evs /\ forallb P evs = true;
  ev_registry : containers w' = containers w;
  ev_heap : forall c, heap w !! id = Some c ->
            exists c', heap w' !! id = Some c' /\ untouched c c'
}.

(** The ways a run of [cleanupContainer] can go. *)
Definition cleanup_cases (env : Env) (id : string) (config : ContainerRmConfig)
    (w : World) (o : Outcome (option error)) : Prop :=
  (exists w1, evolves preparing id w w1 /\
     (o = Blocked w1 \/ exists e, o = Ret (Some e) w1)) \/
  o = Panic \/
  (exists w2, evolves preparing id w w2 /\ o = teardownContainer env id config w2).

(** A computation all of whose runs, returning or blocked, are related to
    their start by [R]. *)
Definition sound {A} (R : World -> World -> Prop) (m : M A) : Prop :=
  forall w w', final (m w) = Some w' -> R w w'.

(** What [containerStop] can do before its deferred ["stop"] event. *)
Definition escalating (e : Event) : bool := killing e || is_Kill_entry e.

(** What every function of the three files leaves to the daemon's records:
    the trace only grows; no container is registered, no name reserved, no
    object created. *)
Record advances (w w' : World) : Prop := mkAdvances {
  adv_trace : exists evs, trace w' = trace w ++ evs;
  adv_containers : containers w' ⊆ containers w;
  adv_names : names w' ⊆ names w;
  adv_heap : forall k, heap w !! k = None -> heap w' !! k = None
}.

Lemma untouched_refl c : untouched c c.
Proof. by repeat split. Qed.

Lemma untouched_trans c1 c2 c3 : untouched c1 c2 -> untouched c2 c3 -> untouched c1 c3.
Proof.
  unfold untouched. intros (?&?&?&?&?&?) (?&?&?&?&?&?).
  repeat split; congruence.
Qed.

Lemma evolves_refl P id w : evolves P id w w.
Proof.
  split; [exists []; by rewrite app_nil_r | done |].
  intros c Hc. exists c. split; [done | apply untouched_refl].
Qed.

Lemma evolves_trans P id w1 w2 w3 :
  evolves P id w1 w2 -> evolves P id w2 w3 -> evolves P id w1 w3.
Proof.
  intros [(e1 & T1 & F1) R1 H1] [(e2 & T2 & F2) R2 H2]. split.
  - exists (e1 ++ e2). rewrite T2, T1, <- app_assoc, forallb_app, F1, F2. done.
  - congruence.
  - intros c Hc. destruct (H1 c Hc) as (c2 & Hc2 & U2).
    destruct (H2 c2 Hc2) as (c3 & Hc3 & U3).
    exists c3. split; [done | by eapply untouched_trans].
Qed.

Lemma evolves_weaken (P Q : Event -> bool) id w w' :
  (forall e, P e = true -> Q e = true) -> evolves P id w w' -> evolves Q id w w'.
Proof.
  intros HPQ [(evs & T & F) R H]. split; [| done | done].
  exists evs. split; [done |].
  rewrite forallb_forall in *. auto.
Qed.

Lemma sound_ret {A} P id (a : A) : sound (evolves P id) (ret a).
Proof. intros w w' [= <-]. apply evolves_refl. Qed.

Lemma sound_bind {A B} P id (m : M A) (k : A -> M B) :
  sound (evolves P id) m -> (forall a, sound (evolves P id) (k a)) ->
  sound (evolves P id) (bind m k).
Proof.
  intros Hm Hk w w' H. unfold bind in H.
  destruct (m w) as [a w1| w1 |] eqn:E; simpl in H.
  - eapply evolves_trans; [apply Hm; by rewrite E | by eapply Hk].
  - apply Hm. by rewrite E.
  - done.
Qed.

Lemma sound_weaken {A} (P Q : Event -> bool) id (m : M A) :
  (forall e, P e = true -> Q e = true) -> sound (evolves P id) m -> sound (evolves Q id) m.
Proof. intros HPQ Hm w w' H. eapply evolves_weaken; [exact HPQ | by apply Hm]. Qed.

Lemma sound_read {A} P id (f : World -> A) : sound (evolves P id) (fun w => Ret (f w) w).
Proof. intros w w' [= <-]. apply evolves_refl. Qed.

Lemma sound_getC P id i : sound (evolves P id) (getC i).
Proof.
  intros w w' H. unfold getC in H. destruct (heap w !! i); simplify_eq/=.
  apply evolves_refl.
Qed.

Lemma sound_log P id e : P e = true -> sound (evolves P id) (log e).
Proof.
  intros HP w w' [= <-]. split; [| done |].
  - exists [e]. simpl. by rewrite HP.
  - intros c Hc. exists c. split; [done | apply untouched_refl].
Qed.

Lemma sound_call env P id op i :
  (forall r, P (EvExt op i r) = true) -> sound (evolves P id) (call env op i).
Proof.
  intros HP w w' [= <-]. split; [| done |].
  - eexists [_]. simpl. split; [done |]. by rewrite HP.
  - intros c Hc. exists c. split; [done | apply untouched_refl].
Qed.

(** An update of one object that leaves the framed fields alone. *)
Lemma sound_modC P id i f :
  (forall c, untouched c (f c)) -> sound (evolves P id) (modC i f).
Proof.
  intros Hf w w' H. unfold modC in H.
  destruct (heap w !! i) as [ci|] eqn:Hi; simplify_eq/=.
  split; [exists []; by rewrite app_nil_r | done |].
  intros c Hc. destruct (decide (i = id)) as [->|Hne].
  - simpl. rewrite lookup_insert_eq. simplify_eq. eauto.
  - simpl. rewrite lookup_insert_ne by done. exists c. split; [done | apply untouched_refl].
Qed.

Lemma sound_Lock P id i :
  P (EvLock i) = true -> P (EvBlocked i) = true -> sound (evolves P id) (Lock i).
Proof.
  intros HL HB w w' H. unfold Lock in H.
  destruct (heap w !! i) as [ci|] eqn:Hi; [| done].
  destruct (locked ci); simplify_eq/=.
  - split; [| done |].
    + eexists [_]. simpl. split; [done |]. by rewrite HB.
    + intros c Hc. exists c. split; [done | apply untouched_refl].
  - split; [| done |].
    + eexists [_]. simpl. split; [done |]. by rewrite HL.
    + intros c Hc. destruct (decide (i = id)) as [->|Hne].
      * simpl. rewrite lookup_insert_eq. simplify_eq. eexists. split; [done |]. by repeat split.
      * simpl. rewrite lookup_insert_ne by done. exists c. split; [done | apply untouched_refl].
Qed.

Lemma sound_Unlock P id i : P (EvUnlock i) = true -> sound (evolves P id) (Unlock i).
Proof.
  intros HU. unfold Unlock. apply sound_bind; [| intros _; by apply sound_log].
  apply sound_modC. intros c. by repeat split.
Qed.

Lemma sound_checkpointTo env P id i :
  (forall r, P (EvExt CheckpointTo i r) = true) -> sound (evolves P id) (checkpointTo env i).
Proof.
  intros HP. unfold checkpointTo.
  apply sound_bind; [apply sound_getC | intros c].
  apply sound_bind; [by apply sound_call | intros [e|]].
  - apply sound_ret.
  - apply sound_bind; [| intros _; apply sound_ret].
    intros w w' [= <-]. split; [exists []; by rewrite app_nil_r | done |].
    intros c0 Hc. exists c0. split; [done | apply untouched_refl].
Qed.

Lemma sound_Wait env P id ctx i :
  (forall r, P (EvWait i ctx r) = true) -> P (EvBlocked i) = true ->
  sound (evolves P id) (Wait env ctx i).
Proof.
  intros HW HB w w' H. unfold Wait in H.
  destruct (heap w !! i) as [ci|] eqn:Hi; [| done].
  assert (Hsame : forall e (w0 : World), trace w0 = trace w -> containers w0 = containers w ->
            heap w0 = heap w -> P e = true -> evolves P id w (emit e w0)).
  { intros e w0 T R Hh Pe. split; simpl; [| done |].
    - exists [e]. simpl. rewrite T, Pe. done.
    - intros c Hc. rewrite Hh. exists c. split; [done | apply untouched_refl]. }
  assert (Hexit : forall (w0 : World), trace w0 = trace w -> containers w0 = containers w ->
            heap w0 = <[i := setStopped ci]> (heap w) ->
            evolves P id w (emit (EvWait i ctx None) w0)).
  { intros w0 T R Hh. split; simpl; [| done |].
    - eexists [_]. simpl. rewrite T, HW. done.
    - intros c Hc. rewrite Hh. destruct (decide (i = id)) as [->|Hne].
      + simpl. rewrite lookup_insert_eq. simplify_eq. eexists. split; [done |]. by repeat split.
      + simpl. rewrite lookup_insert_ne by done. exists c. split; [done | apply untouched_refl]. }
  destruct (negb (Running ci)); [simplify_eq/=; by apply Hsame |].
  destruct (ctx_done ctx) as [[t e]|], (exit_delay env (calls w)) as [d|];
    repeat case_match; simplify_eq/=; (by apply Hexit) || (by apply Hsame).
Qed.

(** ** What no run does: [advances] *)

Lemma advances_refl w : advances w w.
Proof. split; [exists []; by rewrite app_nil_r | done | done | done]. Qed.

Lemma advances_trans w1 w2 w3 : advances w1 w2 -> advances w2 w3 -> advances w1 w3.
Proof.
  intros [(e1 & T1) C1 N1 H1] [(e2 & T2) C2 N2 H2]. split.
  - exists (e1 ++ e2). by rewrite T2, T1, app_assoc.
  - by etrans.
  - by etrans.
  - auto.
Qed.

Lemma advances_emit e w : advances w (emit e w).
Proof. split; [by exists [e] | done | done | done]. Qed.

Lemma advances_heap w k c x :
  heap w !! k = Some c -> advances w (set_heap (<[k := x]> (heap w)) w).
Proof.
  intros Hk. split; [exists []; by rewrite app_nil_r | done | done |].
  intros k' Hk'. simpl. rewrite lookup_insert_ne; [done | congruence].
Qed.

Lemma adv_ret {A} (a : A) : sound advances (ret a).
Proof. intros w w' [= <-]. apply advances_refl. Qed.

Lemma adv_bind {A B} (m : M A) (k : A -> M B) :
  sound advances m -> (forall a, sound advances (k a)) -> sound advances (bind m k).
Proof.
  intros Hm Hk w w' H. unfold bind in H.
  destruct (m w) as [a w1|w1|] eqn:E; [| | done].
  - eapply advances_trans; [apply Hm; by rewrite E | by eapply Hk].
  - apply Hm. by rewrite E.
Qed.

Lemma adv_read {A} (f : World -> A) : sound advances (fun w => Ret (f w) w).
Proof. intros w w' [= <-]. apply advances_refl. Qed.

Lemma adv_getC id : sound advances (getC id).
Proof. intros w w' H. unfold getC in H. case_match; simplify_eq/=. apply advances_refl. Qed.

Lemma adv_log e : sound advances (log e).
Proof. intros w w' [= <-]. apply advances_emit. Qed.

Lemma adv_call env op id : sound advances (call env op id).
Proof. intros w w' [= <-]. split; [by eexists [_] | done | done | done]. Qed.

Lemma adv_modC id f : sound advances (modC id f).
Proof.
  intros w w' H. unfold modC in H. case_match; simplify_eq/=. by eapply advances_heap.
Qed.

Lemma adv_setDead id : sound advances (setDead id).
Proof.
  intros w w' H. unfold setDead in H. case_match; simplify_eq/=.
  eapply advances_trans; [by eapply advances_heap | apply advances_emit].
Qed.

Lemma adv_Lock id : sound advances (Lock id).
Proof.
  intros w w' H. unfold Lock in H. repeat case_match; simplify_eq/=.
  - apply advances_emit.
  - eapply advances_trans; [by eapply advances_heap | apply advances_emit].
Qed.

Lemma adv_Unlock id : sound advances (Unlock id).
Proof. apply adv_bind; [apply adv_modC | intros _; apply adv_log]. Qed.

Lemma adv_set_replica r : sound advances (fun w => Ret tt (set_containersReplica (r w) w)).
Proof. intros w w' [= <-]. split; [exists []; by rewrite app_nil_r | done | done | done]. Qed.

Lemma adv_checkpointTo env id : sound advances (checkpointTo env id).
Proof.
  unfold checkpointTo. apply adv_bind; [apply adv_getC | intros c].
  apply adv_bind; [apply adv_call | intros [e|]]; [apply adv_ret |].
  apply adv_bind; [| intros _; apply adv_ret].
  apply (adv_set_replica (fun w => <[id := c]> (containersReplica w))).
Qed.

Lemma adv_Wait env ctx id : sound advances (Wait env ctx id).
Proof.
  intros w w' H. unfold Wait in H.
  destruct (heap w !! id) as [c|] eqn:Hc; [| done].
  assert (Hx : forall e t, advances w (emit e (set_heap (<[id := setStopped c]> (heap (tick w)))
                                     (set_now t (tick w))))).
  { intros e t. split; [by exists [e] | done | done |].
    intros k Hk. simpl. rewrite lookup_insert_ne; [done | congruence]. }
  assert (Hy : forall e t, advances w (emit e (set_now t (tick w)))).
  { intros e t. split; [by exists [e] | done | done | done]. }
  repeat case_match; simplify_eq/=; first [apply Hx | apply Hy | apply advances_emit].
Qed.

Lemma adv_containers_Delete id : sound advances (containers_Delete id).
Proof.
  intros w w' [= <-]. split; [exists []; by rewrite app_nil_r | | done | done].
  simpl. by intros x [? _]%elem_of_difference.
Qed.

Lemma adv_containersReplica_Delete id : sound advances (containersReplica_Delete id).
Proof. apply (adv_set_replica (fun w => delete id (containersReplica w))). Qed.

Lemma adv_releaseName n : sound advances (releaseName n).
Proof.
  intros w w' [= <-]. split; [exists []; by rewrite app_nil_r | done | | done].
  simpl. apply delete_subseteq.
Qed.

Lemma adv_releaseNames l : sound advances (releaseNames l).
Proof.
  induction l as [|n l IH]; [apply adv_ret |].
  apply adv_bind; [apply adv_releaseName | intros _; apply IH].
Qed.

Lemma adv_linkIndex_delete id : sound advances (linkIndex_delete id).
Proof. intros w w' [= <-]. split; [exists []; by rewrite app_nil_r | done | done | done]. Qed.

Lemma adv_linkIndex_unlink n c p : sound advances (linkIndex_unlink n c p).
Proof. intros w w' [= <-]. split; [exists []; by rewrite app_nil_r | done | done | done]. Qed.

Lemma adv_Panic {A} : sound advances (fun _ => @Panic A).
Proof. by intros w w' H. Qed.

Lemma adv_Signal_Kill env pid : sound advances (Posix.Signal_Kill env pid).
Proof.
  intros w w' H. unfold Posix.Signal_Kill in H.
  repeat case_match; simplify_eq/=; try apply advances_refl.
  split; [by eexists [_] | done | done | done].
Qed.

Ltac adv_go :=
  repeat first
    [ apply adv_ret
    | apply adv_getC
    | apply adv_read
    | apply adv_log
    | apply adv_call
    | apply adv_checkpointTo
    | apply adv_Lock
    | apply adv_Unlock
    | apply adv_setDead
    | apply adv_Wait
    | apply adv_modC
    | apply adv_containers_Delete
    | apply adv_containersReplica_Delete
    | apply adv_releaseName
    | apply adv_releaseNames
    | apply adv_linkIndex_delete
    | apply adv_linkIndex_unlink
    | apply adv_Signal_Kill
    | apply adv_Panic
    | assumption
    | apply adv_bind; [| intros ?]
    | match goal with
      | |- sound _ (match ?x with _ => _ end) => destruct x
      | |- sound _ (if ?b then _ else _) => destruct b
      | |- sound _ (let '(_, _) := ?x in _) => destruct x
      end ].

(** ** Summaries of kill.go and stop.go *)

Ltac sound_go :=
  repeat first
    [ apply sound_ret
    | apply sound_getC
    | apply sound_read
    | apply sound_log; reflexivity
    | apply sound_call; intros ?; reflexivity
    | apply sound_checkpointTo; intros ?; reflexivity
    | apply sound_Lock; reflexivity
    | apply sound_Unlock; reflexivity
    | apply sound_Wait; [intros ?; reflexivity | reflexivity]
    | apply sound_modC; intros ?; by repeat split
    | apply sound_bind; [| intros ?]
    | match goal with
      | |- sound _ (match ?x with _ => _ end) => destruct x
      | |- sound _ (if ?b then _ else _) => destruct b
      end ].

Lemma signalling_killing e : signalling e = true -> killing e = true.
Proof. unfold killing. by intros ->. Qed.

Lemma killing_stopping e : killing e = true -> stopping e = true.
Proof. unfold stopping. by intros ->. Qed.

Lemma killWithSignal_sound env id sig :
  sound (evolves signalling id) (killWithSignal env id sig).
Proof. unfold killWithSignal, killWithSignal_locked, ExitOnNext. sound_go. Qed.

Lemma killPossiblyDeadProcess_sound env id sig :
  sound (evolves signalling id) (killPossiblyDeadProcess env id sig).
Proof.
  unfold killPossiblyDeadProcess.
  apply sound_bind; [apply killWithSignal_sound | intros err]. sound_go.
Qed.

Lemma sound_after_log {A} (R : World -> World -> Prop) e (k : unit -> M A) w w' :
  sound R (k tt) -> final (bind (log e) k w) = Some w' -> R (emit e w) w'.
Proof. intros Hk H. apply Hk. exact H. Qed.

(** A run of [Kill] traces its entry, then only signalling, waiting and the
    direct kill. *)
Lemma Kill_trace env id w w' :
  final (Kill env id w) = Some w' ->
  evolves killing id (emit (EvEnter "Kill" id) w) w'.
Proof.
  unfold Kill. apply sound_after_log.
  apply sound_bind; [apply sound_getC | intros c].
  destruct (negb (Running c)); [apply sound_ret |].
  apply sound_bind; [| intros err].
  { eapply sound_weaken; [apply signalling_killing | apply killPossiblyDeadProcess_sound]. }
  sound_go.
Qed.

Lemma Kill_sound env id : sound (evolves stopping id) (Kill env id).
Proof.
  intros w w' H. apply Kill_trace in H.
  eapply evolves_trans; [| eapply evolves_weaken; [apply killing_stopping | exact H]].
  split; [| done |].
  - eexists [_]. by simpl.
  - intros c Hc. exists c. split; [done | apply untouched_refl].
Qed.

Lemma containerStop_sound env ctx id options :
  sound (evolves stopping id) (containerStop env ctx id options).
Proof.
  unfold containerStop.
  apply sound_bind; [apply sound_getC | intros c].
  destruct (negb (Running c)); [apply sound_ret |].
  destruct (if negb _ then _ else _) as [e|stopSig]; [apply sound_ret |].
  apply sound_bind; [| intros r; sound_go].
  apply sound_bind; [| intros err].
  { eapply sound_weaken; [| apply killPossiblyDeadProcess_sound].
    intros e He. by apply killing_stopping, signalling_killing. }
  apply sound_bind; [apply sound_read | intros t0].
  apply sound_bind; [sound_go | intros [e|]; [| apply sound_ret]].
  destruct (effectiveTimeout c options <? 0); [apply sound_ret |].
  apply sound_bind; [apply Kill_sound | intros kerr]. sound_go.
Qed.

(** No function of the three files registers a container, reserves a name or
    creates an object. *)
Lemma adv_killWithSignal env id sig : sound advances (killWithSignal env id sig).
Proof. unfold killWithSignal, killWithSignal_locked, ExitOnNext. adv_go. Qed.

Lemma adv_killPossiblyDeadProcess env id sig :
  sound advances (killPossiblyDeadProcess env id sig).
Proof.
  pose proof (adv_killWithSignal env id sig). unfold killPossiblyDeadProcess. adv_go.
Qed.

Lemma adv_Kill env id : sound advances (Kill env id).
Proof.
  pose proof (adv_killPossiblyDeadProcess env id SIGKILL). unfold Kill. adv_go.
Qed.

Lemma adv_containerStop env ctx id options : sound advances (containerStop env ctx id options).
Proof.
  pose proof (adv_Kill env id).
  unfold containerStop.
  apply adv_bind; [apply adv_getC | intros c].
  destruct (negb (Running c)); [apply adv_ret |].
  destruct (if negb _ then _ else _) as [e|stopSig]; [apply adv_ret |].
  pose proof (adv_killPossiblyDeadProcess env id stopSig).
  adv_go.
Qed.

Lemma adv_deregister env id config : sound advances (deregister env id config).
Proof. unfold deregister. adv_go. Qed.

Lemma adv_markDead env id : sound advances (markDead env id).
Proof. unfold markDead. adv_go. Qed.

Lemma adv_releaseAndRemove env id config : sound advances (releaseAndRemove env id config).
Proof.
  pose proof (adv_deregister env id config).
  unfold releaseAndRemove, SetRemovalError. adv_go.
Qed.

Lemma adv_teardownContainer env id config : sound advances (teardownContainer env id config).
Proof.
  pose proof (adv_markDead env id). pose proof (adv_releaseAndRemove env id config).
  unfold teardownContainer. adv_go.
Qed.

Lemma adv_cleanupContainer env id config : sound advances (cleanupContainer env id config).
Proof.
  pose proof (adv_Kill env id).
  pose proof (adv_containerStop env Background id (mkStopOptions "" (Some 3))).
  pose proof (adv_teardownContainer env id config).
  unfold cleanupContainer. adv_go.
Qed.

Lemma adv_rmLink env id name : sound advances (rmLink env id name).
Proof. unfold rmLink. adv_go. Qed.

Lemma adv_Win_onlyCleanupContainer env id config force :
  sound advances (Win.onlyCleanupContainer env id config force).
Proof.
  pose proof (adv_deregister env id config).
  unfold Win.onlyCleanupContainer, SetRemovalError. adv_go.
Qed.

Lemma adv_Posix_onlyCleanupContainer env id config :
  sound advances (Posix.onlyCleanupContainer env id config).
Proof.
  pose proof (adv_deregister env id config).
  unfold Posix.onlyCleanupContainer, SetRemovalError. adv_go.
Qed.

Lemma adv_Posix_pidExists env pid : sound advances (Posix.pidExists env pid).
Proof. unfold Posix.pidExists. adv_go. Qed.

Lemma adv_Win_ContainerRm_resolved env id name config :
  sound advances (Win.ContainerRm_resolved env id name config).
Proof.
  pose proof (adv_Win_onlyCleanupContainer env id config true).
  pose proof (adv_cleanupContainer env id config).
  pose proof (adv_rmLink env id name).
  unfold Win.ContainerRm_resolved, SetRemovalInProgress, ResetRemovalInProgress. adv_go.
Qed.

Lemma adv_Posix_ContainerRm_resolved env id name config :
  sound advances (Posix.ContainerRm_resolved env id name config).
Proof.
  pose proof (adv_Posix_onlyCleanupContainer env id config).
  pose proof (adv_cleanupContainer env id config).
  pose proof (adv_rmLink env id name).
  unfold Posix.ContainerRm_resolved, SetRemovalInProgress, ResetRemovalInProgress.
  apply adv_bind; [apply adv_getC | intros c].
  pose proof (adv_Posix_pidExists env (Pid c)).
  adv_go.
Qed.

(** ** Facts about waits *)

Arguments killPossiblyDeadProcess : simpl never.
Arguments Kill : simpl never.

Lemma signalling_not_expired evs :
  forallb signalling evs = true -> expired_waits evs = 0%nat.
Proof.
  induction evs as [|e evs IH]; [done |].
  simpl. intros [He Hevs]%andb_prop. rewrite IH by done.
  by destruct e.
Qed.

Lemma expired_waits_app a b :
  expired_waits (a ++ b) = (expired_waits a + expired_waits b)%nat.
Proof. induction a as [|e a IH]; simpl; [done | rewrite IH; lia]. Qed.

(** What a wait that answers has done. *)
Lemma Wait_Ret env ctx id w r w' :
  Wait env ctx id w = Ret r w' ->
  trace w' = trace w ++ [EvWait id ctx r] /\
  containers w' = containers w /\
  (r = None -> exists c', heap w' !! id = Some c' /\ Running c' = false) /\
  (forall e, r = Some e -> heap w' = heap w /\ exists t, ctx_done ctx = Some (t, e)).
Proof.
  unfold Wait. intros H.
  destruct (heap w !! id) as [c|] eqn:Hc; [| done].
  destruct (Running c) eqn:Hrun; simpl in H.
  - destruct (ctx_done ctx) as [[t e]|], (exit_delay env (calls w)) as [d|];
      repeat case_match; simplify_eq/=; split_and!; try done;
      first [ intros _; rewrite lookup_insert_eq; by eauto
            | intros ? [= <-]; by eauto ].
  - simplify_eq/=. split_and!; try done. intros _. eauto.
Qed.

Arguments Wait : simpl never.

(** ** Facts about [containerStop] *)

Lemma final_bind {A B} (m : M A) (k : A -> M B) w w' :
  final (bind m k w) = Some w' ->
  (exists a w1, m w = Ret a w1 /\ final (k a w1) = Some w') \/ m w = Blocked w'.
Proof.
  unfold bind. destruct (m w) as [a w1|w1|]; simpl; intros H; simplify_eq; eauto.
Qed.

Lemma Wait_Blocked env ctx id w w' :
  Wait env ctx id w = Blocked w' ->
  trace w' = trace w ++ [EvBlocked id] /\ ctx_done ctx = None.
Proof.
  unfold Wait. intros H. repeat case_match; simplify_eq/=. done.
Qed.

Lemma Kill_entries_app a b : Kill_entries (a ++ b) = (Kill_entries a + Kill_entries b)%nat.
Proof. induction a as [|e a IH]; simpl; [done | rewrite IH; lia]. Qed.

Lemma killing_no_Kill_entry evs : forallb killing evs = true -> Kill_entries evs = 0%nat.
Proof.
  induction evs as [|e evs IH]; [done |].
  simpl. intros [He Hevs]%andb_prop. rewrite IH by done. by destruct e.
Qed.

Lemma first_wait_signalling evs rest :
  forallb signalling evs = true -> first_wait (evs ++ rest) = first_wait rest.
Proof.
  induction evs as [|e evs IH]; [done |].
  simpl. intros [He Hevs]%andb_prop. destruct e; try done; by apply IH.
Qed.

Arguments containerStop : simpl never.



Lemma signalling_no_Kill_entry evs : forallb signalling evs = true -> Kill_entries evs = 0%nat.
Proof.
  intros H. apply killing_no_Kill_entry. rewrite forallb_forall in *.
  intros e He. by apply signalling_killing, H.
Qed.

Ltac trace_eq :=
  repeat match goal with
         | H : trace ?w = _ |- context [trace ?w] => rewrite H
         end;
  rewrite <- ?app_assoc; simpl; reflexivity.


(** Claim C4, amended: with a negative effective timeout [containerStop]
    waits without bound and never enters [Kill], and the caller's context
    plays no part: the run is the same under every caller context, no wait
    ever expires or is interrupted, and a call that returns does so with nil
    and the container not running (or with the invalid-parameter error of
    an unparseable signal, before anything is sent). *)
Theorem containerStop_negative_timeout env ctx id options w c :
  heap w !! id = Some c ->
  effectiveTimeout c options < 0 ->
  containerStop env ctx id options w = containerStop env Background id options w /\
  (forall w' evs, final (containerStop env ctx id options w) = Some w' ->
     trace w' = trace w ++ evs ->
     Kill_entries evs = 0%nat /\ expired_waits evs = 0%nat) /\
  (forall r w', containerStop env ctx id options w = Ret r w' ->
     (r = None /\ exists c', heap w' !! id = Some c' /\ Running c' = false) \/
     (exists e, r = Some (errdefsAs KInvalidParameter e))).
Proof.
  intros Hc HT. split; [done |].
  set (good := fun o : Outcome (option error) =>
    match o with
    | Ret r w' =>
        exists evs, trace w' = trace w ++ evs /\
          Kill_entries evs = 0%nat /\ expired_waits evs = 0%nat /\
          ((r = None /\ exists c', heap w' !! id = Some c' /\ Running c' = false) \/
           (exists e, r = Some (errdefsAs KInvalidParameter e)))
    | Blocked w' =>
        exists evs, trace w' = trace w ++ evs /\
          Kill_entries evs = 0%nat /\ expired_waits evs = 0%nat
    | Panic => True
    end).
  assert (Hgood : good (containerStop env ctx id options w)).
  { unfold containerStop, bind, getC, ret, log. rewrite Hc.
    destruct (negb (Running c)) eqn:Hrun.
    { exists []. rewrite app_nil_r. split_and!; try done.
      left. split; [done |]. exists c. split; [done |]. by destruct (Running c). }
    destruct (if negb _ then _ else _) as [e|stopSig].
    { exists []. rewrite app_nil_r. split_and!; try done. right. eauto. }
    assert ((0 <=? effectiveTimeout c options) = false) as -> by (apply Z.leb_gt; lia).
    assert ((effectiveTimeout c options <? 0) = true) as -> by (apply Z.ltb_lt; lia).
    destruct (killPossiblyDeadProcess env id stopSig w) as [err w1|w1|] eqn:Hk;
      [| |done].
    2:{ destruct (killPossiblyDeadProcess_sound env id stopSig w w1
          ltac:(by rewrite Hk)) as [(e1 & T1 & F1) _ _].
        exists e1. split_and!; try done.
        - by apply signalling_no_Kill_entry.
        - by apply signalling_not_expired. }
    destruct (killPossiblyDeadProcess_sound env id stopSig w w1 ltac:(by rewrite Hk))
      as [(e1 & T1 & F1) _ _].
    pose proof (signalling_no_Kill_entry _ F1) as K1.
    pose proof (signalling_not_expired _ F1) as X1.
    destruct (Wait env (WithCancel Background) id w1) as [status w2|w2|] eqn:HW;
      [| |done].
    2:{ apply Wait_Blocked in HW as [T2 _].
        eexists. split; [trace_eq |].
        rewrite Kill_entries_app, expired_waits_app, K1, X1. done. }
    apply Wait_Ret in HW as (T2 & _ & N2 & E2).
    destruct status as [e|].
    { destruct (E2 e eq_refl) as (_ & t & Hdone). done. }
    simpl. eexists. split; [trace_eq |].
    rewrite Kill_entries_app, expired_waits_app, K1, X1. split_and!; try done.
    left. split; [done |]. destruct (N2 eq_refl) as (c' & Hc' & Hr). eauto. }
  split.
  - intros w' evs Hfin Htr.
    destruct (containerStop env ctx id options w) as [r w1|w1|]; simplify_eq/=.
    + destruct Hgood as (evs' & T' & K & X & _).
      rewrite T' in Htr. apply app_inv_head in Htr. by subst.
    + destruct Hgood as (evs' & T' & K & X).
      rewrite T' in Htr. apply app_inv_head in Htr. by subst.
  - intros r w' Hret. rewrite Hret in Hgood. by destruct Hgood as (_ & _ & _ & _ & H).
Qed.

(** ** Facts about the teardown *)

Lemma releaseNames_Ret l w :
  exists w', releaseNames l w = Ret tt w' /\
    trace w' = trace w /\ heap w' = heap w /\ containers w' = containers w /\
    containersReplica w' = containersReplica w /\
    names w' = foldl (fun m n => delete n m) (names w) l.
Proof.
  revert w. induction l as [|n l IH]; intros w.
  - exists w. by split_and!.
  - destruct (IH (set_names (delete n (names w)) w)) as (w' & E & ? & ? & ? & ? & ?).
    exists w'. split_and!; try done.
Qed.

Lemma deregister_Ret env id config w c :
  heap w !! id = Some c ->
  exists w' rm, deregister env id config w = Ret tt w' /\
    trace w' = trace w ++ [EvReleaseLabel (ProcessLabel c); EvExt removeMountPoints id rm] /\
    heap w' = heap w /\ containers w' = containers w ∖ {[id]} /\
    containersReplica w' = delete id (containersReplica w).
Proof.
  intros Hc. unfold deregister, bind, getC, linkIndex_delete, log, containers_Delete,
    containersReplica_Delete, call. rewrite Hc. simpl.
  match goal with
  | |- context [releaseNames ?l ?w0] =>
      destruct (releaseNames_Ret l w0) as (w' & -> & T & H & R & P & _)
  end.
  exists w', (outcome env removeMountPoints (calls w)). split; [done |].
  rewrite T, H, R, P. simpl. rewrite <- app_assoc. done.
Qed.

Arguments deregister : simpl never.

(** ** Running the primitive steps *)

Lemma bind_assoc {A B C} (m : M A) (k1 : A -> M B) (k2 : B -> M C) w :
  bind (bind m k1) k2 w = bind m (fun a => bind (k1 a) k2) w.
Proof. unfold bind. by destruct (m w). Qed.

Lemma run_ret {A B} (a : A) (k : A -> M B) w : bind (ret a) k w = k a w.
Proof. done. Qed.

Lemma run_read {A B} (f : World -> A) (k : A -> M B) w :
  bind (fun w0 => Ret (f w0) w0) k w = k (f w) w.
Proof. done. Qed.

Lemma bind_Ret_inv {A B} (m : M A) (k : A -> M B) w b w' :
  bind m k w = Ret b w' -> exists a w1, m w = Ret a w1 /\ k a w1 = Ret b w'.
Proof. unfold bind. destruct (m w) as [a w1| |]; [eauto | done | done]. Qed.

Lemma run_log {A} e (k : unit -> M A) w : bind (log e) k w = k tt (emit e w).
Proof. done. Qed.

Lemma run_call {A} env op id (k : option error -> M A) w :
  bind (call env op id) k w =
  k (outcome env op (calls w)) (emit (EvExt op id (outcome env op (calls w))) (tick w)).
Proof. done. Qed.

Lemma run_getC {A} id (k : Container -> M A) w c :
  heap w !! id = Some c -> bind (getC id) k w = k c w.
Proof. intros H. unfold bind, getC. by rewrite H. Qed.

Lemma run_modC {A} id f (k : unit -> M A) w c :
  heap w !! id = Some c ->
  bind (modC id f) k w = k tt (set_heap (<[id := f c]> (heap w)) w).
Proof. intros H. unfold bind, modC. by rewrite H. Qed.

Lemma run_Lock {A} id (k : unit -> M A) w c :
  heap w !! id = Some c -> locked c = false ->
  bind (Lock id) k w =
  k tt (emit (EvLock id) (set_heap (<[id := set_locked true c]> (heap w)) w)).
Proof. intros H Hl. unfold bind, Lock. by rewrite H, Hl. Qed.

Lemma run_setDead {A} id (k : unit -> M A) w c :
  heap w !! id = Some c ->
  bind (setDead id) k w =
  k tt (emit (EvSetDead id) (set_heap (<[id := set_Dead true c]> (heap w)) w)).
Proof. intros H. unfold bind, setDead. by rewrite H. Qed.

Lemma run_Unlock {A} id (k : unit -> M A) w c :
  heap w !! id = Some c ->
  bind (Unlock id) k w =
  k tt (emit (EvUnlock id) (set_heap (<[id := set_locked false c]> (heap w)) w)).
Proof. intros H. unfold Unlock. rewrite bind_assoc. by erewrite run_modC. Qed.

Lemma run_checkpointTo {A} env id (k : option error -> M A) w c :
  heap w !! id = Some c ->
  bind (checkpointTo env id) k w =
  k (outcome env CheckpointTo (calls w)) (checkpointed env id c w).
Proof.
  intros H. unfold checkpointTo, checkpointed. rewrite bind_assoc.
  erewrite run_getC by done. rewrite bind_assoc, run_call.
  by destruct (outcome env CheckpointTo (calls w)).
Qed.

Lemma heap_checkpointed env id c w : heap (checkpointed env id c w) = heap w.
Proof. unfold checkpointed. by destruct (outcome env CheckpointTo (calls w)). Qed.

Lemma trace_checkpointed env id c w :
  trace (checkpointed env id c w) =
  trace w ++ [EvExt CheckpointTo id (outcome env CheckpointTo (calls w))].
Proof. unfold checkpointed. by destruct (outcome env CheckpointTo (calls w)). Qed.

Lemma containers_checkpointed env id c w :
  containers (checkpointed env id c w) = containers w.
Proof. unfold checkpointed. by destruct (outcome env CheckpointTo (calls w)). Qed.

Lemma calls_checkpointed env id c w : calls (checkpointed env id c w) = S (calls w).
Proof. unfold checkpointed. by destruct (outcome env CheckpointTo (calls w)). Qed.

Ltac wsimpl1 :=
  cbn [heap trace now calls containers containersReplica names linkIndex procs
       emit tick set_heap set_now set_containers set_containersReplica set_names
       set_linkIndex set_procs
       Pid Running Paused Restarting Dead RemovalInProgress Removed HasBeenManuallyStopped
       exitOnNext RWLayer ProcessLabel Root Config_StopSignal stopSignal stopTimeout
       removalError locked
       set_Dead set_RemovalInProgress set_HasBeenManuallyStopped set_exitOnNext set_RWLayer
       set_removalError set_locked setStopped setRemoved];
  rewrite ?heap_checkpointed, ?containers_checkpointed, ?calls_checkpointed,
    ?trace_checkpointed.

Ltac wsimpl := repeat progress wsimpl1.

Ltac wsimpl_in H :=
  repeat progress
    (cbn [heap trace now calls containers containersReplica names linkIndex procs
          emit tick set_heap set_now set_containers set_containersReplica set_names
          set_linkIndex set_procs
          Pid Running Paused Restarting Dead RemovalInProgress Removed
          HasBeenManuallyStopped exitOnNext RWLayer ProcessLabel Root Config_StopSignal
          stopSignal stopTimeout removalError locked
          set_Dead set_RemovalInProgress set_HasBeenManuallyStopped set_exitOnNext
          set_RWLayer set_removalError set_locked setStopped setRemoved] in H;
     rewrite ?heap_checkpointed, ?containers_checkpointed, ?calls_checkpointed,
       ?trace_checkpointed in H).

(** Side conditions of the stepping lemmas: a lookup of the object, a field. *)
Ltac hlook :=
  wsimpl; rewrite ?lookup_insert_eq; wsimpl; first [reflexivity | eassumption].

Ltac step :=
  first
    [ rewrite run_log
    | rewrite run_call
    | rewrite run_ret
    | erewrite run_getC by hlook
    | erewrite run_modC by hlook
    | erewrite run_setDead by hlook
    | erewrite run_Unlock by hlook
    | erewrite run_checkpointTo by hlook
    | rewrite bind_assoc ];
  cbv beta iota.

Ltac step_Lock := (erewrite run_Lock by hlook); cbv beta.

Lemma teardownContainer_shape env id config w c :
  heap w !! id = Some c -> locked c = false ->
  exists r w' ck post c',
    teardownContainer env id config w = Ret r w' /\
    trace w' = trace w ++
      [EvLock id; EvSetDead id; EvExt CheckpointTo id ck; EvUnlock id] ++ post /\
    heap w' !! id = Some c' /\ Dead c' = true /\
    ((exists e, post = released env c id (Some e) /\ post <> [] /\
                r = Some (release_error c id e) /\ removalError c' = r /\
                containers w' = containers w /\ Removed c' = Removed c) \/
     (exists e, post = released env c id None ++
                  [EvLock id; EvExt EnsureRemoveAll id (Some e); EvUnlock id] /\
                r = Some (errWrapf e ("unable to remove filesystem for " ++ id)) /\
                removalError c' = r /\
                containers w' = containers w /\ Removed c' = Removed c) \/
     (exists rm, post = released env c id None ++
                  [EvLock id; EvExt EnsureRemoveAll id None; EvUnlock id;
                   EvReleaseLabel (ProcessLabel c); EvExt removeMountPoints id rm;
                   EvStateCtrDel id; EvLogContainerEvent id "destroy"] /\
                r = None /\ removalError c' = None /\
                containers w' = containers w ∖ {[id]} /\ Removed c' = true)).
Proof.
  intros Hc Hl.
  unfold teardownContainer, markDead, releaseAndRemove, SetRemovalError, released,
    release_error.
  rewrite bind_assoc. step_Lock. repeat step. wsimpl.
  (* the root removal, once the release went through *)
  assert (Hroot : forall w1 c1 rel,
    heap w1 !! id = Some c1 -> locked c1 = false -> Dead c1 = true ->
    ProcessLabel c1 = ProcessLabel c -> Removed c1 = Removed c ->
    containers w1 = containers w ->
    trace w1 = trace w ++ [EvLock id; EvSetDead id;
                 EvExt CheckpointTo id (outcome env CheckpointTo (calls w)); EvUnlock id]
               ++ rel ->
    exists r w' post c',
      bind (Lock id) (fun _ =>
        bind (call env EnsureRemoveAll id) (fun err =>
        bind (Unlock id) (fun _ =>
        match err with
        | Some e =>
            bind (modC id (set_removalError
                    (Some (errWrapf e ("unable to remove filesystem for " ++ id)))))
              (fun _ => ret (Some (errWrapf e ("unable to remove filesystem for " ++ id))))
        | None =>
            bind (deregister env id config) (fun _ =>
            bind (modC id setRemoved) (fun _ =>
            bind (log (EvStateCtrDel id)) (fun _ =>
            bind (log (EvLogContainerEvent id "destroy")) (fun _ => ret None))))
        end))) w1 = Ret r w' /\
      trace w' = trace w ++ [EvLock id; EvSetDead id;
                   EvExt CheckpointTo id (outcome env CheckpointTo (calls w)); EvUnlock id]
                 ++ post /\
      heap w' !! id = Some c' /\ Dead c' = true /\
      ((exists e, post = rel ++
                    [EvLock id; EvExt EnsureRemoveAll id (Some e); EvUnlock id] /\
                  r = Some (errWrapf e ("unable to remove filesystem for " ++ id)) /\
                  removalError c' = r /\
                  containers w' = containers w /\ Removed c' = Removed c) \/
       (exists rm, post = rel ++
                    [EvLock id; EvExt EnsureRemoveAll id None; EvUnlock id;
                     EvReleaseLabel (ProcessLabel c); EvExt removeMountPoints id rm;
                     EvStateCtrDel id; EvLogContainerEvent id "destroy"] /\
                  r = None /\ removalError c' = None /\
                  containers w' = containers w ∖ {[id]} /\ Removed c' = true))).
  { intros w1 c1 rel H1 L1 D1 P1 R1 C1 T1.
    step_Lock. repeat step. wsimpl.
    destruct (outcome env EnsureRemoveAll (calls w1)) as [e|].
    - repeat step. eexists _, _, _, _. split; [reflexivity |].
      wsimpl. rewrite lookup_insert_eq, T1, <- !app_assoc.
      split; [reflexivity |]. split; [reflexivity |]. wsimpl.
      split; [done |]. left. exists e. by split_and!.
    - match goal with
      | |- context [bind (deregister env id config) ?k ?W] =>
          destruct (deregister_Ret env id config W _ ltac:(hlook))
            as (w2 & rm & E & T2 & H2 & C2 & _);
          unfold bind at 1; rewrite E
      end.
      wsimpl. wsimpl_in T2. wsimpl_in H2. wsimpl_in C2. rewrite P1 in T2.
      erewrite run_modC by (rewrite H2; hlook). repeat step.
      eexists _, _, _, _. split; [reflexivity |].
      wsimpl. rewrite lookup_insert_eq, T2, T1, <- !app_assoc.
      split; [reflexivity |]. split; [reflexivity |]. wsimpl.
      split; [done |]. right. exists rm. rewrite C2. wsimpl. rewrite C1. by split_and!. }
  destruct (RWLayer c) as [layer|] eqn:HRW.
  - (* a writable layer *)
    repeat step. wsimpl.
    match goal with
    | |- context [outcome env ReleaseLayer ?n] =>
        destruct (outcome env ReleaseLayer n) as [e|]
    end.
    + repeat step. eexists _, _, _, _, _. split; [reflexivity |].
      wsimpl. rewrite lookup_insert_eq, <- !app_assoc.
      split; [reflexivity |]. split; [reflexivity |]. wsimpl.
      split; [done |]. left. exists e. by split_and!.
    + repeat step.
      match goal with
      | |- context [bind (Lock id) _ ?W] =>
          edestruct (Hroot W) as (r & w' & post & c' & E & T & H & D & Hcases);
            [hlook | wsimpl; reflexivity .. | wsimpl; rewrite <- !app_assoc; reflexivity |]
      end.
      rewrite E. eexists _, _, _, _, _. split; [reflexivity |].
      split; [exact T |]. split; [exact H |]. split; [exact D |].
      right. exact Hcases.
  - destruct (UsesSnapshotter env) eqn:HS.
    + (* a lease *)
      repeat step. wsimpl.
      match goal with
      | |- context [outcome env LeaseDelete ?n] =>
          destruct (outcome env LeaseDelete n) as [e|]
      end.
      * repeat step. eexists _, _, _, _, _. split; [reflexivity |].
        wsimpl. rewrite lookup_insert_eq, <- !app_assoc.
        split; [reflexivity |]. split; [reflexivity |]. wsimpl.
        split; [done |]. left. exists e. by split_and!.
      * repeat step.
        match goal with
        | |- context [bind (Lock id) _ ?W] =>
            edestruct (Hroot W) as (r & w' & post & c' & E & T & H & D & Hcases);
              [hlook | wsimpl; reflexivity .. | wsimpl; rewrite <- !app_assoc; reflexivity |]
        end.
        rewrite E. eexists _, _, _, _, _. split; [reflexivity |].
        split; [exact T |]. split; [exact H |]. split; [exact D |].
        right. exact Hcases.
    + (* nothing to release *)
      repeat step.
      match goal with
      | |- context [bind (Lock id) _ ?W] =>
          edestruct (Hroot W) with (rel := @nil Event)
            as (r & w' & post & c' & E & T & H & D & Hcases);
            [hlook | wsimpl; reflexivity .. | wsimpl; rewrite <- !app_assoc; reflexivity |]
      end.
      rewrite E. eexists _, _, _, _, _. split; [reflexivity |].
      split; [exact T |]. split; [exact H |]. split; [exact D |].
      right. exact Hcases.
Qed.

(** The mark: with the lock free, [markDead] returns with the flag written
    to the object, and to the replica when the checkpoint went through. *)
Lemma markDead_Ret env id w c :
  heap w !! id = Some c -> locked c = false ->
  exists w1,
    markDead env id w = Ret tt w1 /\
    trace w1 = trace w ++
      [EvLock id; EvSetDead id;
       EvExt CheckpointTo id (outcome env CheckpointTo (calls w)); EvUnlock id] /\
    heap w1 = <[id := set_Dead true c]> (heap w) /\
    (outcome env CheckpointTo (calls w) = None ->
     exists s, containersReplica w1 !! id = Some s /\ Dead s = true).
Proof.
  intros Hc Hl. unfold markDead.
  assert (forall w0, Unlock id w0 = bind (Unlock id) (fun _ => ret tt) w0) as HU'.
  { intros w0. unfold bind. by destruct (Unlock id w0) as [[] ?| |]. }
  step_Lock. repeat step. rewrite HU'. step. unfold ret.
  eexists. split; [reflexivity |]. wsimpl. rewrite <- !app_assoc. simpl.
  split; [reflexivity |]. split.
  - rewrite !insert_insert_eq. f_equal. destruct c; simpl in *; by subst.
  - intros Hck. unfold checkpointed. wsimpl. rewrite Hck. wsimpl.
    rewrite lookup_insert_eq. eexists. split; [reflexivity |]. done.
Qed.

(** ** Facts about [cleanupContainer] *)

Lemma teardownContainer_locked env id config w c :
  heap w !! id = Some c -> locked c = true ->
  teardownContainer env id config w = Blocked (emit (EvBlocked id) w).
Proof.
  intros Hc Hl. unfold teardownContainer, markDead. rewrite bind_assoc.
  unfold bind at 1, Lock. by rewrite Hc, Hl.
Qed.

Lemma stopping_preparing e : stopping e = true -> preparing e = true.
Proof. unfold preparing. by intros ->. Qed.

Lemma stopping_not_teardown e : stopping e = true -> is_teardown e = false.
Proof.
  destruct e as [| | | |op ? ?| | |g ?| | |? a| | | |]; try done.
  - by destruct op.
  - by destruct g.
  - unfold stopping, killing, signalling, is_teardown, irreversible.
    destruct (String.eqb_spec a "kill") as [->|]; [done |].
    destruct (String.eqb_spec a "stop") as [->|]; done.
Qed.

Lemma preparing_not_irreversible e : preparing e = true -> irreversible e = false.
Proof. destruct e as [| | | |op ? ?| | | | | | | | | |]; try done. by destruct op. Qed.

Lemma forallb_impl {A} (P Q : A -> bool) l :
  (forall x, P x = true -> Q x = true) -> forallb P l = true -> forallb Q l = true.
Proof. intros HPQ. rewrite !forallb_forall. auto. Qed.

Arguments teardownContainer : simpl never.

(** A run of [cleanupContainer] either ends in its preamble, having done
    nothing but kill and stop, or is the teardown of the container as the
    preamble left it. *)
Lemma cleanupContainer_cases env id config w c :
  heap w !! id = Some c ->
  cleanup_cases env id config w (cleanupContainer env id config w).
Proof.
  intros Hc. unfold cleanupContainer. erewrite run_getC by done.
  assert (Hstop : forall w1, evolves preparing id w w1 ->
    cleanup_cases env id config w
      (bind (log (EvStopCollection id)) (fun _ =>
         bind (containerStop env Background id (mkStopOptions "" (Some 3))) (fun serr =>
         match serr with
         | Some e => ret (Some e)
         | None => teardownContainer env id config
         end)) w1)).
  { intros w1 E1. rewrite run_log. cbv beta.
    assert (E1' : evolves preparing id w (emit (EvStopCollection id) w1)).
    { eapply evolves_trans; [exact E1 |].
      by apply (sound_log preparing id (EvStopCollection id)). }
    unfold bind.
    destruct (containerStop env Background id _ _) as [serr w2|w2|] eqn:HS.
    - assert (E2 : evolves preparing id w w2).
      { eapply evolves_trans; [exact E1' |].
        eapply evolves_weaken; [apply stopping_preparing |].
        eapply containerStop_sound. by rewrite HS. }
      destruct serr as [e|].
      + left. exists w2. split; [done |]. right. by exists e.
      + right. right. by exists w2.
    - left. exists w2. split; [| by left].
      eapply evolves_trans; [exact E1' |].
      eapply evolves_weaken; [apply stopping_preparing |].
      eapply containerStop_sound. by rewrite HS.
    - right. by left. }
  destruct (Running c) eqn:Hrun; [| rewrite run_ret; apply Hstop, evolves_refl].
  destruct (negb (ForceRemove config)) eqn:Hforce.
  { rewrite run_ret. left. exists w. split; [apply evolves_refl |]. right. by eexists. }
  rewrite bind_assoc. unfold bind at 1.
  destruct (Kill env id w) as [kerr wk|wk|] eqn:HK.
  - assert (EK : evolves preparing id w wk).
    { eapply evolves_weaken; [apply stopping_preparing |].
      eapply Kill_sound. by rewrite HK. }
    rewrite run_ret. destruct kerr as [e|]; simpl.
    + left. exists wk. split; [done |]. right. by eexists.
    + by apply Hstop.
  - left. exists wk. split; [| by left].
    eapply evolves_weaken; [apply stopping_preparing |].
    eapply Kill_sound. by rewrite HK.
  - right. by left.
Qed.

(** Claim C1: every successful full removal ([cleanupContainer] returning
    nil) runs in three stages. The preamble (kill, stop) performs no
    irreversible release and leaves the Dead flag as it was. Then [markDead]
    takes the container's lock, writes [Dead = true] to the object, attempts
    the checkpoint (which, when it succeeds, saves the flag) and unlocks.
    Only from the world it leaves, where the flag is set, does
    [releaseAndRemove] start: every layer release, lease deletion and the
    removal of the root directory is among its events. *)
Theorem cleanupContainer_dead_before_release env id config w w' :
  cleanupContainer env id config w = Ret None w' ->
  exists w0 w1 pre ck post c1 c',
    evolves preparing id w w0 /\
    cleanupContainer env id config w = teardownContainer env id config w0 /\
    trace w0 = trace w ++ pre /\
    forallb (fun e => negb (irreversible e)) pre = true /\
    markDead env id w0 = Ret tt w1 /\
    trace w1 = trace w0 ++
      [EvLock id; EvSetDead id; EvExt CheckpointTo id ck; EvUnlock id] /\
    heap w1 !! id = Some c1 /\ Dead c1 = true /\ locked c1 = false /\
    (ck = None -> exists s, containersReplica w1 !! id = Some s /\ Dead s = true) /\
    releaseAndRemove env id config w1 = Ret None w' /\
    trace w' = trace w1 ++ post /\
    releases post ++ [EvExt EnsureRemoveAll id None] =
      filter (fun e => irreversible e = true) post /\
    heap w' !! id = Some c' /\ Dead c' = true.
Proof.
  intros H.
  destruct (heap w !! id) as [c|] eqn:Hc.
  2:{ unfold cleanupContainer, bind, getC in H. by rewrite Hc in H. }
  destruct (cleanupContainer_cases env id config w c Hc)
    as [(w1 & _ & [Heq | (e & Heq)]) | [Heq | (w2 & E2 & Heq)]];
    pose proof Heq as Hrun; rewrite Heq in H; try done.
  pose proof E2 as [(pre & T2 & F2) _ H2].
  destruct (H2 c Hc) as (c2 & Hc2 & U2).
  destruct (locked c2) eqn:Hl2.
  { by rewrite (teardownContainer_locked _ _ _ _ _ Hc2 Hl2) in H. }
  destruct (markDead_Ret env id w2 c2 Hc2 Hl2) as (w1 & Hm & T1 & H1 & R1).
  destruct (teardownContainer_shape env id config w2 c2 Hc2 Hl2)
    as (r & w'' & ck & post & c' & E & T & Hc' & D & Hcases).
  rewrite E in H. simplify_eq.
  assert (Hrr : releaseAndRemove env id config w1 = Ret None w').
  { rewrite <- E. unfold teardownContainer, bind. by rewrite Hm. }
  destruct (adv_releaseAndRemove env id config w1 w' ltac:(by rewrite Hrr))
    as [(post' & T') _ _ _].
  assert (Hpost : ck = outcome env CheckpointTo (calls w2) /\ post' = post).
  { rewrite T', T1, <- app_assoc in T. apply app_inv_head in T. simpl in T.
    by simplify_eq. }
  destruct Hpost as [-> ->].
  exists w2, w1, pre, (outcome env CheckpointTo (calls w2)), post, (set_Dead true c2), c'.
  split_and!; try done.
  - eapply forallb_impl; [| exact F2].
    intros e He. by rewrite (preparing_not_irreversible e He).
  - rewrite H1. apply lookup_insert_eq.
  - destruct Hcases as [(e & _ & _ & ? & _) | [(e & _ & ? & _) | (rm & -> & _)]];
      [done | done |].
    unfold released. by destruct (RWLayer c2), (UsesSnapshotter env).
Qed.

Lemma teardownContainer_extends env id config w w' :
  final (teardownContainer env id config w) = Some w' ->
  exists evs, trace w' = trace w ++ evs.
Proof.
  intros H. destruct (heap w !! id) as [c|] eqn:Hc.
  2:{ unfold teardownContainer, markDead in H. rewrite bind_assoc in H.
      unfold bind at 1, Lock in H. by rewrite Hc in H. }
  destruct (locked c) eqn:Hl.
  - rewrite (teardownContainer_locked _ _ _ _ _ Hc Hl) in H. simplify_eq/=. by eexists.
  - destruct (teardownContainer_shape env id config w c Hc Hl)
      as (r & w'' & ck & post & c' & E & T & _).
    rewrite E in H. simplify_eq/=. by eexists.
Qed.

Lemma evolves_extends P id w w' : evolves P id w w' -> exists evs, trace w' = trace w ++ evs.
Proof. intros [(evs & T & _) _ _]. by exists evs. Qed.

(** Claim C5: for a container that is still Running when cleanupContainer is
    entered: without the force flag, a Conflict error is returned and nothing
    at all is done; with it, Kill is invoked first, and a failure of Kill makes
    cleanupContainer return an error in the world Kill left, where no step of
    the teardown has been taken. *)
Theorem cleanupContainer_running env id config w c :
  heap w !! id = Some c -> Running c = true ->
  (ForceRemove config = false ->
     cleanupContainer env id config w = Ret (Some (errCannotRemoveRunning c id)) w /\
     exists e, errCannotRemoveRunning c id = errdefsAs KConflict e) /\
  (ForceRemove config = true ->
     (forall w', final (cleanupContainer env id config w) = Some w' ->
        exists evs, trace w' = trace w ++ EvEnter "Kill" id :: evs) /\
     (forall e wk, Kill env id w = Ret (Some e) wk ->
        cleanupContainer env id config w = Ret (Some (errCouldNotKill id e)) wk /\
        exists evs, trace wk = trace w ++ evs /\
                    forallb (fun ev => negb (is_teardown ev)) evs = true)).
Proof.
  intros Hc Hrun. unfold cleanupContainer. erewrite run_getC by done. rewrite Hrun.
  split; intros Hforce; rewrite Hforce; simpl.
  { rewrite run_ret. split; [done |]. by eexists. }
  rewrite bind_assoc. split.
  - intros w' Hfin. apply final_bind in Hfin as [(kerr & wk & HK & Hfin) | HK].
    2:{ destruct (Kill_trace env id w w' ltac:(by rewrite HK)) as [(evs & T & _) _ _].
        simpl in T. rewrite <- app_assoc in T. by exists evs. }
    destruct (Kill_trace env id w wk ltac:(by rewrite HK)) as [(evs & T & _) _ _].
    simpl in T. rewrite <- app_assoc in T. simpl in T.
    assert (exists evs', trace w' = trace wk ++ evs') as (evs' & T').
    { rewrite run_ret in Hfin. destruct kerr as [e|]; simpl in Hfin.
      { simplify_eq/=. exists []. by rewrite app_nil_r. }
      rewrite run_log in Hfin.
      apply final_bind in Hfin as [(serr & w2 & HS & Hfin) | HS].
      2:{ pose proof (containerStop_sound env Background id _ _ w' ltac:(by rewrite HS))
            as (evs2 & T2)%evolves_extends.
          eexists. rewrite T2. simpl. by rewrite <- app_assoc. }
      pose proof (containerStop_sound env Background id _ _ w2 ltac:(by rewrite HS))
        as (evs2 & T2)%evolves_extends.
      simpl in T2. destruct serr as [e|].
      { simplify_eq/=. eexists. by rewrite T2, <- app_assoc. }
      apply teardownContainer_extends in Hfin as (evs3 & T3).
      eexists. by rewrite T3, T2, <- !app_assoc. }
    eexists. rewrite T', T, <- app_assoc. simpl. reflexivity.
  - intros e wk HK. unfold bind at 1. rewrite HK. split; [done |].
    destruct (Kill_sound env id w wk ltac:(by rewrite HK)) as [(evs & T & F) _ _].
    exists evs. split; [done |]. eapply forallb_impl; [| exact F].
    intros ev Hev. by rewrite (stopping_not_teardown ev Hev).
Qed.

Lemma releases_app a b : releases (a ++ b) = releases a ++ releases b.
Proof.
  induction a as [|e a IH]; [done |].
  destruct e as [| | | |op ? ?| | | | | | | | | |]; simpl; try done.
  destruct op; simpl; by rewrite ?IH.
Qed.

Lemma preparing_no_releases evs : forallb preparing evs = true -> releases evs = [].
Proof.
  induction evs as [|e evs IH]; [done |].
  simpl. intros [He Hevs]%andb_prop.
  destruct e as [| | | |op ? ?| | | | | | | | | |]; simpl; auto.
  destruct op; simpl; auto; done.
Qed.

Lemma preparing_no_SetDead id evs : forallb preparing evs = true -> ~ In (EvSetDead id) evs.
Proof.
  rewrite forallb_forall. intros H Hin. by apply H in Hin.
Qed.

(** The release step of [cleanupContainer]. *)
Lemma cleanupContainer_release env id config w c r w' evs :
  heap w !! id = Some c ->
  cleanupContainer env id config w = Ret r w' ->
  trace w' = trace w ++ evs ->
  (In (EvSetDead id) evs -> exists a, releases evs = released env c id a) /\
  (~ In (EvSetDead id) evs -> releases evs = []) /\
  (forall op e, releases evs = [EvExt op id (Some e)] ->
     r = Some (release_error c id e) /\
     (exists c', heap w' !! id = Some c' /\ removalError c' = r /\
                 Removed c' = Removed c) /\
     containers w' = containers w /\
     exists pre, evs = pre ++ [EvExt op id (Some e)]).
Proof.
  intros Hc H Htr.
  destruct (cleanupContainer_cases env id config w c Hc)
    as [(w1 & E1 & [Heq | (e & Heq)]) | [Heq | (w2 & E2 & Heq)]];
    rewrite Heq in H; try done.
  { simplify_eq. destruct E1 as [(pre & T & F) _ _].
    rewrite T in Htr. apply app_inv_head in Htr. subst pre.
    split; [| split].
    - intros Hin. by apply preparing_no_SetDead in Hin.
    - intros _. by apply preparing_no_releases.
    - intros op e0. by rewrite preparing_no_releases. }
  destruct E2 as [(pre & T2 & F2) R2 H2].
  destruct (H2 c Hc) as (c2 & Hc2 & URW & UD & UR & UE & _).
  destruct (locked c2) eqn:Hl2.
  { by rewrite (teardownContainer_locked _ _ _ _ _ Hc2 Hl2) in H. }
  destruct (teardownContainer_shape env id config w2 c2 Hc2 Hl2)
    as (r' & w'' & ck & post & c' & E & T & Hc' & D & Hcases).
  rewrite E in H. simplify_eq.
  rewrite T, T2, <- app_assoc in Htr. apply app_inv_head in Htr. subst evs.
  assert (Hdead : In (EvSetDead id)
            (pre ++ [EvLock id; EvSetDead id; EvExt CheckpointTo id ck; EvUnlock id]
                 ++ post)).
  { rewrite !in_app_iff. simpl. tauto. }
  rewrite !releases_app, (preparing_no_releases _ F2). simpl.
  assert (Hrel : forall a, released env c2 id a = released env c id a).
  { intros a. unfold released. by rewrite URW. }
  assert (Herr : forall e, release_error c2 id e = release_error c id e).
  { intros e. unfold release_error. by rewrite URW. }
  assert (Hself : forall a, releases (released env c id a) = released env c id a).
  { intros a. unfold released. by destruct (RWLayer c), (UsesSnapshotter env). }
  destruct Hcases as [(e & -> & Hne & -> & RE & C & R) |
                      [(e & -> & -> & RE & C & R) | (rm & -> & -> & RE & C & R)]].
  - rewrite Hrel, Hself in *. split; [eauto |]. split; [done |].
    intros op e0 Heq0. assert (e0 = e) as ->.
    { revert Heq0. unfold released.
      destruct (RWLayer c), (UsesSnapshotter env); intros; by simplify_eq. }
    rewrite Herr. split; [done |]. split.
    { exists c'. rewrite Herr in RE. split_and!; [done | done | congruence]. }
    split; [congruence |].
    exists (pre ++ [EvLock id; EvSetDead id; EvExt CheckpointTo id ck; EvUnlock id]).
    rewrite <- Heq0, <- !app_assoc. done.
  - rewrite releases_app, Hrel, Hself, app_nil_r in *. split; [eauto |].
    split; [done |]. intros op e0. unfold released.
    by destruct (RWLayer c), (UsesSnapshotter env).
  - rewrite releases_app, Hrel, Hself, app_nil_r in *. split; [eauto |].
    split; [done |]. intros op e0. unfold released.
    by destruct (RWLayer c), (UsesSnapshotter env).
Qed.

(** ** Facts about the removal entry points *)

Lemma GetContainer_inr w name id :
  GetContainer w name = inr id -> id ∈ containers w /\ exists c, heap w !! id = Some c.
Proof.
  unfold GetContainer, containers_Get. intros H.
  repeat case_match; simplify_eq; rewrite ?bool_decide_eq_true in *; eauto.
Qed.

Lemma Win_onlyCleanupContainer_Ret env id config force w c :
  heap w !! id = Some c ->
  exists w' evs c',
    Win.onlyCleanupContainer env id config force w = Ret None w' /\
    trace w' = trace w ++ evs /\
    containers w' = containers w ∖ {[id]} /\
    heap w' !! id = Some c' /\ Dead c' = true /\ removalError c' = None /\
    (force = true -> releases evs = []) /\
    (force = false -> exists a, releases evs = released env c id a).
Proof.
  intros Hc. unfold Win.onlyCleanupContainer, SetRemovalError.
  repeat step. wsimpl.
  assert (Hrest : forall w1 c1 rel,
    heap w1 !! id = Some c1 -> Dead c1 = true ->
    containers w1 = containers w ->
    trace w1 = trace w ++ rel ->
    exists w' evs c',
      bind (deregister env id config) (fun _ =>
        bind (modC id (set_removalError None)) (fun _ =>
        bind (log (EvStateCtrDel id)) (fun _ =>
        bind (log (EvGo GoLogDestroy id)) (fun _ => ret (None : option error))))) w1
        = Ret None w' /\
      trace w' = trace w ++ evs /\
      containers w' = containers w ∖ {[id]} /\
      heap w' !! id = Some c' /\ Dead c' = true /\ removalError c' = None /\
      releases evs = releases rel).
  { intros w1 c1 rel H1 D1 C1 T1.
    match goal with
    | |- context [bind (deregister env id config) ?k ?W] =>
        destruct (deregister_Ret env id config W _ ltac:(hlook))
          as (w2 & rm & E & T2 & H2 & C2 & _);
        unfold bind at 1; rewrite E
    end.
    wsimpl_in T2. wsimpl_in H2. wsimpl_in C2.
    erewrite run_modC by (rewrite H2; hlook). repeat step.
    eexists _, _, _. split; [reflexivity |]. wsimpl.
    rewrite lookup_insert_eq, T2, T1, C2, C1, <- !app_assoc.
    split; [reflexivity |]. split; [done |]. split; [reflexivity |]. wsimpl.
    split; [done |]. split; [done |].
    rewrite releases_app. simpl. by rewrite app_nil_r. }
  destruct force; simpl.
  - repeat step.
    match goal with
    | |- context [bind (deregister _ _ _) _ ?W] =>
        edestruct (Hrest W) as (w' & evs & c' & E & T & C & H & D & RE & RL);
          [hlook | wsimpl; reflexivity | wsimpl; reflexivity
          | wsimpl; rewrite <- !app_assoc; reflexivity |]
    end.
    rewrite E. exists w', evs, c'. split_and!; try done.
  - repeat step. wsimpl. destruct (RWLayer c) as [layer|] eqn:HRW.
    + repeat step. wsimpl.
      match goal with
      | |- context [outcome env ReleaseLayer ?n] =>
          destruct (outcome env ReleaseLayer n) as [e|] eqn:HR
      end.
      all: repeat step.
      all: match goal with
           | |- context [bind (deregister _ _ _) _ ?W] =>
               edestruct (Hrest W) as (w' & evs & c' & E & T & C & H & D & RE & RL);
                 [hlook | wsimpl; reflexivity | wsimpl; reflexivity
                 | wsimpl; rewrite <- !app_assoc; reflexivity |]
           end.
      all: rewrite E; exists w', evs, c'; split_and!; try done.
      all: intros _; eexists; rewrite RL; unfold released; rewrite HRW; simpl; reflexivity.
    + destruct (UsesSnapshotter env) eqn:HS.
      * repeat step. wsimpl.
        match goal with
        | |- context [outcome env LeaseDelete ?n] =>
            destruct (outcome env LeaseDelete n) as [e|] eqn:HR
        end.
        all: repeat step.
        all: match goal with
             | |- context [bind (deregister _ _ _) _ ?W] =>
                 edestruct (Hrest W) as (w' & evs & c' & E & T & C & H & D & RE & RL);
                   [hlook | wsimpl; reflexivity | wsimpl; reflexivity
                   | wsimpl; rewrite <- !app_assoc; reflexivity |]
             end.
        all: rewrite E; exists w', evs, c'; split_and!; try done.
        all: intros _; eexists; rewrite RL; unfold released; rewrite HRW, HS; simpl;
          reflexivity.
      * repeat step.
        match goal with
        | |- context [bind (deregister _ _ _) _ ?W] =>
            edestruct (Hrest W) as (w' & evs & c' & E & T & C & H & D & RE & RL);
              [hlook | wsimpl; reflexivity | wsimpl; reflexivity
              | wsimpl; rewrite <- !app_assoc; reflexivity |]
        end.
        rewrite E. exists w', evs, c'. split_and!; try done.
        intros _. exists None. rewrite RL. unfold released. by rewrite HRW, HS.
Qed.

Lemma Posix_onlyCleanupContainer_Ret env id config w c :
  heap w !! id = Some c ->
  exists w' evs c',
    Posix.onlyCleanupContainer env id config w = Ret None w' /\
    trace w' = trace w ++ evs /\
    containers w' = containers w ∖ {[id]} /\
    heap w' !! id = Some c' /\ Dead c' = true /\ removalError c' = None /\
    releases evs = [].
Proof.
  intros Hc. unfold Posix.onlyCleanupContainer, SetRemovalError.
  repeat step. wsimpl.
  match goal with
  | |- context [bind (deregister _ _ _) _ ?W] =>
      destruct (deregister_Ret env id config W _ ltac:(hlook))
        as (w2 & rm & E & T2 & H2 & C2 & _);
      unfold bind at 1; rewrite E
  end.
  wsimpl_in T2. wsimpl_in H2. wsimpl_in C2.
  erewrite run_modC by (rewrite H2; hlook). repeat step.
  eexists _, _, _. split; [reflexivity |]. wsimpl.
  rewrite lookup_insert_eq, T2, C2, <- !app_assoc.
  split; [reflexivity |]. split; [done |]. split; [reflexivity |]. wsimpl.
  by split_and!.
Qed.

(** Claim C6, amended: in [cleanupContainer], exactly one of the writable
    layer (when RWLayer is non-nil) and the snapshot lease (when the backend
    uses snapshots and there is no layer) is released, once the container is
    marked dead and not before; if that release fails the error is recorded
    in the removal-error field and the cleanup stops there, the container
    still registered and not Removed.
    [onlyCleanupContainer] is different: it never stops, always deregisters
    the container and clears the removal error; in the file built on
    [x/sys/windows] it releases nothing under the force flag (as all its
    callers pass it), in the other file it has no release step at all. *)
Theorem cleanup_release_step env id config w c :
  heap w !! id = Some c ->
  (forall r w' evs,
     cleanupContainer env id config w = Ret r w' ->
     trace w' = trace w ++ evs ->
     (In (EvSetDead id) evs -> exists a, releases evs = released env c id a) /\
     (~ In (EvSetDead id) evs -> releases evs = []) /\
     (forall op e, releases evs = [EvExt op id (Some e)] ->
        r = Some (release_error c id e) /\
        (exists c', heap w' !! id = Some c' /\ removalError c' = r /\
                    Removed c' = Removed c) /\
        containers w' = containers w /\
        exists pre, evs = pre ++ [EvExt op id (Some e)])) /\
  (forall force, exists w' evs c',
     Win.onlyCleanupContainer env id config force w = Ret None w' /\
     trace w' = trace w ++ evs /\
     (id ∉ containers w') /\
     heap w' !! id = Some c' /\ removalError c' = None /\
     (force = true -> releases evs = [])) /\
  (exists w' evs c',
     Posix.onlyCleanupContainer env id config w = Ret None w' /\
     trace w' = trace w ++ evs /\
     (id ∉ containers w') /\
     heap w' !! id = Some c' /\ removalError c' = None /\
     releases evs = []).
Proof.
  intros Hc.
  assert (Hout : forall s : gset string, id ∉ s ∖ {[id]}).
  { intros s [_ Hn]%elem_of_difference. apply Hn. by apply elem_of_singleton. }
  split; [| split].
  - intros r w' evs. by apply cleanupContainer_release.
  - intros force.
    destruct (Win_onlyCleanupContainer_Ret env id config force w c Hc)
      as (w' & evs & c' & E & T & C & H & _ & RE & RL & _).
    exists w', evs, c'. rewrite C. by split_and!.
  - destruct (Posix_onlyCleanupContainer_Ret env id config w c Hc)
      as (w' & evs & c' & E & T & C & H & _ & RE & RL).
    exists w', evs, c'. rewrite C. by split_and!.
Qed.

Lemma Posix_pidExists_Ret env pid w b w' :
  Posix.pidExists env pid w = Ret b w' ->
  heap w' = heap w /\ containers w' = containers w /\ (b = false -> w' = w).
Proof.
  unfold Posix.pidExists, Posix.Signal_Kill, bind, ret. intros H.
  repeat case_match; simplify_eq/=; done.
Qed.

Lemma Win_ContainerRm_inr env name config w id :
  GetContainer w name = inr id ->
  Win.ContainerRm env name config w = Win.ContainerRm_resolved env id name config w.
Proof. intros H. unfold Win.ContainerRm, bind. by rewrite H. Qed.

Lemma Posix_ContainerRm_inr env name config w id :
  GetContainer w name = inr id ->
  Posix.ContainerRm env name config w = Posix.ContainerRm_resolved env id name config w.
Proof. intros H. unfold Posix.ContainerRm, bind. by rewrite H. Qed.

Lemma Win_ContainerRm_inl env name config w e :
  GetContainer w name = inl e -> Win.ContainerRm env name config w = Ret (Some e) w.
Proof. intros H. unfold Win.ContainerRm, bind. by rewrite H. Qed.

Lemma Posix_ContainerRm_inl env name config w e :
  GetContainer w name = inl e -> Posix.ContainerRm env name config w = Ret (Some e) w.
Proof. intros H. unfold Posix.ContainerRm, bind. by rewrite H. Qed.


Lemma set_RemovalInProgress_id c :
  RemovalInProgress c = false ->
  set_RemovalInProgress false (set_RemovalInProgress true c) = c.
Proof. destruct c; simpl. by intros ->. Qed.

(** A [cleanupContainer] that returns nil has marked the container dead and
    taken it out of the registry. *)
Lemma cleanupContainer_nil env id config w w' :
  cleanupContainer env id config w = Ret None w' ->
  (id ∉ containers w') /\
  exists evs, trace w' = trace w ++ evs /\ In (EvSetDead id) evs.
Proof.
  intros H.
  destruct (heap w !! id) as [c|] eqn:Hc.
  2:{ unfold cleanupContainer, bind, getC in H. by rewrite Hc in H. }
  destruct (cleanupContainer_cases env id config w c Hc)
    as [(w1 & _ & [Heq | (e & Heq)]) | [Heq | (w2 & E2 & Heq)]];
    rewrite Heq in H; try done.
  destruct E2 as [(pre & T2 & F2) _ H2].
  destruct (H2 c Hc) as (c2 & Hc2 & U2).
  destruct (locked c2) eqn:Hl2.
  { by rewrite (teardownContainer_locked _ _ _ _ _ Hc2 Hl2) in H. }
  destruct (teardownContainer_shape env id config w2 c2 Hc2 Hl2)
    as (r & w'' & ck & post & c' & E & T & Hc' & D & Hcases).
  rewrite E in H. simplify_eq.
  destruct Hcases as [(e & _ & _ & ? & _) | [(e & _ & ? & _) | (rm & _ & _ & _ & C & _)]];
    [done | done |].
  split.
  - rewrite C. intros [_ Hn]%elem_of_difference. apply Hn. by apply elem_of_singleton.
  - eexists. split; [by rewrite T, T2, <- app_assoc |].
    rewrite !in_app_iff. simpl. tauto.
Qed.

Lemma Win_onlyCleanupContainer_marks env id config force w r w' :
  Win.onlyCleanupContainer env id config force w = Ret r w' ->
  (id ∉ containers w') /\
  exists evs, trace w' = trace w ++ evs /\ In (EvSetDead id) evs.
Proof.
  intros H. destruct (heap w !! id) as [c|] eqn:Hc.
  2:{ unfold Win.onlyCleanupContainer in H. rewrite run_log in H.
      unfold bind at 1, setDead in H. simpl in H. by rewrite Hc in H. }
  destruct (Win_onlyCleanupContainer_Ret env id config force w c Hc)
    as (w1 & evs & c' & E & T & C & _).
  rewrite E in H. injection H as <- <-. split.
  { rewrite C. intros [_ Hn]%elem_of_difference. apply Hn. by apply elem_of_singleton. }
  exists evs. split; [done |].
  unfold Win.onlyCleanupContainer in E. rewrite run_log in E. cbv beta in E.
  erewrite run_setDead in E by hlook. cbv beta in E.
  match type of E with
  | ?m ?W = _ =>
      assert (Hs : sound advances m)
        by (pose proof (adv_deregister env id config); unfold SetRemovalError; adv_go);
      destruct (Hs W w1 ltac:(by rewrite E)) as [(evs' & T') _ _ _]
  end.
  wsimpl_in T'. rewrite T', <- !app_assoc in T. apply app_inv_head in T. subst evs.
  simpl. tauto.
Qed.

Lemma Posix_onlyCleanupContainer_marks env id config w r w' :
  Posix.onlyCleanupContainer env id config w = Ret r w' ->
  (id ∉ containers w') /\
  exists evs, trace w' = trace w ++ evs /\ In (EvSetDead id) evs.
Proof.
  intros H. destruct (heap w !! id) as [c|] eqn:Hc.
  2:{ unfold Posix.onlyCleanupContainer in H.
      unfold bind at 1, setDead in H. by rewrite Hc in H. }
  destruct (Posix_onlyCleanupContainer_Ret env id config w c Hc)
    as (w1 & evs & c' & E & T & C & _).
  rewrite E in H. injection H as <- <-. split.
  { rewrite C. intros [_ Hn]%elem_of_difference. apply Hn. by apply elem_of_singleton. }
  exists evs. split; [done |].
  unfold Posix.onlyCleanupContainer in E.
  erewrite run_setDead in E by hlook. cbv beta in E.
  match type of E with
  | ?m ?W = _ =>
      assert (Hs : sound advances m)
        by (pose proof (adv_deregister env id config); unfold SetRemovalError; adv_go);
      destruct (Hs W w1 ltac:(by rewrite E)) as [(evs' & T') _ _ _]
  end.
  wsimpl_in T'. rewrite T', <- !app_assoc in T. apply app_inv_head in T. subst evs.
  simpl. tauto.
Qed.

(** The guarded part of [ContainerRm] when it returns nil and no link is to
    be removed: either the re-check found the container deregistered and
    nothing was done, or the container was registered and has been marked
    dead and deregistered. *)
Lemma guarded_nil env id name config w c w' :
  heap w !! id = Some c -> RemoveLink config = false ->
  bind (SetRemovalInProgress id) (fun inProgress =>
    if inProgress then ret (Some (Win.errRemovalInProgress name))
    else
      bind (bind (fun w1 => Ret (containers_Get w1 id) w1) (fun c0 =>
              match c0 with
              | None => ret None
              | Some _ =>
                  if RemoveLink config then rmLink env id name
                  else bind (cleanupContainer env id config) (fun err =>
                       bind (log (EvUpdateSince "delete")) (fun _ => ret err))
              end))
        (fun r => bind (ResetRemovalInProgress id) (fun _ => ret r))) w
    = Ret None w' ->
  exists evs, trace w' = trace w ++ evs /\
    (((id ∉ containers w) /\ evs = [] /\ heap w' = heap w /\
      containers w' = containers w /\ names w' = names w) \/
     (id ∈ containers w /\ (id ∉ containers w') /\ In (EvSetDead id) evs)).
Proof.
  intros Hc Hlink. unfold SetRemovalInProgress, ResetRemovalInProgress.
  rewrite bind_assoc. erewrite run_getC by done.
  destruct (RemovalInProgress c) eqn:Hrip; [by rewrite run_ret |].
  rewrite bind_assoc. erewrite run_modC by done. rewrite run_ret. cbv beta iota.
  rewrite !bind_assoc, run_read. cbv beta.
  unfold containers_Get. wsimpl. rewrite lookup_insert_eq.
  destruct (bool_decide (id ∈ containers w)) eqn:Hreg.
  - apply bool_decide_eq_true in Hreg. rewrite Hlink.
    rewrite bind_assoc.
    intros (err & w2 & Hcl & H)%bind_Ret_inv.
    rewrite bind_assoc, run_log in H. cbv beta in H. rewrite run_ret in H.
    apply bind_Ret_inv in H as ([] & w3 & Hmod & H). injection H as -> <-.
    destruct (cleanupContainer_nil _ _ _ _ _ Hcl) as (Hout & evs & T & Hin).
    wsimpl_in T.
    unfold modC in Hmod. wsimpl_in Hmod.
    destruct (heap w2 !! id) as [c2|]; [| done]. injection Hmod as <-.
    exists (evs ++ [EvUpdateSince "delete"]). wsimpl. rewrite T, <- app_assoc.
    split; [done |]. right. split_and!; try done.
    rewrite in_app_iff. tauto.
  - apply bool_decide_eq_false in Hreg.
    rewrite run_ret. erewrite run_modC by hlook. cbv beta. unfold ret.
    intros [= <-]. exists []. wsimpl. rewrite app_nil_r. split; [done |]. left.
    split_and!; try done.
    rewrite insert_insert_eq, set_RemovalInProgress_id by done. by apply insert_id.
Qed.

(** A name that resolved to a container no longer resolves once that
    container has left the registry, unless it is reserved for another. *)
Lemma GetContainer_deregistered w w1 name id :
  GetContainer w name = inr id ->
  (forall id', names w !! name = Some id' -> id' = id) ->
  advances w w1 -> id ∉ containers w1 ->
  GetContainer w1 name = inl (containerNotFound name).
Proof.
  intros Hget Hname [_ HC HN HH] Hout.
  assert (Hid : containers_Get w1 id = None).
  { unfold containers_Get. by rewrite bool_decide_eq_false_2. }
  assert (Hnm : containers_Get w1 name = None).
  { unfold GetContainer in Hget.
    destruct (containers_Get w name) as [c0|] eqn:Hg; [by simplify_eq |].
    unfold containers_Get in *.
    destruct (bool_decide (name ∈ containers w1)) eqn:Hin1; [| done].
    apply bool_decide_eq_true in Hin1. apply HC in Hin1.
    rewrite bool_decide_eq_true_2 in Hg by done. by apply HH. }
  unfold GetContainer. rewrite Hnm.
  destruct (names w1 !! name) as [id'|] eqn:Hn; [| done].
  eapply lookup_weaken in Hn; [| exact HN].
  apply Hname in Hn as ->. by rewrite Hid.
Qed.

Lemma Posix_pidExists_frame env pid w b w' :
  Posix.pidExists env pid w = Ret b w' ->
  heap w' = heap w /\ containers w' = containers w /\ names w' = names w /\
  exists evs, trace w' = trace w ++ evs /\ forall id, ~ In (EvSetDead id) evs.
Proof.
  unfold Posix.pidExists, Posix.Signal_Kill, bind, ret. intros H.
  repeat case_match; simplify_eq/=; split_and!; try done;
    first [ exists []; rewrite app_nil_r; split; [done | by intros ? []]
          | eexists [_]; split; [reflexivity |]; intros ? [? | []]; done ].
Qed.

(** [ContainerRm], once the name has resolved, returning nil with no link to
    remove: either this call has marked the container dead and deregistered
    it, or it has done nothing to it, and then the container was not
    registered when the guard was taken. *)
Lemma ContainerRm_resolved_nil env id name config w c rm w' evs :
  rm = Win.ContainerRm_resolved env \/ rm = Posix.ContainerRm_resolved env ->
  heap w !! id = Some c -> RemoveLink config = false ->
  rm id name config w = Ret None w' -> trace w' = trace w ++ evs ->
  (In (EvSetDead id) evs /\ (id ∉ containers w')) \/
  (~ In (EvSetDead id) evs /\ (id ∉ containers w) /\ Pid c <> 0 /\
   heap w' = heap w /\ containers w' = containers w /\ names w' = names w).
Proof.
  intros Hrm Hc Hlink H Htr.
  assert (Hev : forall evs', trace w' = trace w ++ evs' -> evs' = evs).
  { intros evs' E. rewrite E in Htr. by apply app_inv_head in Htr. }
  destruct Hrm as [-> | ->].
  - unfold Win.ContainerRm_resolved in H. erewrite run_getC in H by done.
    destruct (Pid c =? 0) eqn:Hz.
    + apply bind_Ret_inv in H as (r0 & w2 & Hcl & H).
      rewrite run_log in H. injection H as <-.
      destruct (Win_onlyCleanupContainer_marks _ _ _ _ _ _ _ Hcl) as (Hout & evs2 & T & Hin).
      left. split; [| done].
      rewrite <- (Hev (evs2 ++ [EvUpdateSince "delete"]))
        by (simpl; by rewrite T, <- app_assoc).
      rewrite in_app_iff. tauto.
    + rewrite run_log in H. cbv beta in H.
      apply guarded_nil with (c := c) in H as (evs2 & T & Hcases); [| done | done].
      wsimpl_in T. rewrite <- app_assoc in T. apply Hev in T. subst evs.
      destruct Hcases as [(Hout & -> & Hh & HC & HN) | (_ & Hout & Hin)].
      * right. split_and!; try done; [| lia]. by intros [? | []].
      * left. split; [| done]. simpl. tauto.
  - unfold Posix.ContainerRm_resolved in H. erewrite run_getC in H by done.
    destruct (Pid c =? 0) eqn:Hz.
    + destruct (Posix_onlyCleanupContainer_marks _ _ _ _ _ _ H) as (Hout & evs2 & T & Hin).
      apply Hev in T. subst. by left.
    + apply bind_Ret_inv in H as (dead & w1 & Hprobe & H).
      assert (Hw1 : heap w1 = heap w /\ containers w1 = containers w /\ names w1 = names w /\
                    exists evs1, trace w1 = trace w ++ evs1 /\
                      forall i, ~ In (EvSetDead i) evs1).
      { destruct (0 <? Pid c).
        - apply bind_Ret_inv in Hprobe as (alive & w0 & Hp & Hr). injection Hr as <- <-.
          by apply Posix_pidExists_frame in Hp.
        - injection Hprobe as <- <-. split_and!; try done.
          exists []. rewrite app_nil_r. split; [done | by intros ? []]. }
      destruct Hw1 as (Hh & HC & HN & evs1 & T1 & Hno).
      destruct dead.
      * destruct (Posix_onlyCleanupContainer_marks _ _ _ _ _ _ H) as (Hout & evs2 & T & Hin).
        left. split; [| done].
        rewrite <- (Hev (evs1 ++ evs2)) by (by rewrite T, T1, <- app_assoc).
        rewrite in_app_iff. tauto.
      * apply guarded_nil with (c := c) in H as (evs2 & T & Hcases);
          [| by rewrite Hh | done].
        rewrite T1, <- app_assoc in T. apply Hev in T. subst evs.
        destruct Hcases as [(Hout & -> & Hh' & HC' & HN') | (_ & Hout & Hin)].
        -- right. rewrite app_nil_r. split_and!; try congruence; [apply Hno | lia].
        -- left. split; [| done]. rewrite in_app_iff. tauto.
Qed.

(** Claim C8, amended. Without a container that resolves, [ContainerRm]
    returns the error of the resolution. Once the name has resolved (and no
    link is to be removed), a nil return that has not marked the container
    dead, a no-op, happens only when the container is found deregistered at
    the re-check behind the guard; and there nil is what is returned, nothing
    else being done. In a run of [ContainerRm] itself the container is
    registered when it resolves, so a nil return means that this call has
    deregistered it; after that the name no longer resolves (unless it is
    also reserved for another container), and a second [ContainerRm] on it,
    from either removal file, returns the not-found error. *)
Theorem ContainerRm_deregistered env name config w :
  (forall e, GetContainer w name = inl e ->
     Win.ContainerRm env name config w = Ret (Some e) w /\
     Posix.ContainerRm env name config w = Ret (Some e) w) /\
  (forall id c rm w' evs,
     rm = Win.ContainerRm_resolved env \/ rm = Posix.ContainerRm_resolved env ->
     heap w !! id = Some c -> RemoveLink config = false ->
     rm id name config w = Ret None w' -> trace w' = trace w ++ evs ->
     ~ In (EvSetDead id) evs ->
     (id ∉ containers w) /\ Pid c <> 0 /\
     heap w' = heap w /\ containers w' = containers w /\ names w' = names w) /\
  (forall id c,
     heap w !! id = Some c -> Pid c <> 0 -> RemovalInProgress c = false ->
     id ∉ containers w ->
     (exists w', Win.ContainerRm_resolved env id name config w = Ret None w' /\
        trace w' = trace w ++ [EvRecordsContainerId id] /\
        heap w' = heap w /\ containers w' = containers w) /\
     (forall w1,
        (if 0 <? Pid c then Posix.pidExists env (Pid c) w = Ret true w1 else w1 = w) ->
        exists w', Posix.ContainerRm_resolved env id name config w = Ret None w' /\
          trace w' = trace w1 /\ heap w' = heap w /\ containers w' = containers w)) /\
  (forall id rm w1,
     rm = Win.ContainerRm env \/ rm = Posix.ContainerRm env ->
     GetContainer w name = inr id ->
     (forall id', names w !! name = Some id' -> id' = id) ->
     RemoveLink config = false ->
     rm name config w = Ret None w1 ->
     (id ∉ containers w1) /\
     GetContainer w1 name = inl (containerNotFound name) /\
     forall env' config',
       Win.ContainerRm env' name config' w1 = Ret (Some (containerNotFound name)) w1 /\
       Posix.ContainerRm env' name config' w1 = Ret (Some (containerNotFound name)) w1).
Proof.
  split; [| split; [| split]].
  { intros e He.
    by rewrite (Win_ContainerRm_inl _ _ _ _ _ He), (Posix_ContainerRm_inl _ _ _ _ _ He). }
  { intros id c rm w' evs Hrm Hc Hlink H Htr Hno.
    destruct (ContainerRm_resolved_nil env id name config w c rm w' evs Hrm Hc Hlink H Htr)
      as [[Hin _] | (_ & ?)]; [by destruct Hno | done]. }
  { intros id c Hc Hpid Hrip Hreg.
    assert ((Pid c =? 0) = false) as Hz by lia.
    assert (Hguard : forall w0, heap w0 = heap w -> containers w0 = containers w ->
      exists w', bind (SetRemovalInProgress id) (fun inProgress =>
          if inProgress then ret (Some (Win.errRemovalInProgress name))
          else
            bind (bind (fun w1 => Ret (containers_Get w1 id) w1) (fun c0 =>
                    match c0 with
                    | None => ret None
                    | Some _ =>
                        if RemoveLink config then rmLink env id name
                        else bind (cleanupContainer env id config) (fun err =>
                             bind (log (EvUpdateSince "delete")) (fun _ => ret err))
                    end))
              (fun r => bind (ResetRemovalInProgress id) (fun _ => ret r))) w0
        = Ret None w' /\
        trace w' = trace w0 /\ heap w' = heap w /\ containers w' = containers w).
    { intros w0 Hh Hr. unfold SetRemovalInProgress, ResetRemovalInProgress.
      rewrite bind_assoc. erewrite run_getC by (by rewrite Hh). rewrite Hrip.
      rewrite bind_assoc. erewrite run_modC by (by rewrite Hh).
      rewrite run_ret. cbv beta iota. rewrite !bind_assoc. unfold bind at 1.
      unfold containers_Get. wsimpl. rewrite Hr.
      rewrite bool_decide_eq_false_2 by done.
      rewrite run_ret. erewrite run_modC by hlook.
      eexists. split; [reflexivity |]. wsimpl. split_and!; try done.
      rewrite insert_insert_eq, set_RemovalInProgress_id, Hh by done.
      by apply insert_id. }
    split.
    - unfold Win.ContainerRm_resolved. erewrite run_getC by done. rewrite Hz.
      rewrite run_log. cbv beta.
      destruct (Hguard (emit (EvRecordsContainerId id) w)) as (w' & E & T & H & C);
        [done | done |].
      exists w'. by split_and!.
    - intros w1 Hprobe.
      unfold Posix.ContainerRm_resolved. erewrite run_getC by done. rewrite Hz.
      destruct (0 <? Pid c).
      + rewrite bind_assoc. unfold bind at 1. rewrite Hprobe. rewrite !run_ret. simpl.
        apply Posix_pidExists_Ret in Hprobe as (Hh & Hr & _).
        destruct (Hguard w1) as (w' & E & T & H & C); [done | done |].
        exists w'. by split_and!.
      + subst w1. rewrite run_ret. cbv iota.
        destruct (Hguard w) as (w' & E & T & H & C); [done | done |].
        exists w'. by split_and!. }
  intros id rm w1 Hrm Hget Hname Hlink H.
  destruct (GetContainer_inr _ _ _ Hget) as (Hreg & c & Hc).
  assert (Hres : exists rm', (rm' = Win.ContainerRm_resolved env \/
                              rm' = Posix.ContainerRm_resolved env) /\
                   rm' id name config w = Ret None w1 /\ advances w w1).
  { destruct Hrm as [-> | ->].
    - rewrite (Win_ContainerRm_inr _ _ _ _ _ Hget) in H.
      eexists. split; [by left |]. split; [done |].
      apply (adv_Win_ContainerRm_resolved env id name config). by rewrite H.
    - rewrite (Posix_ContainerRm_inr _ _ _ _ _ Hget) in H.
      eexists. split; [by right |]. split; [done |].
      apply (adv_Posix_ContainerRm_resolved env id name config). by rewrite H. }
  destruct Hres as (rm' & Hrm' & H' & Hadv).
  pose proof Hadv as [(evs & T) _ _ _].
  destruct (ContainerRm_resolved_nil env id name config w c rm' w1 evs Hrm' Hc Hlink H' T)
    as [[_ Hout] | (_ & Hout & _)]; [| done].
  pose proof (GetContainer_deregistered w w1 name id Hget Hname Hadv Hout) as Hnf.
  split; [done |]. split; [done |]. intros env' config'.
  by rewrite (Win_ContainerRm_inl _ _ _ _ _ Hnf), (Posix_ContainerRm_inl _ _ _ _ _ Hnf).
Qed.

(** Claim C10: [OnlyContainerRm] returns nil on every path, whatever the name,
    the configuration, the force flag and the answers of the collaborators;
    when the name does not resolve, or resolves to a live container
    ([Pid != 0]) without the force flag, it returns having done nothing. *)
Theorem OnlyContainerRm_nil env name config force w :
  exists w', Win.OnlyContainerRm env name config force w = Ret None w' /\
    (forall e, GetContainer w name = inl e -> w' = w) /\
    (forall id c, GetContainer w name = inr id -> heap w !! id = Some c ->
       Pid c <> 0 -> force = false -> w' = w).
Proof.
  unfold Win.OnlyContainerRm. unfold bind at 1.
  destruct (GetContainer w name) as [e|id] eqn:Hget.
  { exists w. by split_and!. }
  destruct (GetContainer_inr _ _ _ Hget) as (_ & c & Hc).
  destruct force.
  - destruct (Win_onlyCleanupContainer_Ret env id config true w c Hc)
      as (w' & evs & c' & E & _).
    unfold bind at 1. rewrite E. rewrite run_log. eexists. split; [reflexivity |].
    split; [done |]. by intros.
  - erewrite run_getC by done. destruct (Pid c =? 0) eqn:Hz.
    + destruct (Win_onlyCleanupContainer_Ret env id config true w c Hc)
        as (w' & evs & c' & E & _).
      unfold bind at 1. rewrite E. rewrite run_log. eexists. split; [reflexivity |].
      split; [done |]. intros id' c0 [= <-] Hc0 Hne. simplify_eq. lia.
    + exists w. by split_and!.
Qed.

(** The probe of the file that imports [x/sys/windows] is a function of the
    world: it cannot change it. When the process is gone it answers false. *)
Lemma Win_enumerate_total pids : exists l, Win.enumerate 2 1024 pids = Some l.
Proof.
  cbn [Win.enumerate].
  destruct (1024 =? 4 * Z.min (Z.of_nat (length pids)) 1024) eqn:E1; [| by eexists].
  change (Win.uint32 (1024 + 1024)) with 2048.
  destruct (2048 =? 4 * Z.min (Z.of_nat (length pids)) 2048) eqn:E2; [| by eexists].
  exfalso. apply Z.eqb_eq in E1, E2. lia.
Qed.

Lemma Win_pidExists_total env pid w : exists b, Win.pidExists env pid w = Some b.
Proof.
  unfold Win.pidExists.
  destruct (Win_enumerate_total (Win.os_pids w)) as (l & ->).
  repeat case_match; simplify_eq; eauto.
Qed.

(** What [os.Process.Signal(os.Kill)] does to a live process. *)
Lemma Posix_pidExists_live env pid w :
  procs w !! pid = Some (Live true) ->
  Posix.pidExists env pid w =
    Ret true (emit (EvSignal pid SIGKILL) (set_procs (<[pid := Exited]> (procs w)) w)).
Proof.
  intros H. unfold Posix.pidExists, Posix.FindProcess, Posix.Signal_Kill, bind, ret.
  rewrite H. destruct (goos_windows env); simpl; rewrite ?H; reflexivity.
Qed.

(** * The claims on concrete runs *)

Import Sample.

(** Claim C9 fails on the code: the probe of the file that uses
    [os.Process.Signal] delivers [os.Kill] to the process it probes. Probing
    the live process 4242 answers true and leaves the process killed. *)
Example pidExists_kills_the_probed_process :
  procs world0 !! 4242 = Some (Live true) /\
  result (Posix.pidExists env0 4242 world0) = Some true /\
  procs (world_of (Posix.pidExists env0 4242 world0) world0) !! 4242 = Some Exited /\
  trace (world_of (Posix.pidExists env0 4242 world0) world0) = [EvSignal 4242 SIGKILL] /\
  Win.pidExists env0 4242 world0 = Some true.
Proof. vm_compute. by split_and!. Qed.

(** Claim C2 as stated fails. The process of the container is gone and its
    exit event was lost: the runtime's kill finds no process (which
    [killWithSignal] takes for delivered), the wait after SIGKILL expires, the
    direct kill reports that there is no such process, and [Kill] returns nil
    while the container's state still says Running. *)
Lemma Kill_success_while_running :
  procs world_gone !! 4242 = None /\
  result (Kill env_gone "c1" world_gone) = Some None /\
  running_after (Kill env_gone "c1" world_gone) "c1" = Some true /\
  expired_waits (trace (world_of (Kill env_gone "c1" world_gone) world_gone)) = 1%nat.
Proof. vm_compute. by split_and!. Qed.

(** Claim C4 as stated fails: the caller's context is cancelled five
    nanoseconds into an unbounded stop; the wait is not interrupted (it ends
    one second later, when the container exits) and nil is returned, not the
    cancellation error. When the container never exits, the call never
    returns, cancelled or not. *)
Lemma containerStop_ignores_caller_cancellation :
  ctx_done cancelled_early = Some (5, Canceled) /\
  result (containerStop env0 cancelled_early "c1" wait_for_ever world0) = Some None /\
  now (world_of (containerStop env0 cancelled_early "c1" wait_for_ever world0) world0)
    = Second /\
  is_Blocked (containerStop env_never cancelled_early "c1" wait_for_ever world0) = true.
Proof. vm_compute. by split_and!. Qed.

(** Claim C6 as stated fails on [onlyCleanupContainer]. Removing a container
    that never started goes through it with the force flag: the writable
    layer is there and is never released. Without the flag, a release that
    fails does not stop it: the container is deregistered all the same and
    the recorded error is cleared at the end. *)
Lemma onlyCleanupContainer_release_not_fatal :
  (RWLayer ctr_created = Some "rw-c1" /\
   result (Win.ContainerRm env0 "c1" plain world_created) = Some None /\
   releases (trace (world_of (Win.ContainerRm env0 "c1" plain world_created) world0)) = [] /\
   registered (world_of (Win.ContainerRm env0 "c1" plain world_created) world0) "c1"
     = false) /\
  (result (Win.onlyCleanupContainer env_release_fails "c1" plain false world_created)
     = Some None /\
   releases (trace (world_of
      (Win.onlyCleanupContainer env_release_fails "c1" plain false world_created) world0))
     = [EvExt ReleaseLayer "c1" (Some layer_busy)] /\
   registered (world_of
      (Win.onlyCleanupContainer env_release_fails "c1" plain false world_created) world0)
      "c1" = false /\
   removalError <$> heap (world_of
      (Win.onlyCleanupContainer env_release_fails "c1" plain false world_created) world0)
      !! "c1" = Some None).
Proof. vm_compute. by split_and!. Qed.


(** Claim C8 as stated fails: a forced removal of a running container
    completes and deregisters it; removing it a second time, by identifier
    or by name, returns the not-found error of the resolution. *)
Lemma ContainerRm_twice_is_not_found :
  result (Win.ContainerRm env0 "c1" force world0) = Some None /\
  registered (world_of (Win.ContainerRm env0 "c1" force world0) world0) "c1" = false /\
  result (Win.ContainerRm env0 "c1" force
            (world_of (Win.ContainerRm env0 "c1" force world0) world0))
    = Some (Some (containerNotFound "c1")) /\
  result (Win.ContainerRm env0 "/web" force
            (world_of (Win.ContainerRm env0 "c1" force world0) world0))
    = Some (Some (containerNotFound "/web")) /\
  result (Posix.ContainerRm env0 "c1" force
            (world_of (Posix.ContainerRm env0 "c1" force world0) world0))
    = Some (Some (containerNotFound "c1")).
Proof. vm_compute. by split_and!. Qed.

(** ** The theorems applied to concrete runs *)

(** A forced removal of the running container [c1], every collaborator
    succeeding. *)
Lemma cleanupContainer_dead_before_release_witness :
  cleanupContainer env0 "c1" force world0 = Ret None Ran.removed /\
  exists w0 w1 pre ck post c1 c',
    evolves preparing "c1" world0 w0 /\
    cleanupContainer env0 "c1" force world0 = teardownContainer env0 "c1" force w0 /\
    trace w0 = trace world0 ++ pre /\
    forallb (fun e => negb (irreversible e)) pre = true /\
    markDead env0 "c1" w0 = Ret tt w1 /\
    trace w1 = trace w0 ++
      [EvLock "c1"; EvSetDead "c1"; EvExt CheckpointTo "c1" ck; EvUnlock "c1"] /\
    heap w1 !! "c1" = Some c1 /\ Dead c1 = true /\ locked c1 = false /\
    (ck = None -> exists s, containersReplica w1 !! "c1" = Some s /\ Dead s = true) /\
    releaseAndRemove env0 "c1" force w1 = Ret None Ran.removed /\
    trace Ran.removed = trace w1 ++ post /\
    releases post ++ [EvExt EnsureRemoveAll "c1" None] =
      filter (fun e => irreversible e = true) post /\
    heap Ran.removed !! "c1" = Some c' /\ Dead c' = true.
Proof.
  assert (H : cleanupContainer env0 "c1" force world0 = Ret None Ran.removed)
    by (vm_compute; reflexivity).
  split; [exact H |].
  exact (cleanupContainer_dead_before_release env0 "c1" force world0 Ran.removed H).
Defined.

(** A forced removal of the running container [c1] through [ContainerRm],
    then a second one; and the re-check behind the guard on a container that
    a removal has deregistered in between. *)
Lemma ContainerRm_deregistered_witness :
  (GetContainer world0 "c1" = inr "c1" /\
   Win.ContainerRm env0 "c1" force world0 = Ret None Ran.rm_done /\
   ("c1" ∉ containers Ran.rm_done) /\
   GetContainer Ran.rm_done "c1" = inl (containerNotFound "c1") /\
   forall env' config',
     Win.ContainerRm env' "c1" config' Ran.rm_done =
       Ret (Some (containerNotFound "c1")) Ran.rm_done /\
     Posix.ContainerRm env' "c1" config' Ran.rm_done =
       Ret (Some (containerNotFound "c1")) Ran.rm_done) /\
  (heap world_deregistered !! "c1" = Some ctr0 /\
   ("c1" ∉ containers world_deregistered) /\
   exists w',
     Win.ContainerRm_resolved env0 "c1" "c1" plain world_deregistered = Ret None w' /\
     trace w' = trace world_deregistered ++ [EvRecordsContainerId "c1"] /\
     heap w' = heap world_deregistered /\
     containers w' = containers world_deregistered).
Proof.
  assert (Hg : GetContainer world0 "c1" = inr "c1") by (vm_compute; reflexivity).
  assert (Hrun : Win.ContainerRm env0 "c1" force world0 = Ret None Ran.rm_done)
    by (vm_compute; reflexivity).
  assert (Hname : forall id', names world0 !! "c1" = Some id' -> id' = "c1"%string).
  { intros id' H. vm_compute in H. discriminate H. }
  assert (Hc : heap world_deregistered !! "c1" = Some ctr0) by (vm_compute; reflexivity).
  assert (Hout : "c1" ∉ containers world_deregistered) by apply not_elem_of_empty.
  split.
  - split; [exact Hg |]. split; [exact Hrun |].
    exact (proj2 (proj2 (proj2 (ContainerRm_deregistered env0 "c1" force world0)))
             "c1" (Win.ContainerRm env0) Ran.rm_done (or_introl eq_refl) Hg Hname eq_refl
             Hrun).
  - split; [exact Hc |]. split; [exact Hout |].
    refine (proj1 (proj1 (proj2 (proj2 (ContainerRm_deregistered env0 "c1" plain
                                          world_deregistered)))
                     "c1" ctr0 Hc _ eq_refl Hout)).
    discriminate.
Defined.

(** An unbounded stop of a container that exits after a second. *)
Lemma containerStop_negative_timeout_witness :
  heap world0 !! "c1" = Some ctr0 /\
  effectiveTimeout ctr0 wait_for_ever < 0 /\
  containerStop env0 cancelled_early "c1" wait_for_ever world0 =
    containerStop env0 Background "c1" wait_for_ever world0 /\
  Kill_entries (trace Ran.stopped_late) = 0%nat /\ expired_waits (trace Ran.stopped_late) = 0%nat.
Proof.
  assert (Hc : heap world0 !! "c1" = Some ctr0) by (vm_compute; reflexivity).
  assert (HT : effectiveTimeout ctr0 wait_for_ever < 0) by (vm_compute; reflexivity).
  destruct (containerStop_negative_timeout env0 cancelled_early "c1" wait_for_ever
              world0 ctr0 Hc HT) as (Heq & Hquiet & _).
  split; [exact Hc |]. split; [exact HT |]. split; [exact Heq |].
  apply (Hquiet Ran.stopped_late (trace Ran.stopped_late)); vm_compute; reflexivity.
Defined.

(** Removing the running container [c1]: without force, and with force while
    nothing makes it exit. *)
Lemma cleanupContainer_running_witness :
  heap world0 !! "c1" = Some ctr0 /\ Running ctr0 = true /\
  cleanupContainer env0 "c1" plain world0 =
    Ret (Some (errCannotRemoveRunning ctr0 "c1")) world0 /\
  cleanupContainer env_never "c1" force world0 =
    Ret (Some (errCouldNotKill "c1" errNoExitEvent))
        (world_of (Kill env_never "c1" world0) world0).
Proof.
  assert (Hc : heap world0 !! "c1" = Some ctr0) by (vm_compute; reflexivity).
  destruct (cleanupContainer_running env0 "c1" plain world0 ctr0 Hc eq_refl)
    as [Hplain _].
  destruct (cleanupContainer_running env_never "c1" force world0 ctr0 Hc eq_refl)
    as [_ Hforce].
  split; [exact Hc |]. split; [reflexivity |].
  split; [exact (proj1 (Hplain eq_refl)) |].
  apply (proj2 (Hforce eq_refl) errNoExitEvent). vm_compute. reflexivity.
Defined.

(** The layer service refuses: a forced removal of [c1] stops at the release. *)
Lemma cleanup_release_step_witness :
  heap world0 !! "c1" = Some ctr0 /\
  releases (trace Ran.release_refused) = [EvExt ReleaseLayer "c1" (Some layer_busy)] /\
  cleanupContainer env_release_fails "c1" force world0 =
    Ret (Some (release_error ctr0 "c1" layer_busy)) Ran.release_refused /\
  containers Ran.release_refused = containers world0.
Proof.
  assert (Hc : heap world0 !! "c1" = Some ctr0) by (vm_compute; reflexivity).
  assert (Hr : releases (trace Ran.release_refused) = [EvExt ReleaseLayer "c1" (Some layer_busy)])
    by (vm_compute; reflexivity).
  assert (Hrun : cleanupContainer env_release_fails "c1" force world0 =
                 Ret (Some (errWrapf layer_busy "container c1")) Ran.release_refused)
    by (vm_compute; reflexivity).
  destruct (proj2 (proj2 (proj1 (cleanup_release_step env_release_fails "c1" force world0
                                   ctr0 Hc)
                            _ Ran.release_refused (trace Ran.release_refused) Hrun eq_refl))
              ReleaseLayer layer_busy Hr)
    as (_ & _ & Hreg & _).
  split; [exact Hc |]. split; [exact Hr |]. split; [exact Hrun | exact Hreg].
Defined.


(** * Further properties of the code *)

(** ** Running a program to its end *)

Lemma checkpointed_frame env id c w :
  now (checkpointed env id c w) = now w /\ names (checkpointed env id c w) = names w /\
  linkIndex (checkpointed env id c w) = linkIndex w /\
  procs (checkpointed env id c w) = procs w.
Proof. unfold checkpointed. by destruct (outcome env CheckpointTo (calls w)). Qed.

(** Branch on the first closed scrutinee of the program being run. *)
Ltac branch :=
  wsimpl;
  match goal with
  | |- context [bind (match ?x with _ => _ end) _ _] => destruct x eqn:?
  | |- context [bind (if ?x then _ else _) _ _] => destruct x eqn:?
  | |- context [(match ?x with _ => _ end) ?w = Ret _ _] => destruct x eqn:?
  | |- context [(if ?x then _ else _) ?w = Ret _ _] => destruct x eqn:?
  end.

Ltac run_all := repeat first [step | branch].

Ltac frame_checkpointed :=
  repeat match goal with
         | |- context [checkpointed ?env ?id ?c ?w] =>
             let H := fresh in
             pose proof (checkpointed_frame env id c w) as H;
             destruct H as (-> & -> & -> & ->)
         end.

(** Membership in the events of a run. *)
Ltac in_solve :=
  repeat (progress (repeat match goal with
         | H : In _ (_ ++ _) |- _ => apply in_app_or in H; destruct H
         | H : In _ (_ :: _) |- _ => destruct H
         | H : In _ [] |- _ => destruct H
         | H : _ = _ \/ _ |- _ => destruct H
         | H : False |- _ => destruct H
         | H : exists _, _ |- _ => destruct H
         | H : _ /\ _ |- _ => destruct H
         end; simplify_eq/=)).

Ltac in_intro := repeat (simpl; rewrite ?in_app_iff); simpl; tauto.

Ltac ev_absurd :=
  in_solve; try done;
  repeat match goal with
         | Hck : (forall e, In e ?ck -> exists res, e = EvExt CheckpointTo _ res),
           Hin : In _ ?ck |- _ => apply Hck in Hin as (? & ?); simplify_eq
         | Hrs : (forall e, In e ?rs -> _ /\ exists res, e = EvExt TaskResume _ res),
           Hin : In _ ?rs |- _ => apply Hrs in Hin as (? & ? & ?); simplify_eq
         end; try done.

(** ** Signal delivery: [killWithSignal] and [killPossiblyDeadProcess] *)

(** Every run of [killWithSignal] that finds the lock free: what it returns,
    what it traces between taking and releasing the lock, and what it leaves
    in the container. [a] says whether the container was told to exit on its
    next event. *)
Lemma killWithSignal_shape env id sig w c :
  heap w !! id = Some c -> locked c = false ->
  exists r w' c' mid,
    killWithSignal env id sig w = Ret r w' /\
    ((exists e, outcome env GetRunningTask (calls w) = Some e /\
        mid = [EvExt GetRunningTask id (Some e)] /\ r = Some e /\ c' = c) \/
     (exists e, ParseSignal env (Config_StopSignal c) = inl e /\
        negb (String.eqb (Config_StopSignal c) "") && negb (sig =? SIGKILL) = true /\
        mid = [EvExt GetRunningTask id None] /\ r = Some e /\ c' = c) \/
     (exists a ck tail,
        (negb (String.eqb (Config_StopSignal c) "") && negb (sig =? SIGKILL) = false /\
         a = true \/
         negb (String.eqb (Config_StopSignal c) "") && negb (sig =? SIGKILL) = true /\
         exists s0, ParseSignal env (Config_StopSignal c) = inr s0 /\ a = (s0 =? sig)) /\
        c' = set_HasBeenManuallyStopped
               (if IsShuttingDown env then HasBeenManuallyStopped c else true)
               (set_exitOnNext (if a then true else exitOnNext c) c) /\
        mid = EvExt GetRunningTask id None :: ck ++ tail /\
        (if IsShuttingDown env then ck = []
         else exists res, ck = [EvExt CheckpointTo id res]) /\
        ((Restarting c = true /\ tail = [] /\ r = None) \/
         (exists e, Restarting c = false /\ IsNotFound e = true /\
            tail = [EvExt (TaskKill sig) id (Some e); EvGo GoWaitExit id;
                    EvLogContainerEvent id "kill"] /\ r = None) \/
         (exists e, Restarting c = false /\ IsNotFound e = false /\
            tail = [EvExt (TaskKill sig) id (Some e)] /\
            r = Some (errWrapf e ("Cannot kill container " ++ id))) \/
         (exists rs, Restarting c = false /\
            tail = EvExt (TaskKill sig) id None :: rs ++ [EvLogContainerEvent id "kill"] /\
            (if a && Paused c then exists res, rs = [EvExt TaskResume id res]
             else rs = []) /\
            r = None)))) /\
    trace w' = trace w ++ EvLock id :: mid ++ [EvUnlock id] /\
    heap w' = <[id := c']> (heap w) /\
    now w' = now w /\ containers w' = containers w /\ names w' = names w /\
    linkIndex w' = linkIndex w /\ procs w' = procs w.
Proof.
  intros Hc Hl. unfold killWithSignal.
  step_Lock. unfold killWithSignal_locked, ExitOnNext.
  destruct (IsShuttingDown env) eqn:Hsd; cbn [negb].
  all: run_all.
  all: eexists _, _, _, _; (split; [reflexivity |]).
  all: wsimpl; rewrite ?insert_insert_eq; frame_checkpointed; wsimpl.
  all: split;
    [ first
        [ left; eexists; split_and!; reflexivity
        | right; left; eexists; split_and!; first [eassumption | reflexivity]
        | right; right; eexists _, _, _; split_and!;
          [ first [ left; split; [first [eassumption | reflexivity] | reflexivity]
                  | right; split; [first [eassumption | reflexivity] |
                      eexists; split; [first [eassumption | reflexivity]
                                      | symmetry; eassumption]] ]
          | reflexivity
          | reflexivity
          | first [reflexivity | eexists; reflexivity]
          | first
              [ left; split_and!; reflexivity
              | right; left; eexists; split_and!; first [eassumption | reflexivity]
              | right; right; left; eexists; split_and!; first [eassumption | reflexivity]
              | right; right; right; eexists; split_and!;
                [ reflexivity | reflexivity
                | first [ reflexivity | eexists; reflexivity ]
                | reflexivity ] ] ] ]
    | split_and!; try reflexivity ].
  all: first
    [ rewrite <- ?app_assoc; simpl; reflexivity
    | f_equal; destruct c; simpl in *; subst; reflexivity ].
Qed.

Arguments killWithSignal : simpl never.

Lemma killWithSignal_keeps env id sig w c r w' c' :
  heap w !! id = Some c -> locked c = false ->
  killWithSignal env id sig w = Ret r w' -> heap w' = <[id := c']> (heap w) ->
  locked c' = false /\ Running c' = Running c /\ Pid c' = Pid c.
Proof.
  intros Hc Hl Hk Hh.
  destruct (killWithSignal_shape env id sig w c Hc Hl)
    as (r1 & w1 & c1 & mid & Hk1 & Hcases & _ & H1 & _).
  rewrite Hk in Hk1. injection Hk1 as <- <-.
  assert (c' = c1) as ->.
  { assert (heap w' !! id = Some c') as X by (rewrite Hh; apply lookup_insert_eq).
    rewrite H1, lookup_insert_eq in X. congruence. }
  destruct Hcases as [(e & _ & _ & _ & ->) | [(e & _ & _ & _ & _ & ->) |
    (a & ck & tail & _ & -> & _)]]; by destruct c; simpl in *.
Qed.

(** [killPossiblyDeadProcess] after [killWithSignal]: the same run, a
    not-found error replaced. *)
Lemma killPossiblyDeadProcess_after env id sig w c r w' c' :
  heap w !! id = Some c ->
  killWithSignal env id sig w = Ret r w' -> heap w' = <[id := c']> (heap w) ->
  killPossiblyDeadProcess env id sig w =
    Ret (if IsNotFound_opt r then Some (errNoSuchProcess (Pid c') sig) else r) w'.
Proof.
  intros Hc Hk Hh. unfold killPossiblyDeadProcess. unfold bind at 1. rewrite Hk.
  destruct (IsNotFound_opt r); [| done].
  erewrite run_getC; [done |]. rewrite Hh. by rewrite lookup_insert_eq.
Qed.

Lemma ck_events env id (ck : list Event) :
  (if IsShuttingDown env then ck = [] else exists res, ck = [EvExt CheckpointTo id res]) ->
  forall e, In e ck -> exists res, e = EvExt CheckpointTo id res.
Proof.
  destruct (IsShuttingDown env); [intros ->; by intros ? [] |].
  intros (res & ->) e0 [<- | []]. eauto.
Qed.

Lemma rs_events id (b : bool) (rs : list Event) :
  (if b then exists res, rs = [EvExt TaskResume id res] else rs = []) ->
  forall e, In e rs -> b = true /\ exists res, e = EvExt TaskResume id res.
Proof.
  destruct b; [| intros ->; by intros ? []].
  intros (res & ->) e0 [<- | []]. eauto.
Qed.

(** With the container's lock free, [killWithSignal] always returns. It holds
    the lock from its first event to its last and nowhere in between, and
    changes nothing in the daemon's own records but two flags of the
    container: manually-stopped and exit-on-next. The registry, the names and
    the links are as before. *)
Theorem killWithSignal_frame env id sig w c :
  heap w !! id = Some c -> locked c = false ->
  exists r w' mid c',
    killWithSignal env id sig w = Ret r w' /\
    trace w' = trace w ++ EvLock id :: mid ++ [EvUnlock id] /\
    (forall i, ~ In (EvLock i) mid /\ ~ In (EvUnlock i) mid /\ ~ In (EvBlocked i) mid) /\
    heap w' = <[id := c']> (heap w) /\
    c' = set_HasBeenManuallyStopped (HasBeenManuallyStopped c')
           (set_exitOnNext (exitOnNext c') c) /\
    containers w' = containers w /\ names w' = names w /\
    linkIndex w' = linkIndex w.
Proof.
  intros Hc Hl.
  destruct (killWithSignal_shape env id sig w c Hc Hl)
    as (r & w' & c' & mid & Hk & Hcases & T & H & N & C & Nm & L & P).
  exists r, w', mid, c'. split_and!; try done.
  - intros i.
    destruct Hcases as [(e & _ & -> & _) | [(e & _ & _ & -> & _) |
      (a & ck & tail & _ & _ & -> & Hck & Htail)]].
    + split_and!; intros X; in_solve.
    + split_and!; intros X; in_solve.
    + pose proof (ck_events _ _ _ Hck) as Hck'.
      destruct Htail as [(_ & -> & _) | [(e & _ & _ & -> & _) | [(e & _ & _ & -> & _) |
          (rs & _ & -> & Hrs & _)]]];
        try pose proof (rs_events _ _ _ Hrs) as Hrs';
        split_and!; intros X; ev_absurd.
  - destruct Hcases as [(e & _ & _ & _ & ->) | [(e & _ & _ & _ & _ & ->) |
      (a & ck & tail & _ & -> & _)]]; by destruct c.
Qed.

(** Unless the daemon is shutting down, every run of [killWithSignal] that
    returns nil or that reaches the runtime's kill has marked the container as
    manually stopped and attempted a checkpoint before any kill is sent; the
    mark stays when the kill itself then fails. While the daemon is shutting
    down the mark is left as it is and no checkpoint is attempted. *)
Theorem killWithSignal_manual_stop env id sig w c :
  heap w !! id = Some c -> locked c = false ->
  exists r w' c' evs,
    killWithSignal env id sig w = Ret r w' /\ trace w' = trace w ++ evs /\
    heap w' !! id = Some c' /\
    (IsShuttingDown env = true ->
       HasBeenManuallyStopped c' = HasBeenManuallyStopped c /\
       forall res, ~ In (EvExt CheckpointTo id res) evs) /\
    (IsShuttingDown env = false ->
       r = None \/ (exists res, In (EvExt (TaskKill sig) id res) evs) ->
       HasBeenManuallyStopped c' = true /\
       exists pre ck post, evs = pre ++ EvExt CheckpointTo id ck :: post /\
         forall s res, ~ In (EvExt (TaskKill s) id res) pre).
Proof.
  intros Hc Hl.
  destruct (killWithSignal_shape env id sig w c Hc Hl)
    as (r & w' & c' & mid & Hk & Hcases & T & H & _).
  exists r, w', c', (EvLock id :: mid ++ [EvUnlock id]).
  split_and!; try done; [by rewrite H, lookup_insert_eq | |].
  - intros Hsd. rewrite Hsd in Hcases.
    destruct Hcases as [(e & _ & -> & _ & ->) | [(e & _ & _ & -> & _ & ->) |
      (a & ck & tail & _ & -> & -> & -> & Htail)]].
    + split; [done |]. intros res X. in_solve.
    + split; [done |]. intros res X. in_solve.
    + split; [done |]. intros res X.
      destruct Htail as [(_ & -> & _) | [(e & _ & _ & -> & _) | [(e & _ & _ & -> & _) |
          (rs & _ & -> & Hrs & _)]]]; in_solve.
      destruct (a && Paused c); in_solve.
  - intros Hsd Hreach. rewrite Hsd in Hcases.
    destruct Hcases as [(e & _ & -> & -> & ->) | [(e & _ & _ & -> & -> & ->) |
      (a & ck & tail & _ & -> & -> & (res & ->) & Htail)]].
    + destruct Hreach as [? | (res & X)]; [done |]. in_solve.
    + destruct Hreach as [? | (res & X)]; [done |]. in_solve.
    + split; [done |].
      exists [EvLock id; EvExt GetRunningTask id None], res, (tail ++ [EvUnlock id]).
      split; [done |]. intros s r0 X. in_solve.
Qed.

(** A restarting container is never sent the signal: [killWithSignal] calls
    neither the runtime's kill nor its resume and logs no event, and it fails
    only with the error of the task lookup or of parsing the container's
    configured stop signal. *)
Theorem killWithSignal_restarting env id sig w c :
  heap w !! id = Some c -> locked c = false -> Restarting c = true ->
  exists r w' evs,
    killWithSignal env id sig w = Ret r w' /\ trace w' = trace w ++ evs /\
    (forall s res, ~ In (EvExt (TaskKill s) id res) evs) /\
    (forall res, ~ In (EvExt TaskResume id res) evs) /\
    (forall i a, ~ In (EvLogContainerEvent i a) evs) /\
    (forall e, r = Some e ->
       outcome env GetRunningTask (calls w) = Some e \/
       ParseSignal env (Config_StopSignal c) = inl e).
Proof.
  intros Hc Hl Hre.
  destruct (killWithSignal_shape env id sig w c Hc Hl)
    as (r & w' & c' & mid & Hk & Hcases & T & H & _).
  exists r, w', (EvLock id :: mid ++ [EvUnlock id]).
  split; [done |]. split; [done |].
  destruct Hcases as [(e & Hg & -> & -> & ->) | [(e & Hp & _ & -> & -> & ->) |
      (a & ck & tail & _ & -> & -> & Hck & Htail)]].
  - split_and!; [intros ? ? X; in_solve | intros ? X; in_solve
                | intros ? ? X; in_solve | intros ? [= <-]; by left].
  - split_and!; [intros ? ? X; in_solve | intros ? X; in_solve
                | intros ? ? X; in_solve | intros ? [= <-]; by right].
  - pose proof (ck_events _ _ _ Hck) as Hck'.
    destruct Htail as [(_ & -> & ->) | [(e & ? & _) | [(e & ? & _) | (rs & ? & _)]]];
      [| congruence ..].
    split_and!; [intros ? ? X; ev_absurd | intros ? X; ev_absurd
                | intros ? ? X; ev_absurd | done].
Qed.

(** When the container is told to exit on its next event. With [SIGKILL], or
    with no stop signal configured, it always is (once the task is found), and
    the configured signal is never parsed, so the only possible failure is
    that of the kill. With another signal it is told so exactly when the
    signal is the configured stop signal; a configured signal that does not
    parse fails the call before anything is changed or sent. The task is
    resumed only for a paused container, after a kill that succeeded. *)
Theorem killWithSignal_arms_exit env id sig w c :
  heap w !! id = Some c -> locked c = false ->
  outcome env GetRunningTask (calls w) = None ->
  exists r w' c' evs,
    killWithSignal env id sig w = Ret r w' /\ trace w' = trace w ++ evs /\
    heap w' !! id = Some c' /\
    (sig = SIGKILL \/ Config_StopSignal c = ""%string ->
       exitOnNext c' = true /\
       forall e, r = Some e -> exists ke, In (EvExt (TaskKill sig) id (Some ke)) evs) /\
    (sig <> SIGKILL -> Config_StopSignal c <> ""%string ->
       match ParseSignal env (Config_StopSignal c) with
       | inl e => r = Some e /\ c' = c /\ forall s res, ~ In (EvExt (TaskKill s) id res) evs
       | inr s0 =>
           exitOnNext c' = (if s0 =? sig then true else exitOnNext c) /\
           (s0 <> sig -> forall res, ~ In (EvExt TaskResume id res) evs)
       end) /\
    (forall res, In (EvExt TaskResume id res) evs ->
       Paused c = true /\ In (EvExt (TaskKill sig) id None) evs).
Proof.
  intros Hc Hl Hg.
  destruct (killWithSignal_shape env id sig w c Hc Hl)
    as (r & w' & c' & mid & Hk & Hcases & T & H & _).
  exists r, w', c', (EvLock id :: mid ++ [EvUnlock id]).
  split_and!; try done; [by rewrite H , lookup_insert_eq | | |].
  - intros Hor.
    assert (negb (String.eqb (Config_StopSignal c) "") && negb (sig =? SIGKILL) = false)
      as Hcond.
    { destruct Hor as [-> | ->]; [apply andb_false_r | done]. }
    destruct Hcases as [(e & ? & _) | [(e & _ & ? & _) |
      (a & ck & tail & [[_ ->] | [? _]] & -> & -> & Hck & Htail)]]; try congruence.
    split; [done |]. intros e ->.
    destruct Htail as [(_ & _ & ?) | [(e0 & _ & _ & _ & ?) | [(e0 & _ & _ & -> & _) |
          (rs & _ & _ & _ & ?)]]]; try done.
    exists e0. in_intro.
  - intros Hsig Hcfg.
    assert (negb (String.eqb (Config_StopSignal c) "") && negb (sig =? SIGKILL) = true)
      as Hcond.
    { apply andb_true_intro. split; apply negb_true_iff.
      - by apply String.eqb_neq.
      - lia. }
    destruct Hcases as [(e & ? & _) | [(e & -> & _ & -> & -> & ->) |
      (a & ck & tail & [[? _] | [_ (s0 & -> & ->)]] & -> & -> & Hck & Htail)]];
      try congruence.
    + split_and!; try done. intros s res X. in_solve.
    + split; [done |]. intros Hne res X.
      assert ((s0 =? sig) = false) as Hneq by lia.
      rewrite Hneq in Htail.
      pose proof (ck_events _ _ _ Hck) as Hck'.
      destruct Htail as [(_ & -> & _) | [(e0 & _ & _ & -> & _) | [(e0 & _ & _ & -> & _) |
          (rs & _ & -> & -> & _)]]]; ev_absurd.
  - intros res X.
    destruct Hcases as [(e & _ & -> & _) | [(e & _ & _ & -> & _) |
      (a & ck & tail & _ & _ & -> & Hck & Htail)]]; [in_solve | in_solve |].
    pose proof (ck_events _ _ _ Hck) as Hck'.
    destruct Htail as [(_ & -> & _) | [(e0 & _ & _ & -> & _) | [(e0 & _ & _ & -> & _) |
          (rs & _ & -> & Hrs & _)]]].
    1-3: ev_absurd.
    pose proof (rs_events _ _ _ Hrs) as Hrs'.
    assert (a && Paused c = true) as [_ Hp]%andb_prop.
    { destruct X as [X | X]; [done |].
      apply in_app_or in X as [X | [X | []]]; [| done].
      destruct X as [X | X]; [done |].
      apply in_app_or in X as [X | X]; [apply Hck' in X as (? & ?); done |].
      destruct X as [X | X]; [done |].
      apply in_app_or in X as [X | [X | []]]; [| done].
      by apply Hrs' in X as [? _]. }
    split; [done |]. in_intro.
Qed.

(** The errors of [killPossiblyDeadProcess]. A not-found answer of the
    runtime's kill never comes back as an error: nil is returned, the wait for
    the exit event is left to a goroutine, and the task is not resumed. Every
    other failure of the kill comes back wrapped as "Cannot kill container".
    A not-found error that does come back (from the task lookup) is always
    [errNoSuchProcess] with the container's pid and the signal, and then
    nothing was sent. *)
Theorem killPossiblyDeadProcess_errors env id sig w c :
  heap w !! id = Some c -> locked c = false ->
  exists r w' evs,
    killPossiblyDeadProcess env id sig w = Ret r w' /\ trace w' = trace w ++ evs /\
    (forall e, r = Some e -> IsNotFound e = true ->
       e = errNoSuchProcess (Pid c) sig /\
       forall s res, ~ In (EvExt (TaskKill s) id res) evs) /\
    (forall ke, In (EvExt (TaskKill sig) id (Some ke)) evs ->
       if IsNotFound ke
       then r = None /\ In (EvGo GoWaitExit id) evs /\
            forall res, ~ In (EvExt TaskResume id res) evs
       else r = Some (errWrapf ke ("Cannot kill container " ++ id))).
Proof.
  intros Hc Hl.
  destruct (killWithSignal_shape env id sig w c Hc Hl)
    as (r & w' & c' & mid & Hk & Hcases & T & H & _).
  destruct (killWithSignal_keeps _ _ _ _ _ _ _ _ Hc Hl Hk H) as (_ & _ & Hpid).
  eexists _, w', (EvLock id :: mid ++ [EvUnlock id]).
  split; [by eapply killPossiblyDeadProcess_after |]. split; [done |].
  rewrite Hpid.
  destruct Hcases as [(e & _ & -> & -> & _) | [(e & _ & _ & -> & -> & _) |
      (a & ck & tail & _ & _ & -> & Hck & Htail)]].
  - split; [| intros ke X; in_solve].
    simpl. destruct (IsNotFound e) eqn:He; intros e0 [= <-] He0; [| congruence].
    split; [done |]. intros s res X. in_solve.
  - split; [| intros ke X; in_solve].
    simpl. destruct (IsNotFound e) eqn:He; intros e0 [= <-] He0; [| congruence].
    split; [done |]. intros s res X. in_solve.
  - pose proof (ck_events _ _ _ Hck) as Hck'.
    destruct Htail as [(_ & -> & ->) | [(e0 & _ & He0 & -> & ->) |
      [(e0 & _ & He0 & -> & ->) | (rs & _ & -> & Hrs & ->)]]]; simpl.
    + split; [done |]. intros ke X. ev_absurd.
    + split; [done |]. intros ke X.
      assert (ke = e0) as -> by ev_absurd.
      rewrite He0. split_and!; [done | in_intro |].
      intros res Y. ev_absurd.
    + rewrite He0. split; [intros e [= <-]; simpl; congruence |].
      intros ke X.
      assert (ke = e0) as -> by ev_absurd.
      by rewrite He0.
    + split; [done |]. intros ke X.
      pose proof (rs_events _ _ _ Hrs) as Hrs'.
      ev_absurd.
Qed.

(** ** The time [Kill] and [containerStop] take *)

(** A wait under a deadline always answers, no later than the deadline. *)
Lemma Wait_deadline env id w c t0 d :
  heap w !! id = Some c ->
  exists r w' c',
    Wait env (WithTimeout Background t0 d) id w = Ret r w' /\
    trace w' = trace w ++ [EvWait id (WithTimeout Background t0 d) r] /\
    heap w' = <[id := c']> (heap w) /\ locked c' = locked c /\
    (r = None -> Running c' = false) /\
    (forall e, r = Some e -> c' = c /\ Running c = true /\ e = DeadlineExceeded) /\
    now w <= now w' <= Z.max (now w) (t0 + d) /\
    containers w' = containers w /\ procs w' = procs w.
Proof.
  intros Hc. unfold Wait. rewrite Hc.
  destruct (Running c) eqn:Hrun; simpl.
  - destruct (exit_delay env (calls w)) as [dl|].
    + destruct (now w + Z.max 0 dl <? t0 + d) eqn:Hlt.
      * apply Z.ltb_lt in Hlt.
        eexists _, _, _. split; [reflexivity |]. simpl.
        split_and!; try done; lia.
      * eexists _, _, c. split; [reflexivity |]. simpl.
        split_and!; try done; try lia; [by rewrite insert_id | by intros ? [= <-]].
    + eexists _, _, c. split; [reflexivity |]. simpl.
      split_and!; try done; try lia; [by rewrite insert_id | by intros ? [= <-]].
  - eexists _, _, c. split; [reflexivity |]. simpl.
    split_and!; try done; try lia. by rewrite insert_id.
Qed.

Lemma waitTimeout_pos env : 0 < waitTimeout env.
Proof. unfold waitTimeout, Second. destruct (goos_windows env); lia. Qed.

Lemma Second_pos : 0 < Second.
Proof. unfold Second. lia. Qed.

(** [Kill] with the lock free: it returns, and its two waits bound the time
    it takes. *)
Lemma Kill_bounded env id w c :
  heap w !! id = Some c -> locked c = false ->
  exists r w' c',
    Kill env id w = Ret r w' /\
    heap w' = <[id := c']> (heap w) /\ locked c' = false /\
    now w <= now w' <= now w + waitTimeout env + 2 * Second /\
    containers w' = containers w /\ procs w' = procs w /\
    (Running c = false -> r = Some (errNotRunning id) /\ now w' = now w).
Proof.
  intros Hc Hl. unfold Kill. step. step. wsimpl.
  pose proof (waitTimeout_pos env) as Hpos. pose proof Second_pos as Hsec.
  destruct (Running c) eqn:Hrun; simpl.
  2:{ eexists _, _, c. split; [reflexivity |]. simpl.
      split_and!; try done; try lia. by rewrite insert_id. }
  destruct (killWithSignal_shape env id SIGKILL (emit (EvEnter "Kill" id) w) c Hc Hl)
    as (r1 & w1 & c1 & mid & Hk & _ & T1 & H1 & N1 & C1 & _ & _ & P1).
  destruct (killWithSignal_keeps env id SIGKILL (emit (EvEnter "Kill" id) w) c r1 w1 c1
              Hc Hl Hk H1) as (Hl1 & Hr1 & _).
  unfold bind at 1.
  erewrite killPossiblyDeadProcess_after by done.
  set (r1' := if IsNotFound_opt r1 then _ else _). clearbody r1'.
  assert (Hc1 : heap w1 !! id = Some c1) by (rewrite H1; apply lookup_insert_eq).
  simpl in H1, N1, C1, P1.
  destruct (match r1' with Some e => As_errNoSuchProcess e | None => false end).
  { eexists _, _, c1. split; [reflexivity |].
    split_and!; try done; try congruence; try lia. }
  rewrite run_read. cbv beta.
  fold (waitTimeout env).
  destruct (Wait_deadline env id w1 c1 (now w1) (waitTimeout env) Hc1)
    as (r2 & w2 & c2 & HW & T2 & H2 & L2 & Rn2 & Re2 & N2 & C2 & P2).
  unfold bind at 1. rewrite HW.
  assert (Hc2 : heap w2 !! id = Some c2) by (rewrite H2; apply lookup_insert_eq).
  assert (Hh2 : heap w2 = <[id := c2]> (heap w)).
  { rewrite H2, H1. by rewrite insert_insert_eq. }
  destruct r2 as [e2|].
  2:{ eexists _, _, c2. split; [reflexivity |].
      split_and!; try done; try congruence; try lia. }
  step. wsimpl.
  destruct (outcome env killProcessDirectly (calls w2)) as [e|].
  { destruct (As_errNoSuchProcess e);
      (eexists _, _, c2; split; [reflexivity |]);
      split_and!; wsimpl; try done; try congruence; try lia. }
  rewrite run_read. cbv beta.
  set (w3 := emit _ (tick w2)).
  assert (Hc3 : heap w3 !! id = Some c2) by done.
  destruct (Wait_deadline env id w3 c2 (now w3) (2 * Second) Hc3)
    as (r4 & w4 & c4 & HW4 & T4 & H4 & L4 & Rn4 & Re4 & N4 & C4 & P4).
  unfold bind at 1. rewrite HW4.
  assert (Hh4 : heap w4 = <[id := c4]> (heap w)).
  { rewrite H4. subst w3. simpl. rewrite Hh2. by rewrite insert_insert_eq. }
  subst w3. simpl in *.
  destruct r4; (eexists _, _, c4; split; [reflexivity |]);
    split_and!; try done; try congruence; try lia.
Qed.

(** [containerStop] with the lock free and a timeout that is not negative:
    it returns, and its waits and those of [Kill] bound the time it takes. *)
Lemma containerStop_bounded env ctx id options w c :
  heap w !! id = Some c -> locked c = false -> 0 <= effectiveTimeout c options ->
  exists r w' c',
    containerStop env ctx id options w = Ret r w' /\
    heap w' = <[id := c']> (heap w) /\ locked c' = false /\
    now w <= now w' <= now w + Z.max (seconds (effectiveTimeout c options)) (2 * Second)
                         + waitTimeout env + 4 * Second /\
    containers w' = containers w /\ procs w' = procs w.
Proof.
  intros Hc Hl HT. unfold containerStop. step.
  pose proof (waitTimeout_pos env) as Hpos. pose proof Second_pos as Hsec.
  destruct (Running c) eqn:Hrun; simpl.
  2:{ eexists _, _, c. split; [reflexivity |].
      split_and!; try done; try lia. by rewrite insert_id. }
  destruct (if negb _ then _ else _) as [e|stopSig].
  { eexists _, _, c. split; [reflexivity |].
    split_and!; try done; try lia. by rewrite insert_id. }
  assert ((0 <=? effectiveTimeout c options) = true) as -> by lia.
  assert ((effectiveTimeout c options <? 0) = false) as -> by lia.
  set (T := seconds (effectiveTimeout c options)).
  destruct (killWithSignal_shape env id stopSig w c Hc Hl)
    as (r1 & w1 & c1 & mid & Hk & _ & T1 & H1 & N1 & C1 & _ & _ & P1).
  destruct (killWithSignal_keeps _ _ _ _ _ _ _ _ Hc Hl Hk H1) as (Hl1 & Hr1 & _).
  rewrite !bind_assoc. unfold bind at 1.
  erewrite killPossiblyDeadProcess_after by done.
  set (r1' := if IsNotFound_opt r1 then _ else _). clearbody r1'.
  assert (Hc1 : heap w1 !! id = Some c1) by (rewrite H1; apply lookup_insert_eq).
  rewrite bind_assoc, run_read. cbv beta. rewrite bind_assoc.
  set (wait := match r1' with Some _ => 2 * Second | None => T end).
  assert (wait <= Z.max T (2 * Second)) as Hwait by (subst wait; destruct r1'; lia).
  destruct (Wait_deadline env id w1 c1 (now w1) wait Hc1)
    as (r2 & w2 & c2 & HW & T2 & H2 & L2 & Rn2 & Re2 & N2 & C2 & P2).
  unfold bind at 1. rewrite HW.
  assert (Hh2 : heap w2 = <[id := c2]> (heap w)).
  { rewrite H2, H1. by rewrite insert_insert_eq. }
  assert (Hc2 : heap w2 !! id = Some c2) by (rewrite H2; apply lookup_insert_eq).
  destruct r2 as [e2|].
  2:{ rewrite run_ret. cbv beta iota. rewrite run_log. cbv beta.
      eexists _, _, c2. split; [reflexivity |]. wsimpl.
      split_and!; try done; try congruence; try lia. }
  destruct (Kill_bounded env id w2 c2 Hc2 ltac:(congruence))
    as (r3 & w3 & c3 & HK & H3 & L3 & N3 & C3 & P3 & _).
  rewrite bind_assoc. unfold bind at 1. rewrite HK.
  assert (Hh3 : heap w3 = <[id := c3]> (heap w)).
  { rewrite H3, Hh2. by rewrite insert_insert_eq. }
  assert (Hc3 : heap w3 !! id = Some c3) by (rewrite H3; apply lookup_insert_eq).
  destruct r3 as [ke|].
  2:{ rewrite run_ret. cbv beta iota. rewrite run_log. cbv beta.
      eexists _, _, c3. split; [reflexivity |]. wsimpl.
      split_and!; try done; try congruence; try lia. }
  rewrite bind_assoc, run_read. cbv beta. rewrite bind_assoc.
  destruct (Wait_deadline env id w3 c3 (now w3) (2 * Second) Hc3)
    as (r4 & w4 & c4 & HW4 & T4 & H4 & L4 & Rn4 & Re4 & N4 & C4 & P4).
  unfold bind at 1. rewrite HW4.
  assert (Hh4 : heap w4 = <[id := c4]> (heap w)).
  { rewrite H4, Hh3. by rewrite insert_insert_eq. }
  destruct r4; rewrite run_ret; cbv beta iota; rewrite ?run_log, ?run_ret; cbv beta;
    (eexists _, _, c4; split; [reflexivity |]); wsimpl;
    split_and!; try done; try congruence; try lia.
Qed.

(** With the container's lock free, [Kill] always returns, and its waits add
    up to at most [waitTimeout] (10 seconds, 75 on Windows) plus 2 seconds;
    the lock is free again afterwards. On a container that is not running it
    fails at once with the not-running error. *)
Theorem Kill_returns_in_time env id w c :
  heap w !! id = Some c -> locked c = false ->
  exists r w' c',
    Kill env id w = Ret r w' /\ heap w' !! id = Some c' /\ locked c' = false /\
    now w <= now w' <= now w + waitTimeout env + 2 * Second /\
    (Running c = false -> r = Some (errNotRunning id) /\ now w' = now w).
Proof.
  intros Hc Hl.
  destruct (Kill_bounded env id w c Hc Hl) as (r & w' & c' & HK & H & L & N & _ & _ & Hnr).
  exists r, w', c'. split_and!; try done; try lia. by rewrite H, lookup_insert_eq.
Qed.

(** With the lock free and an effective timeout that is not negative,
    [containerStop] always returns, whatever the collaborators answer and
    whether or not the container ever exits. Its waits add up to at most the
    first wait (the timeout as a [time.Duration], or 2 seconds when the stop
    signal could not be sent), the waits of [Kill], and 2 more seconds. *)
Theorem containerStop_returns_in_time env ctx id options w c :
  heap w !! id = Some c -> locked c = false -> 0 <= effectiveTimeout c options ->
  exists r w' c',
    containerStop env ctx id options w = Ret r w' /\
    heap w' !! id = Some c' /\ locked c' = false /\
    now w <= now w' <= now w + Z.max (seconds (effectiveTimeout c options)) (2 * Second)
                         + waitTimeout env + 4 * Second.
Proof.
  intros Hc Hl HT.
  destruct (containerStop_bounded env ctx id options w c Hc Hl HT)
    as (r & w' & c' & HS & H & L & N & _).
  exists r, w', c'. split_and!; try done; try lia. by rewrite H, lookup_insert_eq.
Qed.

(** ** The outcomes of [Kill], the escalation in [containerStop] *)

(** Claim C2, amended: every run of [Kill] that finds the lock free returns,
    in one of these ways. On a container that is not running: the
    not-running error, at once. Otherwise SIGKILL is sent through
    [killPossiblyDeadProcess]. If that returns an error in which [errors.As]
    finds [errNoSuchProcess], [Kill] returns nil at once, in the world the
    delivery left: nothing has waited, and the container is still recorded as
    running. If not, [Kill] waits under [waitTimeout]: when the wait sees the
    container not running, nil. When the wait expires, [killProcessDirectly]
    is called: an error of it in which [errors.As] finds [errNoSuchProcess]
    again gives nil at once, the container still recorded as running; any
    other error of it is returned; and when it succeeds a last wait of two
    seconds decides between nil, the container not running, and the "did not
    receive an exit event" error. No answer of any other collaborator makes
    [Kill] return nil. *)
Theorem Kill_outcomes env id w c :
  heap w !! id = Some c -> locked c = false ->
  exists r w' c',
    Kill env id w = Ret r w' /\ heap w' !! id = Some c' /\
    ((Running c = false /\ r = Some (errNotRunning id) /\
      w' = emit (EvEnter "Kill" id) w) \/
     (Running c = true /\
      exists err w1,
        killPossiblyDeadProcess env id SIGKILL (emit (EvEnter "Kill" id) w) = Ret err w1 /\
        ((exists e, err = Some e /\ As_errNoSuchProcess e = true /\
            r = None /\ w' = w1 /\ Running c' = true) \/
         ((forall e, err = Some e -> As_errNoSuchProcess e = false) /\
          exists s1 w2,
            Wait env (WithTimeout Background (now w1) (waitTimeout env)) id w1 = Ret s1 w2 /\
            ((s1 = None /\ r = None /\ w' = w2 /\ Running c' = false) \/
             (s1 = Some DeadlineExceeded /\
              exists derr w3,
                derr = outcome env killProcessDirectly (calls w2) /\
                w3 = emit (EvExt killProcessDirectly id derr) (tick w2) /\
                match derr with
                | Some e =>
                    w' = w3 /\ Running c' = true /\
                    r = (if As_errNoSuchProcess e then None else Some e)
                | None =>
                    exists s2,
                      Wait env (WithTimeout Background (now w3) (2 * Second)) id w3
                        = Ret s2 w' /\
                      match s2 with
                      | None => r = None /\ Running c' = false
                      | Some _ => r = Some errNoExitEvent /\ Running c' = true
                      end
                end)))))).
Proof.
  intros Hc Hl. unfold Kill. step. step. wsimpl.
  destruct (Running c) eqn:Hrun; simpl.
  2:{ eexists _, _, c. split; [reflexivity |]. split; [done |]. left. done. }
  destruct (killWithSignal_shape env id SIGKILL (emit (EvEnter "Kill" id) w) c Hc Hl)
    as (r1 & w1 & c1 & mid & Hk & _ & T1 & H1 & _).
  destruct (killWithSignal_keeps env id SIGKILL (emit (EvEnter "Kill" id) w) c r1 w1 c1
              Hc Hl Hk H1) as (Hl1 & Hr1 & _).
  pose proof (killPossiblyDeadProcess_after env id SIGKILL (emit (EvEnter "Kill" id) w)
                c r1 w1 c1 Hc Hk H1) as Hkp.
  set (err := if IsNotFound_opt r1 then _ else _) in Hkp.
  unfold bind at 1. rewrite Hkp.
  assert (Hc1 : heap w1 !! id = Some c1) by (rewrite H1; apply lookup_insert_eq).
  destruct (match err with Some e => As_errNoSuchProcess e | None => false end) eqn:Has.
  { destruct err as [e|]; [| done].
    eexists _, _, c1. split; [reflexivity |]. split; [done |]. right.
    split; [done |]. exists (Some e), w1. split; [done |]. left.
    exists e. split_and!; try done. congruence. }
  assert (Hno : forall e, err = Some e -> As_errNoSuchProcess e = false).
  { intros e He. by rewrite He in Has. }
  rewrite run_read. cbv beta. fold (waitTimeout env).
  destruct (Wait_deadline env id w1 c1 (now w1) (waitTimeout env) Hc1)
    as (s1 & w2 & c2 & HW & T2 & H2 & L2 & Rn2 & Re2 & _).
  unfold bind at 1. rewrite HW.
  assert (Hc2 : heap w2 !! id = Some c2) by (rewrite H2; apply lookup_insert_eq).
  destruct s1 as [e1|].
  2:{ eexists _, _, c2. split; [reflexivity |]. split; [done |]. right.
      split; [done |]. exists err, w1. split; [done |]. right. split; [done |].
      exists None, w2. split; [done |]. left. split_and!; try done. by apply Rn2. }
  destruct (Re2 e1 eq_refl) as (-> & Hrun1 & ->).
  step. wsimpl.
  destruct (outcome env killProcessDirectly (calls w2)) as [e|] eqn:Hd.
  { eexists (if As_errNoSuchProcess e then None else Some e), _, c1.
    split; [destruct (As_errNoSuchProcess e); reflexivity |].
    split; [by destruct (As_errNoSuchProcess e) |]. right.
    split; [done |]. exists err, w1. split; [done |]. right. split; [done |].
    exists (Some DeadlineExceeded), w2. split; [done |]. right. split; [done |].
    eexists _, _. split; [reflexivity |]. split; [reflexivity |].
    rewrite Hd. split_and!; try done; by destruct (As_errNoSuchProcess e). }
  rewrite run_read. cbv beta.
  set (w3 := emit _ (tick w2)).
  assert (Hc3 : heap w3 !! id = Some c1) by done.
  destruct (Wait_deadline env id w3 c1 (now w3) (2 * Second) Hc3)
    as (s2 & w4 & c4 & HW4 & T4 & H4 & L4 & Rn4 & Re4 & _).
  unfold bind at 1. rewrite HW4.
  assert (Hc4 : heap w4 !! id = Some c4) by (rewrite H4; apply lookup_insert_eq).
  exists (match s2 with Some _ => Some errNoExitEvent | None => None end), w4, c4.
  split; [destruct s2; reflexivity |]. split; [done |]. right.
  split; [done |]. exists err, w1. split; [done |]. right. split; [done |].
  exists (Some DeadlineExceeded), w2. split; [done |]. right. split; [done |].
  eexists _, _. split; [reflexivity |]. split; [reflexivity |].
  rewrite Hd. exists s2. split; [exact HW4 |].
  destruct s2 as [e2|].
  - destruct (Re4 e2 eq_refl) as (-> & ? & _). by split.
  - split; [done |]. by apply Rn4.
Qed.



(** ** The ["stop"] event *)

Lemma Kill_escalating env id : sound (evolves escalating id) (Kill env id).
Proof.
  intros w w' H. apply Kill_trace in H.
  eapply evolves_trans;
    [| eapply evolves_weaken; [| exact H]; intros e He; unfold escalating; by rewrite He].
  split; [| done |].
  - eexists [_]. by simpl.
  - intros c Hc. exists c. split; [done | apply untouched_refl].
Qed.

Lemma escalating_not_logged evs i a :
  forallb escalating evs = true -> a <> "kill"%string -> ~ In (EvLogContainerEvent i a) evs.
Proof.
  intros F Ha Hin. rewrite forallb_forall in F. apply F in Hin.
  unfold escalating, killing, signalling, is_Kill_entry in Hin. simpl in Hin.
  rewrite !orb_false_r in Hin. by apply String.eqb_eq in Hin.
Qed.

(** [containerStop] logs the "stop" event exactly when it returns nil for a
    container that was running at entry, once, as the last thing it does. On a
    container that is not running it returns nil and does nothing at all; a
    run that returns an error logs no "stop" event. *)
Theorem containerStop_stop_event env ctx id options w c r w' :
  heap w !! id = Some c -> containerStop env ctx id options w = Ret r w' ->
  exists evs, trace w' = trace w ++ evs /\
    (Running c = false -> r = None /\ w' = w) /\
    (Running c = true ->
       match r with
       | None => exists pre, evs = pre ++ [EvLogContainerEvent id "stop"] /\
                   forall i, ~ In (EvLogContainerEvent i "stop") pre
       | Some _ => forall i, ~ In (EvLogContainerEvent i "stop") evs
       end).
Proof.
  intros Hc H. unfold containerStop in H.
  erewrite run_getC in H by done.
  destruct (Running c) eqn:Hrun; simpl in H.
  2:{ injection H as <- <-. exists []. rewrite app_nil_r. by split_and!. }
  destruct (if negb _ then _ else _) as [e|stopSig].
  { injection H as <- <-. exists []. rewrite app_nil_r. split_and!; try done.
    intros _ i []. }
  apply bind_Ret_inv in H as (retErr & w1 & Hin & H).
  match type of Hin with
  | ?m w = _ => assert (sound (evolves escalating id) m) as Hsound
  end.
  { apply sound_bind; [| intros err].
    { eapply sound_weaken; [| apply killPossiblyDeadProcess_sound].
      intros e He. unfold escalating. by rewrite (signalling_killing _ He). }
    apply sound_bind; [apply sound_read | intros t0].
    apply sound_bind; [sound_go | intros [e|]; [| apply sound_ret]].
    destruct (effectiveTimeout c options <? 0); [apply sound_ret |].
    apply sound_bind; [apply Kill_escalating | intros kerr]. sound_go. }
  destruct (Hsound w w1 ltac:(by rewrite Hin)) as [(evs & T & F) _ _].
  destruct retErr as [e|]; simpl in H.
  - injection H as <- <-. exists evs. split_and!; try done.
    intros _ i. by apply escalating_not_logged.
  - injection H as <- <-. exists (evs ++ [EvLogContainerEvent id "stop"]).
    split_and!; try done.
    + simpl. by rewrite T, app_assoc.
    + intros _. exists evs. split; [done |]. intros i. by apply escalating_not_logged.
Qed.

(** ** The entry points [ContainerStop] and [ContainerKill] *)

(** Every error [ContainerStop] returns is either the error of resolving the
    name, returned as it is, or a System error wrapping "cannot stop
    container: <name>" around what [containerStop] returned. So an invalid
    signal in the options, which [containerStop] reports as an invalid
    parameter, reaches the caller classified as a System error, and no error
    of [ContainerStop] behind a resolved name is a not-found error. *)
Theorem ContainerStop_errors env pidExists ctx name options w e w' :
  ContainerStop env pidExists ctx name options w = Ret (Some e) w' ->
  (GetContainer w name = inl e /\ w' = w) \/
  (exists id e0, GetContainer w name = inr id /\
     e = errdefsAs KSystem (errWrapf e0 ("cannot stop container: " ++ name)) /\
     IsNotFound e = false /\ As_errNoSuchProcess e = As_errNoSuchProcess e0).
Proof.
  unfold ContainerStop. intros H.
  rewrite run_read in H. cbv beta in H.
  destruct (GetContainer w name) as [err|id] eqn:Hget.
  { injection H as <- <-. by left. }
  right. exists id.
  apply bind_Ret_inv in H as (c & w0 & _ & H).
  destruct (negb (Running c) || (Pid c =? 0)); [done |].
  apply bind_Ret_inv in H as (alive & w1 & _ & H).
  destruct (negb alive); [done |].
  apply bind_Ret_inv in H as ([e0|] & w2 & _ & H); [| done].
  injection H as <- <-. by exists e0.
Qed.

(** [ContainerKill] validates the signal before it looks for the container:
    a signal name that does not parse, or a signal the platform does not
    support, is rejected as an invalid parameter with nothing looked up or
    changed, also when no container of that name exists. *)
Theorem ContainerKill_rejects_signal env pidExists valid GOOS name s w :
  s <> ""%string ->
  match ParseSignal env s with
  | inl e =>
      ContainerKill env pidExists valid GOOS name s w =
        Ret (Some (errdefsAs KInvalidParameter e)) w
  | inr sig =>
      valid sig = false ->
      ContainerKill env pidExists valid GOOS name s w =
        Ret (Some (errdefsAs KInvalidParameter
                     (errNew ("the " ++ GOOS ++ " daemon does not support signal "
                              ++ pretty sig)))) w
  end.
Proof.
  intros Hs. unfold ContainerKill.
  assert (String.eqb s "" = false) as -> by (by apply String.eqb_neq).
  simpl. destruct (ParseSignal env s) as [e|sig]; [done |].
  by intros ->.
Qed.

(** A container that is not running, or whose [Pid] is 0, is left alone:
    [ContainerStop] and [ContainerKill] (with any valid signal) return nil and
    change nothing. No "not running" error is reported, the probe is not
    consulted and no signal is sent. *)
Theorem idle_container_left_alone env pidExists valid GOOS ctx name options w id c :
  GetContainer w name = inr id -> heap w !! id = Some c ->
  Running c = false \/ Pid c = 0 ->
  ContainerStop env pidExists ctx name options w = Ret None w /\
  ContainerKill env pidExists valid GOOS name "" w = Ret None w /\
  forall s sig, ParseSignal env s = inr sig -> valid sig = true ->
    ContainerKill env pidExists valid GOOS name s w = Ret None w.
Proof.
  intros Hget Hc Hidle.
  assert (negb (Running c) || (Pid c =? 0) = true) as Hcond.
  { destruct Hidle as [-> | ->]; [done | apply orb_true_r]. }
  assert (forall sig, bind (fun w0 => Ret (GetContainer w0 name) w0) (fun container =>
      match container with
      | inl err => ret (Some err)
      | inr id =>
          bind (getC id) (fun c =>
          if negb (Running c) || (Pid c =? 0) then ret None
          else bind (pidExists (Pid c)) (fun alive =>
               if negb alive then ret None
               else if sig =? SIGKILL then Kill env id else killWithSignal env id sig))
      end) w = Ret None w) as Hkill.
  { intros sig. rewrite run_read. cbv beta. rewrite Hget.
    erewrite run_getC by done. by rewrite Hcond. }
  split_and!.
  - unfold ContainerStop. rewrite run_read. cbv beta. rewrite Hget.
    erewrite run_getC by done. by rewrite Hcond.
  - exact (Hkill SIGKILL).
  - intros s sig Hp Hv. unfold ContainerKill.
    destruct (negb (String.eqb s "")); rewrite ?Hp, ?Hv;
      [exact (Hkill sig) | exact (Hkill SIGKILL)].
Qed.

(** [ContainerKill] with a signal other than [SIGKILL], on a running
    container that the probe reports alive: the run is that of
    [killWithSignal] after the probe. It never waits for the container to
    exit and never enters [Kill]. *)
Theorem ContainerKill_signal_only env pidExists valid GOOS name s sig w id c w1 :
  s <> ""%string -> ParseSignal env s = inr sig -> valid sig = true ->
  sig <> SIGKILL ->
  GetContainer w name = inr id -> heap w !! id = Some c ->
  Running c = true -> Pid c <> 0 ->
  pidExists (Pid c) w = Ret true w1 ->
  ContainerKill env pidExists valid GOOS name s w = killWithSignal env id sig w1 /\
  forall w', final (ContainerKill env pidExists valid GOOS name s w) = Some w' ->
    exists evs, trace w' = trace w1 ++ evs /\
      first_wait evs = None /\ Kill_entries evs = 0%nat.
Proof.
  intros Hs Hp Hv Hsig Hget Hc Hrun Hpid Hprobe.
  assert (ContainerKill env pidExists valid GOOS name s w = killWithSignal env id sig w1)
    as Heq.
  { unfold ContainerKill.
    assert (String.eqb s "" = false) as -> by (by apply String.eqb_neq).
    simpl. rewrite Hp, Hv. simpl. rewrite run_read. cbv beta. rewrite Hget.
    erewrite run_getC by done. rewrite Hrun.
    assert ((Pid c =? 0) = false) as -> by lia. simpl.
    unfold bind at 1. rewrite Hprobe. simpl.
    by assert ((sig =? SIGKILL) = false) as -> by lia. }
  split; [done |]. rewrite Heq. intros w' Hf.
  apply killWithSignal_sound in Hf as [(evs & T & F) _ _].
  exists evs. split_and!; [done | | by apply signalling_no_Kill_entry].
  rewrite <- (app_nil_r evs). by rewrite first_wait_signalling.
Qed.

(** With the probe that signals the process: when the process of a running
    container is gone, or is alive but may not be signalled by the daemon,
    [ContainerStop] and [ContainerKill] report success and do nothing; the
    container is still marked running. *)
Theorem Posix_probe_failure_is_success env valid GOOS ctx name options w id c :
  GetContainer w name = inr id -> heap w !! id = Some c ->
  Running c = true -> Pid c <> 0 ->
  procs w !! Pid c = None \/ procs w !! Pid c = Some (Live false) ->
  ContainerStop env (Posix.pidExists env) ctx name options w = Ret None w /\
  ContainerKill env (Posix.pidExists env) valid GOOS name "" w = Ret None w.
Proof.
  intros Hget Hc Hrun Hpid Hproc.
  assert (Posix.pidExists env (Pid c) w = Ret false w) as Hprobe.
  { unfold Posix.pidExists, Posix.FindProcess, Posix.Signal_Kill, bind, ret.
    destruct Hproc as [Hp | Hp]; rewrite ?Hp; destruct (goos_windows env); simpl;
      rewrite ?Hp; done. }
  assert ((Pid c =? 0) = false) as Hz by lia.
  split.
  - unfold ContainerStop. rewrite run_read. cbv beta. rewrite Hget.
    erewrite run_getC by done. rewrite Hrun, Hz. simpl.
    unfold bind at 1. by rewrite Hprobe.
  - unfold ContainerKill. simpl. rewrite run_read. cbv beta. rewrite Hget.
    erewrite run_getC by done. rewrite Hrun, Hz. simpl.
    unfold bind at 1. by rewrite Hprobe.
Qed.

(** With the probe that signals the process: on a running container whose
    process is alive, the first thing [ContainerStop] does is the probe's
    [SIGKILL] to that process; [containerStop], with its stop signal and its
    timeout, only runs after it. *)
Theorem Posix_ContainerStop_kills_first env ctx name options w id c :
  GetContainer w name = inr id -> heap w !! id = Some c ->
  Running c = true -> Pid c <> 0 ->
  procs w !! Pid c = Some (Live true) ->
  ContainerStop env (Posix.pidExists env) ctx name options w =
    bind (containerStop env ctx id options) (fun err =>
      match err with
      | Some e =>
          ret (Some (errdefsAs KSystem (errWrapf e ("cannot stop container: " ++ name))))
      | None => ret None
      end)
      (emit (EvSignal (Pid c) SIGKILL) (set_procs (<[Pid c := Exited]> (procs w)) w)) /\
  forall w', final (ContainerStop env (Posix.pidExists env) ctx name options w) = Some w' ->
    exists evs, trace w' = trace w ++ EvSignal (Pid c) SIGKILL :: evs /\
      forallb stopping evs = true.
Proof.
  intros Hget Hc Hrun Hpid Hproc.
  pose proof (Posix_pidExists_live env (Pid c) w Hproc) as Hprobe.
  assert ((Pid c =? 0) = false) as Hz by lia.
  match goal with |- ?l = ?r /\ _ => assert (l = r) as Heq end.
  { unfold ContainerStop. rewrite run_read. cbv beta. rewrite Hget.
    erewrite run_getC by done. rewrite Hrun, Hz. simpl.
    unfold bind at 1. by rewrite Hprobe. }
  split; [done |]. rewrite Heq. intros w' Hf.
  match type of Hf with
  | final (bind ?m ?k ?w1) = _ => assert (sound (evolves stopping id) (bind m k)) as Hs
  end.
  { apply sound_bind; [apply containerStop_sound | intros [e|]; apply sound_ret]. }
  apply Hs in Hf as [(evs & T & F) _ _]. simpl in T.
  exists evs. split; [| done]. by rewrite T, <- app_assoc.
Qed.

(** ** Links: [rmLink] *)

Lemma path_Split_no_slash n :
  forallb (fun a => negb (is_slash a)) (list_ascii_of_string n) = true ->
  path_Split n = (""%string, n).
Proof.
  induction n as [|a n IH]; [done |].
  simpl. intros [Ha Hn]%andb_prop. rewrite (IH Hn).
  by apply negb_true_iff in Ha as ->.
Qed.

(** A name directly under the root, written with or without its leading
    slash, is a container's default name: [rmLink] refuses it with the
    "default link name" conflict and changes nothing. *)
Theorem rmLink_default_name env id n w :
  forallb (fun a => negb (is_slash a)) (list_ascii_of_string n) = true ->
  rmLink env id ("/" ++ n)%string w = Ret (Some errDefaultLinkName) w /\
  (n <> ""%string -> rmLink env id n w = Ret (Some errDefaultLinkName) w).
Proof.
  intros Hn.
  assert (path_Split ("/" ++ n)%string = ("/"%string, n)) as Hsplit.
  { change ("/" ++ n)%string with (String "/" n). cbn [path_Split].
    by rewrite (path_Split_no_slash n Hn). }
  split.
  - change ("/" ++ n)%string with (String "/" n) in *. unfold rmLink.
    change (is_slash "/") with true. cbn [negb]. cbv zeta. rewrite Hsplit. done.
  - intros Hne. destruct n as [|a n']; [done |].
    unfold rmLink.
    assert (negb (is_slash a) = true) as ->
      by (simpl in Hn; by apply andb_prop in Hn as [? _]).
    cbv zeta. rewrite Hsplit. done.
Qed.

(** What [rmLink] changes. It never touches a container object or the
    registry. When it fails nothing has changed at all. When it succeeds it
    has released exactly the link name with its leading slash (added when the
    caller left it out), and the name of the link's parent was reserved; if
    that parent no longer resolves to a container nothing else happens,
    otherwise exactly the link from that parent to this container is taken
    out of the link index and [updateNetwork] is called once on the parent,
    its failure not reported. *)
Theorem rmLink_frame env id name w r w' :
  rmLink env id name w = Ret r w' ->
  heap w' = heap w /\ containers w' = containers w /\
  match r with
  | Some _ => w' = w
  | None =>
      exists a rest full pe,
        name = String a rest /\
        full = (if is_slash a then name else ("/" ++ name)%string) /\
        names w !! TrimSuffix_slash (path_Split full).1 = Some pe /\
        names w' = delete full (names w) /\
        ((exists e, GetContainer w' pe = inl e /\
            linkIndex w' = linkIndex w /\ trace w' = trace w) \/
         (exists pid res, GetContainer w' pe = inr pid /\
            linkIndex w' = filter (fun l => l ≠ (full, pid, id)) (linkIndex w) /\
            trace w' = trace w ++ [EvExt updateNetwork pid res]))
  end.
Proof.
  unfold rmLink. destruct name as [|a rest]; [done |].
  set (full := if negb (is_slash a) then _ else _).
  assert (full = if is_slash a then String a rest else ("/" ++ String a rest)%string)
    as Hfull by (subst full; by destruct (is_slash a)).
  clearbody full.
  destruct (path_Split full) as [parent n] eqn:Hsplit.
  destruct (String.eqb parent "/"); [intros [= <- <-]; by split_and! |].
  rewrite run_read. cbv beta.
  destruct (names w !! TrimSuffix_slash parent) as [pe|] eqn:Hpe;
    [| intros [= <- <-]; by split_and!].
  unfold releaseName. unfold bind at 1. rewrite run_read. cbv beta.
  destruct (GetContainer (set_names (delete full (names w)) w) pe) as [e|pid] eqn:Hget.
  - rewrite run_ret. intros [= <- <-].
    split; [done |]. split; [done |].
    exists a, rest, full, pe. split_and!; try done; [by rewrite Hsplit |].
    left. by exists e.
  - rewrite bind_assoc. unfold linkIndex_unlink. unfold bind at 1.
    rewrite bind_assoc, run_call. cbv beta. rewrite run_ret. unfold ret.
    intros [= <- <-].
    split; [done |]. split; [done |].
    exists a, rest, full, pe. split_and!; try done; [by rewrite Hsplit |].
    right. eexists pid, _. split_and!; [| reflexivity | reflexivity]. exact Hget.
Qed.

(** ** [ContainerRm]: the guard, and containers that never started *)

(** The guarded part of [ContainerRm]: once the mark is set, the deferred
    reset runs on every return. *)
Lemma guard_released {A} id (conflict : A) (body : M A) w c r w' :
  heap w !! id = Some c -> RemovalInProgress c = false ->
  bind (SetRemovalInProgress id) (fun inProgress =>
    if inProgress then ret conflict
    else bind body (fun r => bind (ResetRemovalInProgress id) (fun _ => ret r))) w
    = Ret r w' ->
  exists c', heap w' !! id = Some c' /\ RemovalInProgress c' = false.
Proof.
  intros Hc Hrip. unfold SetRemovalInProgress, ResetRemovalInProgress.
  rewrite bind_assoc. erewrite run_getC by done. rewrite Hrip.
  rewrite bind_assoc. erewrite run_modC by done. rewrite run_ret. cbv beta iota.
  intros (r0 & w2 & Hbody & H)%bind_Ret_inv.
  apply bind_Ret_inv in H as ([] & w3 & Hmod & H). injection H as <- <-.
  unfold modC in Hmod. destruct (heap w2 !! id) as [c2|] eqn:Hc2; [| done].
  injection Hmod as <-.
  exists (set_RemovalInProgress false c2). simpl.
  split; [by rewrite lookup_insert_eq | done].
Qed.

(** A [ContainerRm] that takes the removal-in-progress mark gives it back on
    every return: whether the link removal or the cleanup succeeded or
    failed, the container is not left marked, so a later removal is not
    refused with "already in progress". *)
Theorem ContainerRm_releases_guard env id name config w c :
  heap w !! id = Some c -> Pid c <> 0 -> RemovalInProgress c = false ->
  (forall r w', Win.ContainerRm_resolved env id name config w = Ret r w' ->
     exists c', heap w' !! id = Some c' /\ RemovalInProgress c' = false) /\
  (forall r w' w1,
     (if 0 <? Pid c then Posix.pidExists env (Pid c) w = Ret true w1 else w1 = w) ->
     Posix.ContainerRm_resolved env id name config w = Ret r w' ->
     exists c', heap w' !! id = Some c' /\ RemovalInProgress c' = false).
Proof.
  intros Hc Hpid Hrip.
  assert ((Pid c =? 0) = false) as Hz by lia.
  split.
  - intros r w'. unfold Win.ContainerRm_resolved.
    erewrite run_getC by done. rewrite Hz, run_log. cbv beta.
    intros H. by eapply guard_released in H.
  - intros r w' w1 Hprobe. unfold Posix.ContainerRm_resolved.
    erewrite run_getC by done. rewrite Hz.
    assert (heap w1 = heap w) as Hh.
    { destruct (0 <? Pid c); [| by subst].
      by apply Posix_pidExists_Ret in Hprobe as (? & _). }
    destruct (0 <? Pid c).
    + rewrite bind_assoc. unfold bind at 1. rewrite Hprobe. rewrite !run_ret. simpl.
      intros H. eapply guard_released in H; [done | by rewrite Hh | done].
    + subst w1. rewrite run_ret. cbv iota.
      intros H. by eapply guard_released in H.
Qed.

(** For a container that never started ([Pid == 0]) the configuration of
    [ContainerRm] makes no difference to the outcome: also with [RemoveLink]
    set it is the container itself that is taken out of the registry and
    marked dead, and the call returns nil whatever the collaborators
    answer. *)
Theorem ContainerRm_never_started env id name config w c :
  heap w !! id = Some c -> Pid c = 0 ->
  (exists w' c', Win.ContainerRm_resolved env id name config w = Ret None w' /\
     (id ∉ containers w') /\ heap w' !! id = Some c' /\ Dead c' = true) /\
  (exists w' c', Posix.ContainerRm_resolved env id name config w = Ret None w' /\
     (id ∉ containers w') /\ heap w' !! id = Some c' /\ Dead c' = true).
Proof.
  intros Hc Hpid.
  assert (Hout : forall s : gset string, id ∉ s ∖ {[id]}).
  { intros s [_ Hn]%elem_of_difference. apply Hn. by apply elem_of_singleton. }
  split.
  - destruct (Win_onlyCleanupContainer_Ret env id config true w c Hc)
      as (w' & evs & c' & E & _ & C & H & D & _).
    unfold Win.ContainerRm_resolved. erewrite run_getC by done. rewrite Hpid. simpl.
    unfold bind at 1. rewrite E. rewrite run_log. cbv beta.
    eexists _, c'. split; [reflexivity |]. simpl. rewrite C. by split_and!.
  - destruct (Posix_onlyCleanupContainer_Ret env id config w c Hc)
      as (w' & evs & c' & E & _ & C & H & D & _).
    unfold Posix.ContainerRm_resolved. erewrite run_getC by done. rewrite Hpid. simpl.
    exists w', c'. rewrite C. by split_and!.
Qed.

(** ** The enumeration of processes *)

Lemma take_1024 (pids : list Z) :
  take (Z.to_nat (4 * Z.min (Z.of_nat (length pids)) 1024 / 4)) pids = take 1024 pids.
Proof.
  replace (4 * Z.min (Z.of_nat (length pids)) 1024 / 4)
    with (Z.min (Z.of_nat (length pids)) 1024)
    by (symmetry; rewrite Z.mul_comm; apply Z.div_mul; lia).
  destruct (Z.le_gt_cases (Z.of_nat (length pids)) 1024) as [Hle | Hgt].
  - rewrite Z.min_l by done. rewrite Nat2Z.id.
    rewrite !take_ge; [done | | done].
    change 1024%nat with (Z.to_nat 1024). lia.
  - rewrite Z.min_r by lia. done.
Qed.

Lemma Win_enumerate_1024 pids :
  Win.enumerate 2 1024 pids = Some (map Win.int32 (take 1024 pids)).
Proof.
  cbn [Win.enumerate].
  destruct (1024 =? 4 * Z.min (Z.of_nat (length pids)) 1024) eqn:E1;
    [| by rewrite take_1024].
  change (Win.uint32 (1024 + 1024)) with 2048.
  apply Z.eqb_eq in E1.
  assert (Z.of_nat (length pids) = 256) as Hlen by lia.
  assert ((2048 =? 4 * Z.min (Z.of_nat (length pids)) 2048) = false) as -> by lia.
  rewrite Hlen. change (Z.to_nat (4 * Z.min 256 2048 / 4)) with 256%nat.
  rewrite !take_ge; [done | |]; change 1024%nat with (Z.to_nat 1024); lia.
Qed.

Lemma Win_pidList_loop_1024 pids :
  Win.pidList_loop 2 1024 pids = Some (take 1024 pids).
Proof.
  cbn [Win.pidList_loop].
  destruct (1024 =? 4 * Z.min (Z.of_nat (length pids)) 1024) eqn:E1;
    [| by rewrite take_1024].
  change (Win.uint32 (1024 + 1024)) with 2048.
  apply Z.eqb_eq in E1.
  assert (Z.of_nat (length pids) = 256) as Hlen by lia.
  assert ((2048 =? 4 * Z.min (Z.of_nat (length pids)) 2048) = false) as -> by lia.
  rewrite Hlen. change (Z.to_nat (4 * Z.min 256 2048 / 4)) with 256%nat.
  rewrite !take_ge; [done | |]; change 1024%nat with (Z.to_nat 1024); lia.
Qed.

(** The enumeration loops of [pidList] and [pidExists] compare the length of
    the buffer, counted in entries, with the bytes returned: the buffer is
    only ever grown when exactly 256 processes exist, and what they collect is
    never more than the first 1024 entries of the process table, however many
    processes there are. For a pid that is not a multiple of 4, [pidExists]
    answers by membership in that list alone. *)
Theorem Win_enumeration_is_truncated env w :
  EnumProcesses_fails env = false ->
  Win.pidList env w = Some (take 1024 (Win.os_pids w)) /\
  forall pid, Z.rem pid 4 <> 0 -> Win.os_pids w <> [] ->
    Win.pidExists env pid w =
      Some (Win.pidExist2 (Win.int32 pid) (map Win.int32 (take 1024 (Win.os_pids w)))).
Proof.
  intros Hok. split.
  - unfold Win.pidList. by rewrite Hok, Win_pidList_loop_1024.
  - intros pid Hrem Hne. unfold Win.pidExists, Win.pidExist2.
    assert (negb (Z.rem pid 4 =? 0) = true) as -> by (apply negb_true_iff; lia).
    rewrite Hok, Win_enumerate_1024.
    assert ((0 <? length (map Win.int32 (take 1024 (Win.os_pids w))))%nat = true) as ->;
      [| done].
    apply Nat.ltb_lt. rewrite length_map, length_take.
    destruct (Win.os_pids w); [done | simpl; lia].
Qed.

(** ** Cleaning up a stopped container *)

(** A stopped container: [cleanupContainer] goes straight to the teardown. *)
Lemma cleanupContainer_stopped env id config w c :
  heap w !! id = Some c -> Running c = false ->
  cleanupContainer env id config w =
    teardownContainer env id config (emit (EvStopCollection id) w).
Proof.
  intros Hc Hrun. unfold cleanupContainer.
  erewrite run_getC by done. rewrite Hrun. rewrite run_ret. cbv beta iota.
  rewrite run_log. cbv beta. unfold containerStop.
  rewrite bind_assoc. erewrite run_getC by done. rewrite Hrun. cbn [negb].
  by rewrite run_ret.
Qed.

(** Every run of the teardown that finds the lock free: it returns with the
    lock free; either the container is removed, or a collaborator failed and
    its error is recorded on the container, which stays registered. *)
Lemma teardownContainer_total env id config w c :
  heap w !! id = Some c -> locked c = false ->
  exists r w' c',
    teardownContainer env id config w = Ret r w' /\
    heap w' !! id = Some c' /\ locked c' = false /\ Running c' = Running c /\
    match r with
    | None => (id ∉ containers w') /\ Removed c' = true /\ removalError c' = None
    | Some e => removalError c' = Some e /\ containers w' = containers w /\
                Removed c' = Removed c /\
                exists op n, outcome env op n <> None
    end.
Proof.
  intros Hc Hl. unfold teardownContainer, markDead, releaseAndRemove, SetRemovalError.
  rewrite bind_assoc. step_Lock. repeat step. wsimpl.
  assert (Hout : forall s : gset string, id ∉ s ∖ {[id]}).
  { intros s [_ Hn]%elem_of_difference. apply Hn. by apply elem_of_singleton. }
  assert (Hroot : forall w1 c1,
    heap w1 !! id = Some c1 -> locked c1 = false -> Running c1 = Running c ->
    Removed c1 = Removed c -> containers w1 = containers w ->
    exists r w' c',
      bind (Lock id) (fun _ =>
        bind (call env EnsureRemoveAll id) (fun err =>
        bind (Unlock id) (fun _ =>
        match err with
        | Some e =>
            bind (modC id (set_removalError
                    (Some (errWrapf e ("unable to remove filesystem for " ++ id)))))
              (fun _ => ret (Some (errWrapf e ("unable to remove filesystem for " ++ id))))
        | None =>
            bind (deregister env id config) (fun _ =>
            bind (modC id setRemoved) (fun _ =>
            bind (log (EvStateCtrDel id)) (fun _ =>
            bind (log (EvLogContainerEvent id "destroy")) (fun _ => ret None))))
        end))) w1 = Ret r w' /\
      heap w' !! id = Some c' /\ locked c' = false /\ Running c' = Running c /\
      match r with
      | None => (id ∉ containers w') /\ Removed c' = true /\ removalError c' = None
      | Some e => removalError c' = Some e /\ containers w' = containers w /\
                  Removed c' = Removed c /\
                  exists op n, outcome env op n <> None
      end).
  { intros w1 c1 H1 L1 R1 Rm1 C1.
    step_Lock. repeat step. wsimpl.
    destruct (outcome env EnsureRemoveAll (calls w1)) as [e|] eqn:He.
    - repeat step. eexists _, _, _. split; [reflexivity |].
      wsimpl. rewrite lookup_insert_eq.
      split; [reflexivity |]. wsimpl. split_and!; try done.
      exists EnsureRemoveAll, (calls w1). by rewrite He.
    - match goal with
      | |- context [bind (deregister env id config) ?k ?W] =>
          destruct (deregister_Ret env id config W _ ltac:(hlook))
            as (w2 & rm & E & T2 & H2 & C2 & _);
          unfold bind at 1; rewrite E
      end.
      wsimpl. wsimpl_in H2. wsimpl_in C2.
      erewrite run_modC by (rewrite H2; hlook). repeat step.
      eexists _, _, _. split; [reflexivity |].
      wsimpl. rewrite lookup_insert_eq.
      split; [reflexivity |]. wsimpl. rewrite C2. by split_and!. }
  destruct (RWLayer c) as [layer|] eqn:HRW.
  - repeat step. wsimpl.
    match goal with
    | |- context [outcome env ReleaseLayer ?n] =>
        destruct (outcome env ReleaseLayer n) as [e|] eqn:He
    end.
    + repeat step. eexists _, _, _. split; [reflexivity |].
      wsimpl. rewrite lookup_insert_eq.
      split; [reflexivity |]. wsimpl. split_and!; try done.
      eexists ReleaseLayer, _. by rewrite He.
    + repeat step.
      match goal with
      | |- context [bind (Lock id) _ ?W] =>
          edestruct (Hroot W) as (r & w' & c' & E & H & L & Rn & Hcases);
            [hlook | wsimpl; reflexivity .. |]
      end.
      rewrite E. by eexists _, _, _.
  - destruct (UsesSnapshotter env) eqn:HS.
    + repeat step. wsimpl.
      match goal with
      | |- context [outcome env LeaseDelete ?n] =>
          destruct (outcome env LeaseDelete n) as [e|] eqn:He
      end.
      * repeat step. eexists _, _, _. split; [reflexivity |].
        wsimpl. rewrite lookup_insert_eq.
        split; [reflexivity |]. wsimpl. split_and!; try done.
        eexists LeaseDelete, _. by rewrite He.
      * repeat step.
        match goal with
        | |- context [bind (Lock id) _ ?W] =>
            edestruct (Hroot W) as (r & w' & c' & E & H & L & Rn & Hcases);
              [hlook | wsimpl; reflexivity .. |]
        end.
        rewrite E. by eexists _, _, _.
    + repeat step.
      match goal with
      | |- context [bind (Lock id) _ ?W] =>
          edestruct (Hroot W) as (r & w' & c' & E & H & L & Rn & Hcases);
            [hlook | wsimpl; reflexivity .. |]
      end.
      rewrite E. by eexists _, _, _.
Qed.

(** A failed cleanup of a stopped container can be retried. The failure, at
    the layer release, the lease deletion or the removal of the root, leaves
    the error recorded on the container, which is still registered and not
    Removed; and a second [cleanupContainer], run where the first one ended
    and with collaborators that no longer fail, returns nil with the container
    deregistered, Removed, and its removal error cleared. *)
Theorem cleanupContainer_retry env env' id config w c e w' :
  heap w !! id = Some c -> locked c = false -> Running c = false ->
  cleanupContainer env id config w = Ret (Some e) w' ->
  (forall op n, outcome env' op n = None) ->
  (exists c', heap w' !! id = Some c' /\ removalError c' = Some e /\
     Removed c' = Removed c) /\
  containers w' = containers w /\
  exists w'' c'',
    cleanupContainer env' id config w' = Ret None w'' /\
    (id ∉ containers w'') /\ heap w'' !! id = Some c'' /\
    Removed c'' = true /\ removalError c'' = None.
Proof.
  intros Hc Hl Hrun H Hall.
  rewrite (cleanupContainer_stopped _ _ _ _ _ Hc Hrun) in H.
  destruct (teardownContainer_total env id config (emit (EvStopCollection id) w) c Hc Hl)
    as (r1 & w1 & c1 & E1 & H1 & L1 & R1 & Hcase).
  rewrite H in E1. injection E1 as <- <-.
  destruct Hcase as (Herr & Hreg & Hrem & _).
  split; [by exists c1 |]. split; [done |].
  rewrite (cleanupContainer_stopped _ _ _ _ _ H1 ltac:(congruence)).
  destruct (teardownContainer_total env' id config (emit (EvStopCollection id) w') c1 H1 L1)
    as (r2 & w2 & c2 & E2 & H2 & L2 & R2 & Hcase2).
  destruct r2 as [e2|].
  { destruct Hcase2 as (_ & _ & _ & op & n & Hne). by rewrite Hall in Hne. }
  exists w2, c2. by destruct Hcase2 as (? & ? & ?).
Qed.

(** Cleaning up a container that is not running never goes near the runtime
    task: with the lock free [cleanupContainer] always returns, its first
    event is stopping the stats collection, and after it there is no task
    lookup, kill, resume or direct kill, no wait and no entry into [Kill]; the
    only event logged is "destroy", on success. *)
Theorem cleanupContainer_stopped_is_quiet env id config w c :
  heap w !! id = Some c -> locked c = false -> Running c = false ->
  exists r w' evs,
    cleanupContainer env id config w = Ret r w' /\
    trace w' = trace w ++ EvStopCollection id :: evs /\
    (forall op i res, In (EvExt op i res) evs ->
       match op with
       | GetRunningTask | TaskKill _ | TaskResume | killProcessDirectly | updateNetwork =>
           False
       | _ => True
       end) /\
    (forall i ctx res, ~ In (EvWait i ctx res) evs) /\
    (forall fn i, ~ In (EvEnter fn i) evs) /\
    (forall i a, In (EvLogContainerEvent i a) evs -> r = None /\ a = "destroy"%string).
Proof.
  intros Hc Hl Hrun.
  rewrite (cleanupContainer_stopped _ _ _ _ _ Hc Hrun).
  destruct (teardownContainer_shape env id config (emit (EvStopCollection id) w) c Hc Hl)
    as (r & w' & ck & post & c' & E & T & _ & _ & Hcases).
  exists r, w', ([EvLock id; EvSetDead id; EvExt CheckpointTo id ck; EvUnlock id] ++ post).
  split; [done |]. split; [by rewrite T; simpl; rewrite <- app_assoc |].
  assert (forall x e0, In e0 (released env c id x) ->
            e0 = EvExt ReleaseLayer id x \/ e0 = EvExt LeaseDelete id x) as Hrel.
  { intros x e0. unfold released.
    destruct (RWLayer c); [| destruct (UsesSnapshotter env)]; intros X; in_solve; auto. }
  destruct Hcases as [(e & -> & _ & -> & _) | [(e & -> & -> & _) | (rm & -> & -> & _)]].
  all: split_and!;
    [ intros op i res X | intros i ctx res X | intros fn i X | intros i a X ].
  all: in_solve; try done;
    repeat match goal with
           | Hin : In _ (released _ _ _ _) |- _ => apply Hrel in Hin as [? | ?]; simplify_eq
           end; try done.
Qed.

(** ** The theorems of this part on concrete runs *)

(** [Kill] on the container [c1] whose process is gone and whose exit event
    was lost. *)
Lemma Kill_outcomes_witness :
  heap world_gone !! "c1" = Some ctr0 /\ locked ctr0 = false /\
  exists r w' c',
    Kill env_gone "c1" world_gone = Ret r w' /\ heap w' !! "c1" = Some c' /\
    (Running ctr0 = false \/
     exists err w1,
       killPossiblyDeadProcess env_gone "c1" SIGKILL (emit (EvEnter "Kill" "c1") world_gone)
         = Ret err w1).
Proof.
  assert (Hc : heap world_gone !! "c1" = Some ctr0) by (vm_compute; reflexivity).
  destruct (Kill_outcomes env_gone "c1" world_gone ctr0 Hc eq_refl)
    as (r & w' & c' & HK & Hc' & Hcases).
  split; [exact Hc |]. split; [reflexivity |].
  exists r, w', c'. split; [exact HK |]. split; [exact Hc' |].
  destruct Hcases as [(Hn & _) | (_ & err & w1 & Hk & _)].
  - left. exact Hn.
  - right. exists err, w1. exact Hk.
Defined.


(** Sending [SIGTERM] to the running container [c1]. *)
Lemma killWithSignal_frame_witness :
  heap world0 !! "c1" = Some ctr0 /\ locked ctr0 = false /\
  exists r w' mid c',
    killWithSignal env0 "c1" 15 world0 = Ret r w' /\
    trace w' = trace world0 ++ EvLock "c1" :: mid ++ [EvUnlock "c1"] /\
    heap w' = <["c1" := c']> (heap world0) /\
    containers w' = containers world0 /\ names w' = names world0.
Proof.
  assert (Hc : heap world0 !! "c1" = Some ctr0) by (vm_compute; reflexivity).
  destruct (killWithSignal_frame env0 "c1" 15 world0 ctr0 Hc eq_refl)
    as (r & w' & mid & c' & Hk & T & _ & H & _ & C & N & _).
  split; [exact Hc |]. split; [reflexivity |].
  exists r, w', mid, c'. exact (conj Hk (conj T (conj H (conj C N)))).
Defined.

Lemma killWithSignal_manual_stop_witness :
  heap world0 !! "c1" = Some ctr0 /\ locked ctr0 = false /\
  exists r w' c' evs,
    killWithSignal env0 "c1" 15 world0 = Ret r w' /\ trace w' = trace world0 ++ evs /\
    heap w' !! "c1" = Some c' /\
    (r = None \/ (exists res, In (EvExt (TaskKill 15) "c1" res) evs) ->
     HasBeenManuallyStopped c' = true /\
     exists pre ck post, evs = pre ++ EvExt CheckpointTo "c1" ck :: post /\
       forall s res, ~ In (EvExt (TaskKill s) "c1" res) pre).
Proof.
  assert (Hc : heap world0 !! "c1" = Some ctr0) by (vm_compute; reflexivity).
  destruct (killWithSignal_manual_stop env0 "c1" 15 world0 ctr0 Hc eq_refl)
    as (r & w' & c' & evs & Hk & T & H & _ & Hmark).
  split; [exact Hc |]. split; [reflexivity |].
  exists r, w', c', evs. exact (conj Hk (conj T (conj H (Hmark eq_refl)))).
Defined.

(** Sending [SIGTERM] to [c1] while it is restarting. *)
Lemma killWithSignal_restarting_witness :
  heap More.world_restarting !! "c1" = Some More.ctr_restarting /\
  locked More.ctr_restarting = false /\ Restarting More.ctr_restarting = true /\
  exists r w' evs,
    killWithSignal env0 "c1" 15 More.world_restarting = Ret r w' /\
    trace w' = trace More.world_restarting ++ evs /\
    (forall s res, ~ In (EvExt (TaskKill s) "c1" res) evs) /\
    (forall res, ~ In (EvExt TaskResume "c1" res) evs) /\
    (forall i a, ~ In (EvLogContainerEvent i a) evs).
Proof.
  assert (Hc : heap More.world_restarting !! "c1" = Some More.ctr_restarting)
    by (vm_compute; reflexivity).
  destruct (killWithSignal_restarting env0 "c1" 15 More.world_restarting
              More.ctr_restarting Hc eq_refl eq_refl)
    as (r & w' & evs & Hk & T & K & Rs & L & _).
  split; [exact Hc |]. split; [reflexivity |]. split; [reflexivity |].
  exists r, w', evs. exact (conj Hk (conj T (conj K (conj Rs L)))).
Defined.

(** [SIGKILL] to [c1]: the container is told to exit on its next event. *)
Lemma killWithSignal_arms_exit_witness :
  heap world0 !! "c1" = Some ctr0 /\ locked ctr0 = false /\
  outcome env0 GetRunningTask (calls world0) = None /\
  exists r w' c',
    killWithSignal env0 "c1" SIGKILL world0 = Ret r w' /\
    heap w' !! "c1" = Some c' /\ exitOnNext c' = true.
Proof.
  assert (Hc : heap world0 !! "c1" = Some ctr0) by (vm_compute; reflexivity).
  destruct (killWithSignal_arms_exit env0 "c1" SIGKILL world0 ctr0 Hc eq_refl eq_refl)
    as (r & w' & c' & evs & Hk & _ & H & Harm & _).
  split; [exact Hc |]. split; [reflexivity |]. split; [reflexivity |].
  exists r, w', c'. exact (conj Hk (conj H (proj1 (Harm (or_introl eq_refl))))).
Defined.

Lemma killPossiblyDeadProcess_errors_witness :
  heap world0 !! "c1" = Some ctr0 /\ locked ctr0 = false /\
  exists r w' evs,
    killPossiblyDeadProcess env0 "c1" 15 world0 = Ret r w' /\
    trace w' = trace world0 ++ evs /\
    (forall e, r = Some e -> IsNotFound e = true ->
       e = errNoSuchProcess (Pid ctr0) 15 /\
       forall s res, ~ In (EvExt (TaskKill s) "c1" res) evs).
Proof.
  assert (Hc : heap world0 !! "c1" = Some ctr0) by (vm_compute; reflexivity).
  destruct (killPossiblyDeadProcess_errors env0 "c1" 15 world0 ctr0 Hc eq_refl)
    as (r & w' & evs & Hk & T & Hnf & _).
  split; [exact Hc |]. split; [reflexivity |].
  exists r, w', evs. exact (conj Hk (conj T Hnf)).
Defined.

(** [Kill] on [c1] when the exit event never comes: at most 12 seconds. *)
Lemma Kill_returns_in_time_witness :
  heap world0 !! "c1" = Some ctr0 /\ locked ctr0 = false /\
  exists r w' c',
    Kill env_never "c1" world0 = Ret r w' /\ heap w' !! "c1" = Some c' /\
    locked c' = false /\
    now world0 <= now w' <= now world0 + waitTimeout env_never + 2 * Second /\
    (Running ctr0 = false -> r = Some (errNotRunning "c1") /\ now w' = now world0).
Proof.
  assert (Hc : heap world0 !! "c1" = Some ctr0) by (vm_compute; reflexivity).
  exact (conj Hc (conj eq_refl (Kill_returns_in_time env_never "c1" world0 ctr0 Hc eq_refl))).
Defined.

(** A three-second stop of [c1] when the exit event never comes. *)
Lemma containerStop_returns_in_time_witness :
  heap world0 !! "c1" = Some ctr0 /\ locked ctr0 = false /\
  0 <= effectiveTimeout ctr0 three_seconds /\
  exists r w' c',
    containerStop env_never Background "c1" three_seconds world0 = Ret r w' /\
    heap w' !! "c1" = Some c' /\ locked c' = false /\
    now world0 <= now w' <=
      now world0 + Z.max (seconds (effectiveTimeout ctr0 three_seconds)) (2 * Second)
        + waitTimeout env_never + 4 * Second.
Proof.
  assert (Hc : heap world0 !! "c1" = Some ctr0) by (vm_compute; reflexivity).
  assert (HT : 0 <= effectiveTimeout ctr0 three_seconds) by (vm_compute; discriminate).
  exact (conj Hc (conj eq_refl (conj HT
           (containerStop_returns_in_time env_never Background "c1" three_seconds world0
              ctr0 Hc eq_refl HT)))).
Defined.

(** A three-second stop of [c1], which exits after a second. *)
Lemma containerStop_stop_event_witness :
  heap world0 !! "c1" = Some ctr0 /\
  containerStop env0 Background "c1" three_seconds world0 = Ret None More.stopped /\
  exists evs, trace More.stopped = trace world0 ++ evs /\
    (Running ctr0 = false -> @None error = None /\ More.stopped = world0) /\
    (Running ctr0 = true ->
       exists pre, evs = pre ++ [EvLogContainerEvent "c1" "stop"] /\
         forall i, ~ In (EvLogContainerEvent i "stop") pre).
Proof.
  assert (Hc : heap world0 !! "c1" = Some ctr0) by (vm_compute; reflexivity).
  assert (H : containerStop env0 Background "c1" three_seconds world0 = Ret None More.stopped)
    by (vm_compute; reflexivity).
  exact (conj Hc (conj H
           (containerStop_stop_event env0 Background "c1" three_seconds world0 ctr0 None
              More.stopped Hc H))).
Defined.

(** Stopping [c1] with a signal name that does not parse. *)
Lemma ContainerStop_errors_witness :
  ContainerStop env0 (Win_pidExists env0) Background "c1" More.bogus world0 =
    Ret (Some (errdefsAs KSystem
                 (errWrapf (errdefsAs KInvalidParameter (errNew "Invalid signal: BOGUS"))
                    "cannot stop container: c1"))) world0 /\
  exists id e0, GetContainer world0 "c1" = inr id /\
    errdefsAs KSystem
      (errWrapf (errdefsAs KInvalidParameter (errNew "Invalid signal: BOGUS"))
         "cannot stop container: c1") =
    errdefsAs KSystem (errWrapf e0 ("cannot stop container: " ++ "c1")).
Proof.
  assert (H : ContainerStop env0 (Win_pidExists env0) Background "c1" More.bogus world0 =
    Ret (Some (errdefsAs KSystem
                 (errWrapf (errdefsAs KInvalidParameter (errNew "Invalid signal: BOGUS"))
                    "cannot stop container: c1"))) world0)
    by (vm_compute; reflexivity).
  split; [exact H |].
  destruct (ContainerStop_errors env0 (Win_pidExists env0) Background "c1" More.bogus
              world0 _ world0 H) as [[Hget _] | (id & e0 & Hget & He & _)].
  - exfalso. vm_compute in Hget. discriminate Hget.
  - exists id, e0. exact (conj Hget He).
Defined.

(** Killing a container that does not exist with a signal that does not. *)
Lemma ContainerKill_rejects_signal_witness :
  "BOGUS"%string <> ""%string /\
  ContainerKill env0 (Win_pidExists env0) More.any_signal "linux" "nope" "BOGUS" world0 =
    Ret (Some (errdefsAs KInvalidParameter (errNew "Invalid signal: BOGUS"))) world0.
Proof.
  assert (Hs : "BOGUS"%string <> ""%string) by discriminate.
  exact (conj Hs (ContainerKill_rejects_signal env0 (Win_pidExists env0) More.any_signal
                    "linux" "nope" "BOGUS" world0 Hs)).
Defined.

(** Stopping and killing the container [c1] that never started. *)
Lemma idle_container_left_alone_witness :
  GetContainer world_created "c1" = inr "c1" /\
  heap world_created !! "c1" = Some ctr_created /\
  (Running ctr_created = false \/ Pid ctr_created = 0) /\
  ContainerStop env0 (Win_pidExists env0) Background "c1" three_seconds world_created =
    Ret None world_created /\
  ContainerKill env0 (Win_pidExists env0) More.any_signal "linux" "c1" "" world_created =
    Ret None world_created.
Proof.
  assert (Hg : GetContainer world_created "c1" = inr "c1") by (vm_compute; reflexivity).
  assert (Hc : heap world_created !! "c1" = Some ctr_created) by (vm_compute; reflexivity).
  destruct (idle_container_left_alone env0 (Win_pidExists env0) More.any_signal "linux"
              Background "c1" three_seconds world_created "c1" ctr_created Hg Hc
              (or_introl eq_refl)) as (Hstop & Hkill & _).
  exact (conj Hg (conj Hc (conj (or_introl eq_refl) (conj Hstop Hkill)))).
Defined.

(** [SIGTERM] through [ContainerKill] to the running container [c1]. *)
Lemma ContainerKill_signal_only_witness :
  "TERM"%string <> ""%string /\ ParseSignal env0 "TERM" = inr 15 /\
  More.any_signal 15 = true /\ 15 <> SIGKILL /\
  GetContainer world0 "c1" = inr "c1" /\ heap world0 !! "c1" = Some ctr0 /\
  Running ctr0 = true /\ Pid ctr0 <> 0 /\
  Win_pidExists env0 (Pid ctr0) world0 = Ret true world0 /\
  ContainerKill env0 (Win_pidExists env0) More.any_signal "linux" "c1" "TERM" world0 =
    killWithSignal env0 "c1" 15 world0.
Proof.
  assert (Hs : "TERM"%string <> ""%string) by discriminate.
  assert (Hn : 15 <> SIGKILL) by discriminate.
  assert (Hg : GetContainer world0 "c1" = inr "c1") by (vm_compute; reflexivity).
  assert (Hc : heap world0 !! "c1" = Some ctr0) by (vm_compute; reflexivity).
  assert (Hp : Pid ctr0 <> 0) by discriminate.
  assert (Hprobe : Win_pidExists env0 (Pid ctr0) world0 = Ret true world0)
    by (vm_compute; reflexivity).
  exact (conj Hs (conj eq_refl (conj eq_refl (conj Hn (conj Hg (conj Hc (conj eq_refl
           (conj Hp (conj Hprobe
              (proj1 (ContainerKill_signal_only env0 (Win_pidExists env0) More.any_signal
                        "linux" "c1" "TERM" 15 world0 "c1" ctr0 world0
                        Hs eq_refl eq_refl Hn Hg Hc eq_refl Hp Hprobe))))))))))).
Defined.

(** Stopping [c1] while it is marked running and its process is gone. *)
Lemma Posix_probe_failure_is_success_witness :
  GetContainer world_removing "c1" = inr "c1" /\
  heap world_removing !! "c1" = Some ctr_removing /\
  Running ctr_removing = true /\ Pid ctr_removing <> 0 /\
  procs world_removing !! Pid ctr_removing = None /\
  ContainerStop env0 (Posix.pidExists env0) Background "c1" three_seconds world_removing =
    Ret None world_removing /\
  ContainerKill env0 (Posix.pidExists env0) More.any_signal "linux" "c1" "" world_removing =
    Ret None world_removing.
Proof.
  assert (Hg : GetContainer world_removing "c1" = inr "c1") by (vm_compute; reflexivity).
  assert (Hc : heap world_removing !! "c1" = Some ctr_removing)
    by (vm_compute; reflexivity).
  assert (Hp : Pid ctr_removing <> 0) by discriminate.
  assert (Hproc : procs world_removing !! Pid ctr_removing = None)
    by (vm_compute; reflexivity).
  exact (conj Hg (conj Hc (conj eq_refl (conj Hp (conj Hproc
           (Posix_probe_failure_is_success env0 More.any_signal "linux" Background "c1"
              three_seconds world_removing "c1" ctr_removing Hg Hc eq_refl Hp
              (or_introl Hproc))))))).
Defined.

(** Stopping the running container [c1], whose process 4242 is alive. *)
Lemma Posix_ContainerStop_kills_first_witness :
  GetContainer world0 "c1" = inr "c1" /\ heap world0 !! "c1" = Some ctr0 /\
  Running ctr0 = true /\ Pid ctr0 <> 0 /\
  procs world0 !! Pid ctr0 = Some (Live true) /\
  forall w',
    final (ContainerStop env0 (Posix.pidExists env0) Background "c1" three_seconds world0)
      = Some w' ->
    exists evs, trace w' = trace world0 ++ EvSignal (Pid ctr0) SIGKILL :: evs /\
      forallb stopping evs = true.
Proof.
  assert (Hg : GetContainer world0 "c1" = inr "c1") by (vm_compute; reflexivity).
  assert (Hc : heap world0 !! "c1" = Some ctr0) by (vm_compute; reflexivity).
  assert (Hp : Pid ctr0 <> 0) by discriminate.
  assert (Hproc : procs world0 !! Pid ctr0 = Some (Live true)) by (vm_compute; reflexivity).
  exact (conj Hg (conj Hc (conj eq_refl (conj Hp (conj Hproc
           (proj2 (Posix_ContainerStop_kills_first env0 Background "c1" three_seconds
                     world0 "c1" ctr0 Hg Hc eq_refl Hp Hproc))))))).
Defined.

(** Removing the link [/web], or [web]: the default name of [c1]. *)
Lemma rmLink_default_name_witness :
  forallb (fun a => negb (is_slash a)) (list_ascii_of_string "web") = true /\
  rmLink env0 "c1" "/web" world0 = Ret (Some errDefaultLinkName) world0 /\
  ("web"%string <> ""%string ->
   rmLink env0 "c1" "web" world0 = Ret (Some errDefaultLinkName) world0).
Proof.
  exact (conj eq_refl (rmLink_default_name env0 "c1" "web" world0 eq_refl)).
Defined.

(** Removing the link [/web/db] from [c1] to [c2]. *)
Lemma rmLink_frame_witness :
  rmLink env0 "c2" "/web/db" More.world_linked = Ret None More.unlinked /\
  heap More.unlinked = heap More.world_linked /\
  containers More.unlinked = containers More.world_linked /\
  exists a rest full pe,
    "/web/db"%string = String a rest /\
    full = (if is_slash a then "/web/db" else ("/" ++ "/web/db"))%string /\
    names More.world_linked !! TrimSuffix_slash (path_Split full).1 = Some pe /\
    names More.unlinked = delete full (names More.world_linked) /\
    ((exists e, GetContainer More.unlinked pe = inl e /\
        linkIndex More.unlinked = linkIndex More.world_linked /\
        trace More.unlinked = trace More.world_linked) \/
     (exists pid res, GetContainer More.unlinked pe = inr pid /\
        linkIndex More.unlinked =
          filter (fun l => l ≠ (full, pid, "c2"%string)) (linkIndex More.world_linked) /\
        trace More.unlinked = trace More.world_linked ++ [EvExt updateNetwork pid res])).
Proof.
  assert (H : rmLink env0 "c2" "/web/db" More.world_linked = Ret None More.unlinked)
    by (vm_compute; reflexivity).
  exact (conj H (rmLink_frame env0 "c2" "/web/db" More.world_linked None More.unlinked H)).
Defined.

(** Removing the running container [c1]. *)
Lemma ContainerRm_releases_guard_witness :
  heap world0 !! "c1" = Some ctr0 /\ Pid ctr0 <> 0 /\ RemovalInProgress ctr0 = false /\
  forall r w', Win.ContainerRm_resolved env0 "c1" "c1" force world0 = Ret r w' ->
    exists c', heap w' !! "c1" = Some c' /\ RemovalInProgress c' = false.
Proof.
  assert (Hc : heap world0 !! "c1" = Some ctr0) by (vm_compute; reflexivity).
  assert (Hp : Pid ctr0 <> 0) by discriminate.
  exact (conj Hc (conj Hp (conj eq_refl
           (proj1 (ContainerRm_releases_guard env0 "c1" "c1" force world0 ctr0
                     Hc Hp eq_refl))))).
Defined.

(** Removing "the link" of a container that never started. *)
Lemma ContainerRm_never_started_witness :
  heap world_created !! "c1" = Some ctr_created /\ Pid ctr_created = 0 /\
  exists w' c',
    Win.ContainerRm_resolved env0 "c1" "/web" (mkRmConfig false false true) world_created
      = Ret None w' /\
    (("c1" : string) ∉ containers w') /\ heap w' !! "c1" = Some c' /\ Dead c' = true.
Proof.
  assert (Hc : heap world_created !! "c1" = Some ctr_created) by (vm_compute; reflexivity).
  exact (conj Hc (conj eq_refl
           (proj1 (ContainerRm_never_started env0 "c1" "/web" (mkRmConfig false false true)
                     world_created ctr_created Hc eq_refl)))).
Defined.

Lemma Win_enumeration_is_truncated_witness :
  EnumProcesses_fails env0 = false /\
  Win.pidList env0 world0 = Some (take 1024 (Win.os_pids world0)).
Proof.
  exact (conj eq_refl (proj1 (Win_enumeration_is_truncated env0 world0 eq_refl))).
Defined.

(** Removing the created container [c1]: the layer service refuses, then
    every collaborator succeeds. *)
Lemma cleanupContainer_retry_witness :
  heap world_created !! "c1" = Some ctr_created /\ locked ctr_created = false /\
  Running ctr_created = false /\
  cleanupContainer env_release_fails "c1" plain world_created =
    Ret (Some (errWrapf layer_busy "container c1")) More.release_failed /\
  containers More.release_failed = containers world_created /\
  exists w'' c'',
    cleanupContainer env0 "c1" plain More.release_failed = Ret None w'' /\
    (("c1" : string) ∉ containers w'') /\ heap w'' !! "c1" = Some c'' /\
    Removed c'' = true /\ removalError c'' = None.
Proof.
  assert (Hc : heap world_created !! "c1" = Some ctr_created) by (vm_compute; reflexivity).
  assert (H : cleanupContainer env_release_fails "c1" plain world_created =
              Ret (Some (errWrapf layer_busy "container c1")) More.release_failed)
    by (vm_compute; reflexivity).
  exact (conj Hc (conj eq_refl (conj eq_refl (conj H
           (proj2 (cleanupContainer_retry env_release_fails env0 "c1" plain world_created
                     ctr_created _ More.release_failed Hc eq_refl eq_refl H
                     (fun _ _ => eq_refl))))))).
Defined.

(** Removing the created container [c1]. *)
Lemma cleanupContainer_stopped_is_quiet_witness :
  heap world_created !! "c1" = Some ctr_created /\ locked ctr_created = false /\
  Running ctr_created = false /\
  exists r w' evs,
    cleanupContainer env0 "c1" plain world_created = Ret r w' /\
    trace w' = trace world_created ++ EvStopCollection "c1" :: evs /\
    (forall i ctx res, ~ In (EvWait i ctx res) evs) /\
    (forall fn i, ~ In (EvEnter fn i) evs).
Proof.
  assert (Hc : heap world_created !! "c1" = Some ctr_created) by (vm_compute; reflexivity).
  destruct (cleanupContainer_stopped_is_quiet env0 "c1" plain world_created ctr_created
              Hc eq_refl eq_refl) as (r & w' & evs & E & T & _ & W & K & _).
  split; [exact Hc |]. split; [reflexivity |]. split; [reflexivity |].
  exists r, w', evs. exact (conj E (conj T (conj W K))).
Defined.
